(** * The minbpe command-line wrapper (docker/python/cli.py)

    A shallow embedding of the wrapper's functions: configuration export and
    import, the five command handlers and [main].  Python values that cross
    the JSON boundary are modelled by [pyval]; Python dictionaries are
    association lists kept in insertion order; exceptions are an error monad;
    the file system is threaded explicitly. *)

From Stdlib Require Import ZArith List String Ascii Bool Lia DecimalString Permutation.
Import ListNotations.
Open Scope string_scope.
Open Scope list_scope.
Open Scope Z_scope.

(** ** Exceptions and the error monad *)

(** A raised Python exception: its class, [str(e)] and the text that
    [traceback.format_exc()] yields for it.  Every exception of the model is
    a subclass of [Exception] (KeyError, ValueError, TypeError, OSError,
    AttributeError, NotImplementedError, JSONDecodeError). *)
Record exn := Raise { exn_class : string; exn_msg : string; exn_tb : string }.

Inductive result (A : Type) : Type :=
| Ok (a : A)
| Err (e : exn).
Arguments Ok {A} a.
Arguments Err {A} e.

Definition bind {A B} (m : result A) (k : A -> result B) : result B :=
  match m with
  | Ok a => k a
  | Err e => Err e
  end.

Notation "'let*' x ':=' m 'in' k" := (bind m (fun x => k))
  (at level 10, x name, m at level 100, k at level 200).
Notation "'let*' ' p ':=' m 'in' k" := (bind m (fun x => match x with p => k end))
  (at level 10, p pattern, m at level 100, k at level 200).

Definition raise {A} (cls msg : string) : result A :=
  Err (Raise cls msg ("Traceback (most recent call last): " ++ cls ++ ": " ++ msg)%string).

Definition is_ok {A} (m : result A) : bool :=
  match m with Ok _ => true | Err _ => false end.

Fixpoint mapM {A B} (f : A -> result B) (l : list A) : result (list B) :=
  match l with
  | [] => Ok []
  | x :: r => let* y := f x in let* ys := mapM f r in Ok (y :: ys)
  end.

(** ** Python values *)

(** The values that [json.load] produces and [json.dump] accepts.  Lists and
    tuples are one constructor: [json.dump], unpacking and [tuple()] treat
    them alike.  Numbers are integers (floats are outside the model). *)
#[warnings="-register-all"]
Inductive pyval :=
| VNone
| VBool (b : bool)
| VInt (n : Z)
| VStr (s : string)
| VList (l : list pyval)
| VDict (d : list (pyval * pyval)).

(** Python truthiness, as tested by [if config["merges"]]. *)
Definition truthy (v : pyval) : bool :=
  match v with
  | VNone => false
  | VBool b => b
  | VInt n => negb (n =? 0)
  | VStr s => negb (String.eqb s "")
  | VList l => match l with [] => false | _ => true end
  | VDict d => match d with [] => false | _ => true end
  end.

(** Equality of dictionary keys: [True == 1] and [False == 0] in Python. *)
Definition key_eqb (a b : pyval) : bool :=
  match a, b with
  | VNone, VNone => true
  | VBool x, VBool y => Bool.eqb x y
  | VBool x, VInt n | VInt n, VBool x => n =? (if x then 1 else 0)
  | VInt x, VInt y => x =? y
  | VStr x, VStr y => String.eqb x y
  | _, _ => false
  end.

Definition hashable (v : pyval) : bool :=
  match v with
  | VList _ | VDict _ => false
  | _ => true
  end.

(** ** Dictionaries in insertion order *)

Section Dict.
Context {K V : Type} (eqb : K -> K -> bool).

Fixpoint dict_get (k : K) (d : list (K * V)) : option V :=
  match d with
  | [] => None
  | (k', v) :: r => if eqb k k' then Some v else dict_get k r
  end.

(** [d[k] = v]: an existing key keeps its position, a new key goes last. *)
Fixpoint dict_set (k : K) (v : V) (d : list (K * V)) : list (K * V) :=
  match d with
  | [] => [(k, v)]
  | (k', v') :: r => if eqb k k' then (k', v) :: r else (k', v') :: dict_set k v r
  end.

Definition dict_mem (k : K) (d : list (K * V)) : bool :=
  match dict_get k d with Some _ => true | None => false end.

(** [{k: v for k, v in l}]: the pairs inserted left to right. *)
Definition dict_of_list (l : list (K * V)) : list (K * V) :=
  fold_left (fun d kv => dict_set (fst kv) (snd kv) d) l [].
End Dict.

Definition pair_eqb (a b : Z * Z) : bool :=
  (fst a =? fst b) && (snd a =? snd b).

(** ** Text and bytes *)

(** A Python [str] is represented by its UTF-8 encoding, a [string] of
    bytes; [text.encode("utf-8")] is then the byte list of that string and
    [bytes.decode("utf-8", errors="replace")] is [utf8_replace] below. *)
Definition byte_of_ascii (c : ascii) : Z := Z.of_N (N_of_ascii c).
Definition ascii_of_byte (b : Z) : ascii := ascii_of_N (Z.to_N b).

Definition bytes_of_string (s : string) : list Z :=
  map byte_of_ascii (list_ascii_of_string s).
Definition string_of_bytes (l : list Z) : string :=
  string_of_list_ascii (map ascii_of_byte l).

Definition in_range (lo hi b : Z) : bool := (lo <=? b) && (b <=? hi).
Definition cont (b : Z) : bool := in_range 128 191 b.

(** Well-formed UTF-8 byte sequences (Unicode, table 3-7): the bounds on
    the second byte for a lead byte of a 3- or 4-byte sequence. *)
Definition second3 (b0 b1 : Z) : bool :=
  if b0 =? 224 then in_range 160 191 b1
  else if b0 =? 237 then in_range 128 159 b1
  else in_range 225 239 b0 && cont b1.
Definition second4 (b0 b1 : Z) : bool :=
  if b0 =? 240 then in_range 144 191 b1
  else if b0 =? 244 then in_range 128 143 b1
  else in_range 241 243 b0 && cont b1.

Fixpoint utf8_valid (l : list Z) : bool :=
  match l with
  | [] => true
  | b0 :: r =>
    if in_range 0 127 b0 then utf8_valid r else
    match r with
    | [] => false
    | b1 :: r1 =>
      if in_range 194 223 b0 && cont b1 then utf8_valid r1 else
      match r1 with
      | [] => false
      | b2 :: r2 =>
        if second3 b0 b1 && cont b2 then utf8_valid r2 else
        match r2 with
        | [] => false
        | b3 :: r3 => second4 b0 b1 && cont b2 && cont b3 && utf8_valid r3
        end
      end
    end
  end.

(** U+FFFD in UTF-8. *)
Definition replacement : list Z := [239; 191; 189].

(** [bytes.decode("utf-8", errors="replace")]: a well-formed sequence is
    copied, and each maximal ill-formed prefix of a sequence becomes one
    replacement character. *)
Fixpoint utf8_replace (l : list Z) : list Z :=
  match l with
  | [] => []
  | b0 :: r =>
    if in_range 0 127 b0 then b0 :: utf8_replace r else
    match r with
    | [] => replacement
    | b1 :: r1 =>
      if in_range 194 223 b0 then
        if cont b1 then b0 :: b1 :: utf8_replace r1
        else replacement ++ utf8_replace r
      else if second3 b0 b1 then
        match r1 with
        | [] => replacement
        | b2 :: r2 =>
          if cont b2 then b0 :: b1 :: b2 :: utf8_replace r2
          else replacement ++ utf8_replace r1
        end
      else if second4 b0 b1 then
        match r1 with
        | [] => replacement
        | b2 :: r2 =>
          if cont b2 then
            match r2 with
            | [] => replacement
            | b3 :: r3 =>
              if cont b3 then b0 :: b1 :: b2 :: b3 :: utf8_replace r3
              else replacement ++ utf8_replace r2
            end
          else replacement ++ utf8_replace r1
        end
      else replacement ++ utf8_replace r
    end
  end.

Definition str_valid (s : string) : bool := utf8_valid (bytes_of_string s).

(** [len(s)] of a [str]: the number of code points, i.e. of bytes that are
    not continuation bytes. *)
Definition py_len (s : string) : Z :=
  Z.of_nat (List.length (filter (fun b => negb (cont b)) (bytes_of_string s))).

(** ** Rendering and JSON *)

Definition str_of_Z (n : Z) : string := NilZero.string_of_int (Z.to_int n).

Definition join (sep : string) (l : list string) : string :=
  match l with
  | [] => ""
  | x :: r => fold_left (fun acc y => acc ++ sep ++ y)%string r x
  end.

(** [str(v)] as used in f-strings (for a string inside a container, its
    [repr] without escapes). *)
Fixpoint py_repr (v : pyval) : string :=
  match v with
  | VNone => "None"
  | VBool true => "True"
  | VBool false => "False"
  | VInt n => str_of_Z n
  | VStr s => ("'" ++ s ++ "'")%string
  | VList l => ("[" ++ join ", " (map py_repr l) ++ "]")%string
  | VDict d =>
    ("{" ++ join ", " (map (fun kv => py_repr (fst kv) ++ ": " ++ py_repr (snd kv)) d)
         ++ "}")%string
  end.

Definition py_str (v : pyval) : string :=
  match v with
  | VStr s => s
  | _ => py_repr v
  end.

(** The key [json.dump] writes for a dictionary key. *)
Definition json_key (k : pyval) : result string :=
  match k with
  | VStr s => Ok s
  | VInt n => Ok (str_of_Z n)
  | VBool true => Ok "true"
  | VBool false => Ok "false"
  | VNone => Ok "null"
  | _ => raise "TypeError" "keys must be str, int, float, bool or None"
  end.

(** [json.loads(json.dumps(v))]: every dictionary key comes back as a
    string; a repeated key keeps its last value. *)
Fixpoint jsonify (v : pyval) : result pyval :=
  match v with
  | VList l =>
    let* l' := (fix go (l : list pyval) : result (list pyval) :=
                  match l with
                  | [] => Ok []
                  | x :: r => let* y := jsonify x in let* ys := go r in Ok (y :: ys)
                  end) l in
    Ok (VList l')
  | VDict d =>
    let* d' := (fix go (d : list (pyval * pyval)) : result (list (pyval * pyval)) :=
                  match d with
                  | [] => Ok []
                  | (k, x) :: r =>
                    let* s := json_key k in
                    let* y := jsonify x in
                    let* r' := go r in
                    Ok ((VStr s, y) :: r')
                  end) d in
    Ok (VDict (dict_of_list key_eqb d'))
  | _ => Ok v
  end.

(** The items of a dictionary after [json.dump]: the inner loop of
    [jsonify] on its own. *)
Fixpoint jsonify_items (d : list (pyval * pyval)) : result (list (pyval * pyval)) :=
  match d with
  | [] => Ok []
  | (k, x) :: r =>
    let* s := json_key k in
    let* y := jsonify x in
    let* r' := jsonify_items r in
    Ok ((VStr s, y) :: r')
  end.

(** [dict(v)]: a copy of a dictionary, or the dictionary of a list of
    two-element lists with hashable first components.  (Other iterables
    of pairs are a [TypeError] in the model.) *)
Definition as_pair (v : pyval) : result (pyval * pyval) :=
  match v with
  | VList [k; x] =>
    if hashable k then Ok (k, x) else raise "TypeError" "unhashable type"
  | _ => raise "TypeError" "cannot convert dictionary update sequence element"
  end.

Definition py_dict (v : pyval) : result (list (pyval * pyval)) :=
  match v with
  | VDict d => Ok d
  | VList l => let* kvs := mapM as_pair l in Ok (dict_of_list key_eqb kvs)
  | VStr "" => Ok []
  | _ => raise "TypeError" "object is not iterable"
  end.

(** [v.items()]. *)
Definition py_items (v : pyval) : result (list (pyval * pyval)) :=
  match v with
  | VDict d => Ok d
  | _ => raise "AttributeError" "object has no attribute 'items'"
  end.

(** [len(v)]. *)
Definition py_len_val (v : pyval) : result Z :=
  match v with
  | VList l => Ok (Z.of_nat (List.length l))
  | VDict d => Ok (Z.of_nat (List.length d))
  | VStr s => Ok (py_len s)
  | _ => raise "TypeError" "object has no len()"
  end.

(** ** Tokenizer objects *)

Inductive klass := KBasic | KRegex | KGPT4.

(** The attributes of a tokenizer object that the wrapper reads or assigns.
    An attribute the wrapper probes with [hasattr]/[getattr] is optional;
    values assigned straight from a configuration are kept as they come. *)
Record Tokenizer := mkTokenizer {
  klass_of : klass;
  vocab : list (Z * list Z);                        (* id -> bytes *)
  merges : option (list ((Z * Z) * Z));             (* (p0, p1) -> idx *)
  special_tokens : option pyval;
  pattern : option pyval;
  compiled_pattern : option string;
  byte_shuffle : option pyval;
  inverse_byte_shuffle : option (list (pyval * pyval))
}.

Definition set_merges m (t : Tokenizer) :=
  mkTokenizer (klass_of t) (vocab t) (Some m) (special_tokens t) (pattern t)
    (compiled_pattern t) (byte_shuffle t) (inverse_byte_shuffle t).
Definition set_vocab v (t : Tokenizer) :=
  mkTokenizer (klass_of t) v (merges t) (special_tokens t) (pattern t)
    (compiled_pattern t) (byte_shuffle t) (inverse_byte_shuffle t).
Definition set_special_tokens s (t : Tokenizer) :=
  mkTokenizer (klass_of t) (vocab t) (merges t) (Some s) (pattern t)
    (compiled_pattern t) (byte_shuffle t) (inverse_byte_shuffle t).
Definition set_pattern p (t : Tokenizer) :=
  mkTokenizer (klass_of t) (vocab t) (merges t) (special_tokens t) (Some p)
    (compiled_pattern t) (byte_shuffle t) (inverse_byte_shuffle t).
Definition set_compiled_pattern c (t : Tokenizer) :=
  mkTokenizer (klass_of t) (vocab t) (merges t) (special_tokens t) (pattern t)
    (Some c) (byte_shuffle t) (inverse_byte_shuffle t).
Definition set_byte_shuffle b (t : Tokenizer) :=
  mkTokenizer (klass_of t) (vocab t) (merges t) (special_tokens t) (pattern t)
    (compiled_pattern t) (Some b) (inverse_byte_shuffle t).
Definition set_inverse_byte_shuffle i (t : Tokenizer) :=
  mkTokenizer (klass_of t) (vocab t) (merges t) (special_tokens t) (pattern t)
    (compiled_pattern t) (byte_shuffle t) (Some i).

(** The minbpe package, which the wrapper imports: the three constructors
    and the methods the wrapper calls.  Methods that mutate the object
    return the new object. *)
Class Library := mkLibrary {
  BasicTokenizer : result Tokenizer;
  RegexTokenizer : result Tokenizer;
  GPT4Tokenizer : result Tokenizer;
  has_register_special_tokens : Tokenizer -> bool;
  register_special_tokens : Tokenizer -> pyval -> result Tokenizer;
  _build_vocab : Tokenizer -> result (list (Z * list Z));
  train : Tokenizer -> string -> Z -> result Tokenizer;
  encode : Tokenizer -> string -> result (list Z);
  decode : Tokenizer -> pyval -> result string
}.

(** The pieces of the Python runtime the wrapper calls: [json.dumps],
    [json.loads] (layout options are not modelled), whether
    [regex.compile] accepts a pattern, and the matches of a pattern in a
    text (on its bytes). *)
Class Runtime := {
  json_dumps : pyval -> result string;
  json_loads : string -> result pyval;
  regex_ok : string -> bool;
  regex_findall : string -> list Z -> list (list Z)
}.

(** ** The file system *)

(** Regular files with their contents, and the paths [open] refuses. *)
Record FS := mkFS {
  files : list (string * string);
  denied : list string
}.

Definition isfile (p : string) (fs : FS) : bool := dict_mem String.eqb p (files fs).
Definition is_denied (p : string) (fs : FS) : bool :=
  existsb (String.eqb p) (denied fs).

(** Computations that read and write files and may raise. *)
Definition M (A : Type) : Type := FS -> result A * FS.

Definition ret {A} (a : A) : M A := fun fs => (Ok a, fs).
Definition lift {A} (m : result A) : M A := fun fs => (m, fs).
Definition bindM {A B} (m : M A) (k : A -> M B) : M B :=
  fun fs => match m fs with
            | (Ok a, fs') => k a fs'
            | (Err e, fs') => (Err e, fs')
            end.

Notation "x <- m ;; k" := (bindM m (fun x => k))
  (at level 61, m at next level, right associativity).

(** [open(p, 'r', encoding='utf-8').read()]. *)
Definition read_file (p : string) : M string :=
  fun fs =>
    if is_denied p fs then (raise "PermissionError" p, fs) else
    match dict_get String.eqb p (files fs) with
    | None => (raise "FileNotFoundError" p, fs)
    | Some s =>
      if str_valid s then (Ok s, fs)
      else (raise "UnicodeDecodeError" "'utf-8' codec can't decode", fs)
    end.

(** [open(p, 'w', encoding='utf-8')] followed by writing what [content]
    produces: the file is truncated as soon as it is opened, so a failure
    while producing the content leaves it empty. *)
Definition write_file (p : string) (content : result string) : M unit :=
  fun fs =>
    if is_denied p fs then (raise "PermissionError" p, fs) else
    match content with
    | Ok s => (Ok tt, mkFS (dict_set String.eqb p s (files fs)) (denied fs))
    | Err e => (Err e, mkFS (dict_set String.eqb p "" (files fs)) (denied fs))
    end.

(** ** Configuration export and import *)

Definition getitem (c : pyval) (k : string) : result pyval :=
  match c with
  | VDict d =>
    match dict_get key_eqb (VStr k) d with
    | Some v => Ok v
    | None => raise "KeyError" ("'" ++ k ++ "'")%string
    end
  | _ => raise "TypeError" "object is not subscriptable with a string"
  end.

(** [k in config and config[k]] for a dictionary [config]: the value when
    the key is present and truthy. *)
Definition truthy_item (k : string) (c : pyval) : option pyval :=
  match c with
  | VDict d =>
    match dict_get key_eqb (VStr k) d with
    | Some v => if truthy v then Some v else None
    | None => None
    end
  | _ => None
  end.

Definition as_int (v : pyval) : result Z :=
  match v with
  | VInt n => Ok n
  | VBool b => Ok (if b then 1 else 0)
  | _ => raise "TypeError" "token ids are integers"
  end.

(** One [pair, idx] item of [config["merges"]], in the shape export writes:
    [[p0, p1], idx] with integer components (token ids are integers in the
    model; an item of another shape is a [TypeError]). *)
Definition merge_entry (v : pyval) : result ((Z * Z) * Z) :=
  match v with
  | VList [VList [a; b]; i] =>
    let* p0 := as_int a in
    let* p1 := as_int b in
    let* idx := as_int i in
    Ok ((p0, p1), idx)
  | _ => raise "TypeError" "merge entries are [[p0, p1], idx]"
  end.

(** [{tuple(pair): idx for pair, idx in v}]. *)
Definition merges_of_config (v : pyval) : result (list ((Z * Z) * Z)) :=
  match v with
  | VList l => let* es := mapM merge_entry l in Ok (dict_of_list pair_eqb es)
  | _ => raise "TypeError" "merges is a list of [[p0, p1], idx]"
  end.

(** [list(tokenizer.merges.items())]. *)
Definition merges_items (m : list ((Z * Z) * Z)) : pyval :=
  VList (map (fun e => VList [VList [VInt (fst (fst e)); VInt (snd (fst e))];
                              VInt (snd e)]) m).

(** [{v: k for k, v in d.items()}]. *)
Definition invert_dict (d : list (pyval * pyval)) : result (list (pyval * pyval)) :=
  let* vks := mapM (fun kv => if hashable (snd kv) then Ok (snd kv, fst kv)
                             else raise "TypeError" "unhashable type") d in
  Ok (dict_of_list key_eqb vks).

Definition metadata : pyval :=
  VDict [(VStr "implementation", VStr "python"); (VStr "version", VStr "1.0")].

Section Cli.
Context {rt : Runtime} {lib : Library}.

Definition create_tokenizer (tokenizer_type : pyval) : result Tokenizer :=
  if key_eqb tokenizer_type (VStr "basic") then BasicTokenizer
  else if key_eqb tokenizer_type (VStr "regex") then RegexTokenizer
  else if key_eqb tokenizer_type (VStr "gpt4") then GPT4Tokenizer
  else raise "ValueError" ("Unknown tokenizer type: " ++ py_str tokenizer_type)%string.

Definition export_tokenizer_config (tokenizer : Tokenizer) (tokenizer_type : pyval)
  : result pyval :=
  let* st := match special_tokens tokenizer with
             | Some v => py_dict v
             | None => Ok []
             end in
  let config :=
    [ (VStr "type", tokenizer_type);
      (VStr "vocab_size", VInt (Z.of_nat (List.length (vocab tokenizer))));
      (VStr "merges", match merges tokenizer with
                      | Some m => merges_items m
                      | None => VList []
                      end);
      (VStr "special_tokens", VDict st);
      (VStr "pattern", match pattern tokenizer with
                       | Some p => p
                       | None => VStr ""
                       end);
      (VStr "metadata", metadata) ] in
  if key_eqb tokenizer_type (VStr "gpt4") then
    match byte_shuffle tokenizer with
    | Some b =>
      let* bs := py_dict b in
      Ok (VDict (config ++ [(VStr "byte_shuffle", VDict bs)]))
    | None => Ok (VDict config)
    end
  else Ok (VDict config).

Definition load_merges (config : pyval) (tokenizer : Tokenizer) : result Tokenizer :=
  match truthy_item "merges" config with
  | Some v =>
    let* m := merges_of_config v in
    let tokenizer := set_merges m tokenizer in
    let* voc := _build_vocab tokenizer in
    Ok (set_vocab voc tokenizer)
  | None => Ok tokenizer
  end.

Definition load_special_tokens (config : pyval) (tokenizer : Tokenizer)
  : result Tokenizer :=
  match truthy_item "special_tokens" config with
  | Some v =>
    if has_register_special_tokens tokenizer
    then register_special_tokens tokenizer v
    else Ok (set_special_tokens v tokenizer)
  | None => Ok tokenizer
  end.

(** [regex.compile(p)]. *)
Definition re_compile (p : pyval) : result string :=
  match p with
  | VStr s => if regex_ok s then Ok s else raise "error" "bad regular expression"
  | _ => raise "TypeError" "first argument must be string or compiled pattern"
  end.

Definition load_pattern (config : pyval) (tokenizer : Tokenizer) : result Tokenizer :=
  match truthy_item "pattern" config with
  | Some v =>
    let tokenizer := set_pattern v tokenizer in
    match compiled_pattern tokenizer with
    | Some _ => let* c := re_compile v in Ok (set_compiled_pattern c tokenizer)
    | None => Ok tokenizer
    end
  | None => Ok tokenizer
  end.

Definition load_byte_shuffle (tokenizer_type config : pyval) (tokenizer : Tokenizer)
  : result Tokenizer :=
  if key_eqb tokenizer_type (VStr "gpt4") then
    match config with
    | VDict d =>
      match dict_get key_eqb (VStr "byte_shuffle") d with
      | Some v =>
        let tokenizer := set_byte_shuffle v tokenizer in
        let* items := py_items v in
        let* inv := invert_dict items in
        Ok (set_inverse_byte_shuffle inv tokenizer)
      | None => Ok tokenizer
      end
    | _ => Ok tokenizer
    end
  else Ok tokenizer.

Definition load_tokenizer_from_config (config : pyval) : result Tokenizer :=
  let* tokenizer_type := getitem config "type" in
  let* tokenizer := create_tokenizer tokenizer_type in
  let* tokenizer := load_merges config tokenizer in
  let* tokenizer := load_special_tokens config tokenizer in
  let* tokenizer := load_pattern config tokenizer in
  load_byte_shuffle tokenizer_type config tokenizer.

(** ** Command handlers *)

(** The parsed command line ([argparse] namespace). *)
Record Args := mkArgs {
  command : option string;
  a_type : string;
  a_vocab_size : Z;
  a_text : string;
  a_tokens : string;
  a_config : string;
  a_output : string;
  a_vocab : bool
}.

(** [open(p).read() if os.path.isfile(p) else p]. *)
Definition text_or_file (p : string) : M string :=
  fun fs => if isfile p fs then read_file p fs else (Ok p, fs).

(** [json.load(open(p))]. *)
Definition json_load_file (p : string) : M pyval :=
  s <- read_file p ;; lift (json_loads s).

(** [json.dump(v, open(p, 'w'))]. *)
Definition json_dump_file (v : pyval) (p : string) : M unit :=
  write_file p (json_dumps v).

(** The [except Exception as e] clause shared by the handlers. *)
Definition error_result (cmd : string) (e : exn) : pyval :=
  VDict [ (VStr "status", VStr "error");
          (VStr "command", VStr cmd);
          (VStr "error", VStr (exn_msg e));
          (VStr "traceback", VStr (exn_tb e));
          (VStr "implementation", VStr "python") ].

Definition try_except (cmd : string) (body : M pyval) : M pyval :=
  fun fs => match body fs with
            | (Ok r, fs') => (Ok r, fs')
            | (Err e, fs') => (Ok (error_result cmd e), fs')
            end.

Definition train_body (args : Args) : M pyval :=
  text <- text_or_file (a_text args) ;;
  tokenizer <- lift (create_tokenizer (VStr (a_type args))) ;;
  tokenizer <- lift (if String.eqb (a_type args) "gpt4" then Ok tokenizer
                     else train tokenizer text (a_vocab_size args)) ;;
  config <- lift (export_tokenizer_config tokenizer (VStr (a_type args))) ;;
  _ <- json_dump_file config (a_output args) ;;
  ret (VDict [ (VStr "status", VStr "success");
               (VStr "command", VStr "train");
               (VStr "tokenizer_type", VStr (a_type args));
               (VStr "vocab_size", VInt (Z.of_nat (List.length (vocab tokenizer))));
               (VStr "output_file", VStr (a_output args));
               (VStr "implementation", VStr "python") ]).

Definition handle_train_command (args : Args) : M pyval :=
  try_except "train" (train_body args).

Definition encode_body (args : Args) : M pyval :=
  config <- json_load_file (a_config args) ;;
  tokenizer <- lift (load_tokenizer_from_config config) ;;
  text <- text_or_file (a_text args) ;;
  tokens <- lift (encode tokenizer text) ;;
  _ <- json_dump_file (VList (map VInt tokens)) (a_output args) ;;
  ret (VDict [ (VStr "status", VStr "success");
               (VStr "command", VStr "encode");
               (VStr "input_length", VInt (py_len text));
               (VStr "token_count", VInt (Z.of_nat (List.length tokens)));
               (VStr "tokens", VList (map VInt tokens));
               (VStr "output_file", VStr (a_output args));
               (VStr "implementation", VStr "python") ]).

Definition handle_encode_command (args : Args) : M pyval :=
  try_except "encode" (encode_body args).

Definition decode_body (args : Args) : M pyval :=
  config <- json_load_file (a_config args) ;;
  tokenizer <- lift (load_tokenizer_from_config config) ;;
  tokens <- (fun fs => if isfile (a_tokens args) fs
                       then json_load_file (a_tokens args) fs
                       else (json_loads (a_tokens args), fs)) ;;
  text <- lift (decode tokenizer tokens) ;;
  _ <- write_file (a_output args) (Ok text) ;;
  n <- lift (py_len_val tokens) ;;
  ret (VDict [ (VStr "status", VStr "success");
               (VStr "command", VStr "decode");
               (VStr "token_count", VInt n);
               (VStr "output_length", VInt (py_len text));
               (VStr "text", VStr text);
               (VStr "output_file", VStr (a_output args));
               (VStr "implementation", VStr "python") ]).

Definition handle_decode_command (args : Args) : M pyval :=
  try_except "decode" (decode_body args).

(** [s.replace(pat, rep)] for a non-empty [pat]; [skip] counts the
    characters of a match still to be dropped. *)
Fixpoint replace_from (pat rep : string) (skip : nat) (s : string) : string :=
  match s with
  | EmptyString => EmptyString
  | String c r =>
    match skip with
    | S k => replace_from pat rep k r
    | O =>
      if String.prefix pat s
      then (rep ++ replace_from pat rep (String.length pat - 1) r)%string
      else String c (replace_from pat rep O r)
    end
  end.

Definition str_replace (pat rep s : string) : string := replace_from pat rep O s.

(** [{idx: token_bytes.decode('utf-8', errors='replace') ...}]. *)
Definition vocab_data (voc : list (Z * list Z)) : pyval :=
  VDict (map (fun e => (VInt (fst e), VStr (string_of_bytes (utf8_replace (snd e)))))
             voc).

Definition export_body (args : Args) : M pyval :=
  config <- json_load_file (a_config args) ;;
  tokenizer <- lift (load_tokenizer_from_config config) ;;
  _ <- (if a_vocab args
        then json_dump_file (vocab_data (vocab tokenizer))
               (str_replace ".json" "_vocab.json" (a_output args))
        else ret tt) ;;
  tokenizer_type <- lift (getitem config "type") ;;
  enhanced_config <- lift (export_tokenizer_config tokenizer tokenizer_type) ;;
  _ <- json_dump_file enhanced_config (a_output args) ;;
  ret (VDict [ (VStr "status", VStr "success");
               (VStr "command", VStr "export");
               (VStr "output_file", VStr (a_output args));
               (VStr "vocab_size", VInt (Z.of_nat (List.length (vocab tokenizer))));
               (VStr "implementation", VStr "python") ]).

Definition handle_export_command (args : Args) : M pyval :=
  try_except "export" (export_body args).

Definition test_text : string := "Hello, world! This is a test.".

Definition load_body (args : Args) : M pyval :=
  config <- json_load_file (a_config args) ;;
  tokenizer <- lift (load_tokenizer_from_config config) ;;
  tokens <- lift (encode tokenizer test_text) ;;
  decoded_text <- lift (decode tokenizer (VList (map VInt tokens))) ;;
  tokenizer_type <- lift (getitem config "type") ;;
  ret (VDict [ (VStr "status", VStr "success");
               (VStr "command", VStr "load");
               (VStr "config_file", VStr (a_config args));
               (VStr "tokenizer_type", tokenizer_type);
               (VStr "vocab_size", VInt (Z.of_nat (List.length (vocab tokenizer))));
               (VStr "round_trip_test", VBool (String.eqb test_text decoded_text));
               (VStr "test_tokens", VInt (Z.of_nat (List.length tokens)));
               (VStr "implementation", VStr "python") ]).

Definition handle_load_command (args : Args) : M pyval :=
  try_except "load" (load_body args).

(** ** The entry point *)

(** What a run leaves behind: the exit code and the lines printed. *)
Record Outcome := mkOutcome { exit_code : Z; stdout : list string }.

Definition help_text : string :=
  "usage: cli.py [-h] {train,encode,decode,export,load,health} ...".

Definition health_result : pyval :=
  VDict [ (VStr "status", VStr "healthy");
          (VStr "implementation", VStr "python");
          (VStr "available_tokenizers",
           VList [VStr "basic"; VStr "regex"; VStr "gpt4"]) ].

Definition unknown_command_result (c : string) : pyval :=
  VDict [ (VStr "status", VStr "error");
          (VStr "error", VStr ("Unknown command: " ++ c));
          (VStr "implementation", VStr "python") ].

Definition dispatch (c : string) (args : Args) : M pyval :=
  if String.eqb c "health" then ret health_result
  else if String.eqb c "train" then handle_train_command args
  else if String.eqb c "encode" then handle_encode_command args
  else if String.eqb c "decode" then handle_decode_command args
  else if String.eqb c "export" then handle_export_command args
  else if String.eqb c "load" then handle_load_command args
  else ret (unknown_command_result c).

(** [result.get("status") == "error"]. *)
Definition status_is_error (r : pyval) : bool :=
  match r with
  | VDict d =>
    match dict_get key_eqb (VStr "status") d with
    | Some v => key_eqb v (VStr "error")
    | None => false
    end
  | _ => false
  end.

(** The [except Exception] clause of [main]; an exception raised inside
    it ends the interpreter with exit code 1 and nothing printed. *)
Definition main_except (e : exn) : Outcome :=
  match json_dumps (VDict [ (VStr "status", VStr "error");
                            (VStr "error", VStr (exn_msg e));
                            (VStr "traceback", VStr (exn_tb e));
                            (VStr "implementation", VStr "python") ]) with
  | Ok s => mkOutcome 1 [s]
  | Err _ => mkOutcome 1 []
  end.

Definition main (args : Args) (fs : FS) : Outcome * FS :=
  match command args with
  | None => (mkOutcome 0 [help_text], fs)
  | Some c =>
    match dispatch c args fs with
    | (Ok r, fs') =>
      match json_dumps r with
      | Ok s => (mkOutcome (if status_is_error r then 1 else 0) [s], fs')
      | Err e => (main_except e, fs')
      end
    | (Err e, fs') => (main_except e, fs')
    end
  end.
End Cli.

(** * The tokenizer engine

    The minbpe package itself is not part of the wrapper's source; its
    operations are modelled here from the design specification. *)
Module Engine.

(** Modelled from the spec: the base alphabet of ByteVocabulary, ids
    [0,255] mapping to the singleton sequence [id] (section 3). *)
Definition base_vocab : list (Z * list Z) :=
  map (fun n => (Z.of_nat n, [Z.of_nat n])) (seq 0 256).

(** Modelled from the spec: the vocabulary replay behind the tokenizer's
    [_build_vocab] method, which is missing from the sources.
    ByteVocabulary is built by replaying the merge table in rank order
    from the 256 singleton byte sequences; every new id maps to the
    concatenation of the byte sequences of its two parents (sections 3 and
    4.1 step 4; the base entries are the singletons [id] of section 3, the
    permutation being undone by the decoder).  A parent that has no entry
    yet cannot be concatenated and fails the replay. *)
Fixpoint replay (m : list ((Z * Z) * Z)) (voc : list (Z * list Z))
  : result (list (Z * list Z)) :=
  match m with
  | [] => Ok voc
  | ((p0, p1), idx) :: r =>
    match dict_get Z.eqb p0 voc, dict_get Z.eqb p1 voc with
    | Some b0, Some b1 => replay r (dict_set Z.eqb idx (b0 ++ b1) voc)
    | None, _ => raise "KeyError" (str_of_Z p0)
    | _, None => raise "KeyError" (str_of_Z p1)
    end
  end.

(** Modelled from the spec: the tokenizer's [_build_vocab] method, which is
    missing from the sources: the replay of the tokenizer's merge table. *)
Definition build_vocab (t : Tokenizer) : result (list (Z * list Z)) :=
  replay (match merges t with Some m => m | None => [] end) base_vocab.

(** Modelled from the spec: replace every non-overlapping occurrence of the
    adjacent pair, left to right, with the new id (section 4.1 step 3d,
    section 4.2 step 4). *)
Fixpoint merge (ids : list Z) (pair : Z * Z) (idx : Z) : list Z :=
  match ids with
  | a :: r =>
    match r with
    | b :: r' =>
      if (a =? fst pair) && (b =? snd pair)
      then idx :: merge r' pair idx
      else a :: merge r pair idx
    | [] => [a]
    end
  | [] => []
  end.

(** Whether the pair occurs adjacently in the sequence. *)
Fixpoint has_pair (ids : list Z) (pair : Z * Z) : bool :=
  match ids with
  | a :: r =>
    match r with
    | b :: _ => ((a =? fst pair) && (b =? snd pair)) || has_pair r pair
    | [] => false
    end
  | [] => false
  end.

(** Modelled from the spec: the adjacent pair present in the chunk with the
    lowest merge-table rank, i.e. the one learned earliest (section 4.2
    step 4). *)
Definition lowest_rank (m : list ((Z * Z) * Z)) (ids : list Z)
  : option ((Z * Z) * Z) :=
  find (fun e => has_pair ids (fst e)) m.

(** Modelled from the spec: repeat the lowest-rank merge until no pair of
    the chunk has an entry in the merge table (section 4.2 step 4).  Every
    round shortens the chunk, so its length bounds the rounds. *)
Fixpoint apply_merges (fuel : nat) (m : list ((Z * Z) * Z)) (ids : list Z) : list Z :=
  match fuel with
  | O => ids
  | S k =>
    match lowest_rank m ids with
    | Some (pr, idx) => apply_merges k m (merge ids pr idx)
    | None => ids
    end
  end.

(** *** Special tokens *)

(** The registered special tokens of a tokenizer: literal bytes and id. *)
Definition special_entry (kv : pyval * pyval) : option (list Z * Z) :=
  match kv with
  | (VStr s, VInt n) => Some (bytes_of_string s, n)
  | _ => None
  end.

Fixpoint filter_map {A B} (f : A -> option B) (l : list A) : list B :=
  match l with
  | [] => []
  | x :: r => match f x with Some y => y :: filter_map f r | None => filter_map f r end
  end.

Definition specials_of (t : Tokenizer) : list (list Z * Z) :=
  match special_tokens t with
  | Some (VDict d) => filter_map special_entry d
  | _ => []
  end.

Fixpoint is_prefix (p l : list Z) : bool :=
  match p, l with
  | [], _ => true
  | a :: p', b :: l' => (a =? b) && is_prefix p' l'
  | _ :: _, [] => false
  end.

(** Modelled from the spec: longest-match-first over all registered
    special-token strings (section 4.4); the empty string matches nothing. *)
Fixpoint longest_match (sp : list (list Z * Z)) (text : list Z) : option (list Z * Z) :=
  match sp with
  | [] => None
  | (lit, id) :: r =>
    let rest := longest_match r text in
    if match lit with [] => false | _ => is_prefix lit text end then
      match rest with
      | Some (lit', id') =>
        if (List.length lit <? List.length lit')%nat then rest else Some (lit, id)
      | None => Some (lit, id)
      end
    else rest
  end.

Inductive segment :=
| Special (id : Z) (lit : list Z)
| Plain (span : list Z).

Definition cons_plain (b : Z) (segs : list segment) : list segment :=
  match segs with
  | Plain l :: r => Plain (b :: l) :: r
  | _ => Plain [b] :: segs
  end.

(** Modelled from the spec: the ordered, non-overlapping partition of the
    text into special-token occurrences and the spans between them
    (section 4.4, section 4.2 step 1); [skip] counts the bytes of a match
    still to be passed over. *)
Fixpoint split_from (sp : list (list Z * Z)) (skip : nat) (text : list Z)
  : list segment :=
  match text with
  | [] => []
  | b :: r =>
    match skip with
    | S k => split_from sp k r
    | O =>
      match longest_match sp text with
      | Some (lit, id) => Special id lit :: split_from sp (List.length lit - 1) r
      | None => cons_plain b (split_from sp O r)
      end
    end
  end.

Definition split_special (sp : list (list Z * Z)) (text : list Z) : list segment :=
  split_from sp O text.

(** *** The byte permutation *)

(** Modelled from the spec: the byte permutation, applied to every raw byte
    before any merge lookup when the tokenizer carries one (sections 3 and
    4.2 step 3).  The table is a dictionary looked up at the byte. *)
Definition permute (t : Tokenizer) (b : Z) : result Z :=
  match byte_shuffle t with
  | None => Ok b
  | Some (VDict d) =>
    match dict_get key_eqb (VInt b) d with
    | Some v => as_int v
    | None => raise "KeyError" (str_of_Z b)
    end
  | Some _ => raise "TypeError" "byte_shuffle is not a mapping"
  end.

(** Modelled from the spec: the inverse permutation, applied to every byte
    of a vocabulary entry at decode time (section 4.3). *)
Definition unpermute (t : Tokenizer) (b : Z) : result Z :=
  match byte_shuffle t with
  | None => Ok b
  | Some _ =>
    match inverse_byte_shuffle t with
    | Some d =>
      match dict_get key_eqb (VInt b) d with
      | Some v => as_int v
      | None => raise "KeyError" (str_of_Z b)
      end
    | None => raise "AttributeError" "inverse_byte_shuffle"
    end
  end.

Section WithRuntime.
Context {rt : Runtime}.

(** *** Encoder and decoder *)

(** Modelled from the spec: the Segmenter, the matches of the compiled
    pattern, or the identity splitter for a tokenizer without one
    (section 2, section 4.2 step 2). *)
Definition chunks_of (t : Tokenizer) (span : list Z) : list (list Z) :=
  match compiled_pattern t with
  | Some p => regex_findall p span
  | None => [span]
  end.

Definition merges_of (t : Tokenizer) : list ((Z * Z) * Z) :=
  match merges t with Some m => m | None => [] end.

Definition encode_chunk (t : Tokenizer) (chunk : list Z) : result (list Z) :=
  let* ids := mapM (permute t) chunk in
  Ok (apply_merges (List.length ids) (merges_of t) ids).

Definition encode_segment (t : Tokenizer) (s : segment) : result (list Z) :=
  match s with
  | Special id _ => Ok [id]
  | Plain span =>
    let* parts := mapM (encode_chunk t) (chunks_of t span) in
    Ok (List.concat parts)
  end.

(** Modelled from the spec: the tokenizer's [encode] method, which is
    missing from the sources; the Encoder of section 4.2. *)
Definition encode (t : Tokenizer) (text : string) : result (list Z) :=
  let* parts := mapM (encode_segment t)
                     (split_special (specials_of t) (bytes_of_string text)) in
  Ok (List.concat parts).

(** The literal of a special-token id. *)
Definition special_literal (t : Tokenizer) (id : Z) : option (list Z) :=
  match find (fun e => snd e =? id) (specials_of t) with
  | Some (lit, _) => Some lit
  | None => None
  end.

(** Modelled from the spec: one id of the Decoder's input; an id that is
    neither a special token nor in ByteVocabulary is a MalformedInput
    failure (sections 4.3 and 7). *)
Definition decode_id (t : Tokenizer) (id : Z) : result (list Z) :=
  match special_literal t id with
  | Some lit => Ok lit
  | None =>
    match dict_get Z.eqb id (vocab t) with
    | Some bs => mapM (unpermute t) bs
    | None => raise "MalformedInput" (str_of_Z id)
    end
  end.

(** Modelled from the spec: the tokenizer's [decode] method, which is
    missing from the sources; the Decoder of section 4.3: the accumulated
    buffer is decoded as UTF-8 with the replacement character. *)
Definition decode (t : Tokenizer) (ids : pyval) : result string :=
  match ids with
  | VList l =>
    let* ns := mapM as_int l in
    let* parts := mapM (decode_id t) ns in
    Ok (string_of_bytes (utf8_replace (List.concat parts)))
  | _ => raise "TypeError" "ids is a list of integers"
  end.

(** *** Trainer *)

Definition incr (pr : Z * Z) (stats : list ((Z * Z) * Z)) : list ((Z * Z) * Z) :=
  match dict_get pair_eqb pr stats with
  | Some n => dict_set pair_eqb pr (n + 1) stats
  | None => dict_set pair_eqb pr 1 stats
  end.

(** Modelled from the spec: count every adjacent pair of a chunk
    (section 4.1 step 3a). *)
Fixpoint count_pairs (ids : list Z) (stats : list ((Z * Z) * Z)) : list ((Z * Z) * Z) :=
  match ids with
  | a :: r =>
    match r with
    | b :: _ => count_pairs r (incr (a, b) stats)
    | [] => stats
    end
  | [] => stats
  end.

Definition pair_ltb (x y : Z * Z) : bool :=
  (fst x <? fst y) || ((fst x =? fst y) && (snd x <? snd y)).

(** Modelled from the spec: the highest count wins, ties go to the
    numerically smallest pair (section 4.1 step 3b). *)
Definition better (x y : (Z * Z) * Z) : bool :=
  (snd y <? snd x) || ((snd x =? snd y) && pair_ltb (fst x) (fst y)).

Definition best_pair (stats : list ((Z * Z) * Z)) : option ((Z * Z) * Z) :=
  fold_left (fun acc e => match acc with
                          | None => Some e
                          | Some a => if better e a then Some e else Some a
                          end) stats None.

(** Modelled from the spec: the training loop (section 4.1 step 3): pool the
    pair counts of all chunks, record the best pair under the next id, and
    rewrite every chunk, until the target size is reached or no adjacent
    pair remains. *)
Fixpoint train_loop (n : nat) (next : Z) (chunks : list (list Z))
  (m : list ((Z * Z) * Z)) : list ((Z * Z) * Z) :=
  match n with
  | O => m
  | S k =>
    match best_pair (fold_left (fun st c => count_pairs c st) chunks []) with
    | Some (pr, _) =>
      train_loop k (next + 1) (map (fun c => merge c pr next) chunks) (m ++ [(pr, next)])
    | None => m
    end
  end.

(** Modelled from the spec: the tokenizer's [train] method, which is
    missing from the sources; the Trainer of section 4.1, which rejects
    the pretrained variant and a target size below the base alphabet. *)
Definition train (t : Tokenizer) (text : string) (vocab_size : Z) : result Tokenizer :=
  match klass_of t with
  | KGPT4 => raise "InvalidOperation" "the pretrained variant cannot be trained"
  | _ =>
    if vocab_size <? 256 then raise "InvalidConfiguration" "vocab_size must be at least 256"
    else
      let* chunks := mapM (fun c => mapM (permute t) c)
                          (chunks_of t (bytes_of_string text)) in
      let m := train_loop (Z.to_nat (vocab_size - 256)) 256 chunks [] in
      let* voc := replay m base_vocab in
      Ok (set_vocab voc (set_merges m t))
  end.

(** *** Special-token registration *)

Definition registered (t : Tokenizer) : list (pyval * pyval) :=
  match special_tokens t with
  | Some (VDict d) => d
  | _ => []
  end.

(** Modelled from the spec: the tokenizer's [register_special_tokens]
    method, which is missing from the sources.  Registration fails with
    DuplicateSpecialToken if a string or id is already registered, and
    with IdCollision if a requested id overlaps the merge-table id range
    (section 4.4). *)
Definition register_one (voc : list (Z * list Z)) (acc : result (list (pyval * pyval)))
  (kv : pyval * pyval) : result (list (pyval * pyval)) :=
  let* d := acc in
  match kv with
  | (VStr s, VInt id) =>
    if dict_mem key_eqb (VStr s) d || existsb (fun e => key_eqb (snd e) (VInt id)) d
    then raise "DuplicateSpecialToken" s
    else if dict_mem Z.eqb id voc then raise "IdCollision" (str_of_Z id)
    else Ok (d ++ [(VStr s, VInt id)])
  | _ => raise "TypeError" "special tokens map strings to integer ids"
  end.

Definition register_special_tokens (t : Tokenizer) (v : pyval) : result Tokenizer :=
  let* items := py_items v in
  let* d := fold_left (register_one (vocab t)) items (Ok (registered t)) in
  Ok (set_special_tokens (VDict d) t).

(** *** The three variants *)

(** The constants of the pretrained variant and the default split
    pattern. *)
Class Pretrained := {
  GPT4_SPLIT_PATTERN : string;
  GPT4_SPECIAL_TOKENS : list (pyval * pyval);
  gpt4_merges : list ((Z * Z) * Z);
  gpt4_byte_shuffle : list (pyval * pyval)
}.

Context {pre : Pretrained}.

(** Modelled from the spec: the constructor [BasicTokenizer()], which is
    missing from the sources.  The Basic variant carries neither a
    segmenter pattern nor a byte permutation (sections 3 and 9). *)
Definition BasicTokenizer : result Tokenizer :=
  Ok (mkTokenizer KBasic base_vocab (Some []) (Some (VDict [])) None None None None).

(** Modelled from the spec: the constructor [RegexTokenizer()], which is
    missing from the sources.  The Regex variant carries a segmenter
    pattern (sections 3 and 9). *)
Definition RegexTokenizer : result Tokenizer :=
  Ok (mkTokenizer KRegex base_vocab (Some []) (Some (VDict []))
        (Some (VStr GPT4_SPLIT_PATTERN)) (Some GPT4_SPLIT_PATTERN) None None).

(** Modelled from the spec: the constructor [GPT4Tokenizer()], which is
    missing from the sources.  The Pretrained variant's merge table, byte
    vocabulary and byte permutation are fixed constants (section 4.1). *)
Definition GPT4Tokenizer : result Tokenizer :=
  let* voc := replay gpt4_merges base_vocab in
  let* inv := invert_dict gpt4_byte_shuffle in
  Ok (mkTokenizer KGPT4 voc (Some gpt4_merges) (Some (VDict GPT4_SPECIAL_TOKENS))
        (Some (VStr GPT4_SPLIT_PATTERN)) (Some GPT4_SPLIT_PATTERN)
        (Some (VDict gpt4_byte_shuffle)) (Some inv)).

(** Which tokenizers have a [register_special_tokens] method: the wrapper
    provides for one that has none, taken to be the Basic variant. *)
Definition has_register_special_tokens (t : Tokenizer) : bool :=
  match klass_of t with
  | KBasic => false
  | _ => true
  end.

#[export] Instance minbpe : Library :=
  mkLibrary BasicTokenizer RegexTokenizer GPT4Tokenizer has_register_special_tokens
    register_special_tokens build_vocab train encode decode.

End WithRuntime.
End Engine.

(** * Observations on configurations and results *)

(** The field names of a configuration or result record, in order. *)
Definition keys_of (c : pyval) : list string :=
  match c with
  | VDict d => map (fun kv => py_str (fst kv)) d
  | _ => []
  end.

Definition field (k : string) (c : pyval) : option pyval :=
  match c with
  | VDict d => dict_get key_eqb (VStr k) d
  | _ => None
  end.

Definition is_some {A} (o : option A) : bool :=
  match o with Some _ => true | None => false end.

(** The fields the persisted configuration format lists: [type],
    [vocab_size], [merges], [special_tokens], [pattern], and [byte_shuffle]
    for the pretrained variant only. *)
Definition format_fields (tokenizer : Tokenizer) (tokenizer_type : pyval) : list string :=
  ["type"; "vocab_size"; "merges"; "special_tokens"; "pattern"]
  ++ (if key_eqb tokenizer_type (VStr "gpt4") && is_some (byte_shuffle tokenizer)
      then ["byte_shuffle"] else []).

(** The fields export writes. *)
Definition exported_fields (tokenizer : Tokenizer) (tokenizer_type : pyval) : list string :=
  ["type"; "vocab_size"; "merges"; "special_tokens"; "pattern"; "metadata"]
  ++ (if key_eqb tokenizer_type (VStr "gpt4") && is_some (byte_shuffle tokenizer)
      then ["byte_shuffle"] else []).

(** The library's registration leaves the merge table and the pattern of
    the tokenizer alone. *)
Definition register_frame (lib : Library) : Prop :=
  forall t v t',
    register_special_tokens t v = Ok t' ->
    merges t' = merges t /\ pattern t' = pattern t
    /\ compiled_pattern t' = compiled_pattern t.

(** The [try] block of the handler of a command. *)
Definition handler_body {rt : Runtime} {lib : Library} (c : string) (args : Args)
  : M pyval :=
  if String.eqb c "train" then train_body args
  else if String.eqb c "encode" then encode_body args
  else if String.eqb c "decode" then decode_body args
  else if String.eqb c "export" then export_body args
  else load_body args.

(** A tagged result: a [status] of success or error, and the
    [implementation] key set to python. *)
Definition tagged (r : pyval) : Prop :=
  (field "status" r = Some (VStr "success") \/ field "status" r = Some (VStr "error"))
  /\ field "implementation" r = Some (VStr "python").

(** The merge-table invariant on result ids: strictly increasing and
    contiguous from 256, in rank order. *)
Fixpoint ids_from (next : Z) (m : list ((Z * Z) * Z)) : bool :=
  match m with
  | [] => true
  | (_, idx) :: r => (idx =? next) && ids_from (next + 1) r
  end.

Definition ids_contiguous (m : list ((Z * Z) * Z)) : bool := ids_from 256 m.

(** A configuration of the given type that carries only a merge list. *)
Definition merges_config (type : string) (entries : list ((Z * Z) * Z)) : pyval :=
  VDict [(VStr "type", VStr type); (VStr "merges", merges_items entries)].

(** A byte table with integer keys and values, as a Python dictionary. *)
Definition int_table (l : list (Z * Z)) : list (pyval * pyval) :=
  map (fun e => (VInt (fst e), VInt (snd e))) l.

Definition swap (e : Z * Z) : Z * Z := (snd e, fst e).

Fixpoint nodupb (l : list Z) : bool :=
  match l with
  | [] => true
  | x :: r => negb (existsb (Z.eqb x) r) && nodupb r
  end.

Definition bytes_all : list Z := map Z.of_nat (seq 0 256).

(** The table is a bijection on [0,255]: every key and value is a byte,
    no key and no value occurs twice, every byte is a key and every byte
    is a value. *)
Definition byte_bijection (l : list (Z * Z)) : bool :=
  forallb (fun e => in_range 0 255 (fst e) && in_range 0 255 (snd e)) l
  && nodupb (map fst l) && nodupb (map snd l)
  && forallb (fun b => existsb (Z.eqb b) (map fst l)) bytes_all
  && forallb (fun b => existsb (Z.eqb b) (map snd l)) bytes_all.

Definition is_str (v : pyval) : Prop := exists s, v = VStr s.

(** A byte table as it comes back from a JSON file: the keys are the
    decimal strings of the bytes. *)
Definition json_table (l : list (Z * Z)) : list (pyval * pyval) :=
  dict_of_list key_eqb (map (fun e => (VStr (str_of_Z (fst e)), VInt (snd e))) l).

(** What [json.load] returns for the file that [json.dump] wrote for the
    exported configuration of a tokenizer. *)
Definition persisted_config (tokenizer : Tokenizer) (tokenizer_type : pyval)
  : result pyval :=
  let* config := export_tokenizer_config tokenizer tokenizer_type in
  jsonify config.

(** Every id a tokenizer knows: the vocabulary's and the special tokens'. *)
Definition all_ids (t : Tokenizer) : list Z :=
  map fst (vocab t) ++ map snd (Engine.specials_of t).

(** The current maximum valid id (-1 when there is none). *)
Definition max_id (t : Tokenizer) : Z := fold_right Z.max (-1) (all_ids t).

(** Token ids are non-negative. *)
Definition ids_nonneg (t : Tokenizer) : Prop := Forall (fun x => 0 <= x) (all_ids t).

(** Every vocabulary entry can be inverse-permuted. *)
Definition inverse_total (t : Tokenizer) : Prop :=
  forall id bs, dict_get Z.eqb id (vocab t) = Some bs ->
                is_ok (mapM (Engine.unpermute t) bs) = true.

(** The bytes a sequence of vocabulary ids stands for. *)
Fixpoint expand (voc : list (Z * list Z)) (ids : list Z) : option (list Z) :=
  match ids with
  | [] => Some []
  | a :: r =>
    match dict_get Z.eqb a voc, expand voc r with
    | Some b, Some bs => Some (b ++ bs)
    | _, _ => None
    end
  end.

(** A merge rule agrees with the vocabulary: the new id maps to the
    concatenation of the byte sequences of its two parents. *)
Definition entry_ok (voc : list (Z * list Z)) (e : (Z * Z) * Z) : Prop :=
  exists b0 b1,
    dict_get Z.eqb (fst (fst e)) voc = Some b0
    /\ dict_get Z.eqb (snd (fst e)) voc = Some b1
    /\ dict_get Z.eqb (snd e) voc = Some (b0 ++ b1).

Definition seg_bytes (s : Engine.segment) : list Z :=
  match s with
  | Engine.Special _ lit => lit
  | Engine.Plain span => span
  end.

(** The byte permutation is a bijection on [0,255] that the inverse table
    undoes (the identity when the tokenizer carries none). *)
Definition perm_ok (t : Tokenizer) : Prop :=
  forall b, 0 <= b <= 255 ->
            exists p, 0 <= p <= 255
                      /\ Engine.permute t b = Ok p /\ Engine.unpermute t p = Ok b.

(** The merge table has contiguous result ids from 256 and the vocabulary
    is its replay. *)
Definition merges_ok (t : Tokenizer) : Prop :=
  ids_contiguous (Engine.merges_of t) = true
  /\ Engine.replay (Engine.merges_of t) Engine.base_vocab = Ok (vocab t).

(** Special-token ids are unique and outside the vocabulary's ids. *)
Definition specials_ok (t : Tokenizer) : Prop :=
  NoDup (map snd (Engine.specials_of t))
  /\ forall id, In id (map snd (Engine.specials_of t)) -> ~ In id (map fst (vocab t)).

(** The segmenter partitions every span into its chunks. *)
Definition segmenter_ok {rt : Runtime} (t : Tokenizer) : Prop :=
  forall span, List.concat (Engine.chunks_of t span) = span.

(** A tokenizer state as the data model describes it. *)
Definition valid_state {rt : Runtime} (t : Tokenizer) : Prop :=
  merges_ok t /\ specials_ok t /\ perm_ok t /\ segmenter_ok t.

(** A special segment carries a registered token. *)
Definition seg_known (sp : list (list Z * Z)) (s : Engine.segment) : Prop :=
  match s with
  | Engine.Special id lit => In (lit, id) sp
  | Engine.Plain _ => True
  end.

(** The ids decode, one by one, to parts whose concatenation is [bytes]. *)
Definition decodes (t : Tokenizer) (ids bytes : list Z) : Prop :=
  exists parts, mapM (Engine.decode_id t) ids = Ok parts /\ List.concat parts = bytes.

(** A byte and its image under the tokenizer's permutation. *)
Definition permuted (t : Tokenizer) (b p : Z) : Prop :=
  Engine.permute t b = Ok p /\ Engine.unpermute t p = Ok b.

Definition is_byte (b : Z) : Prop := 0 <= b <= 255.

(** The count a statistics table holds for a pair (0 when it has none). *)
Definition cnt (stats : list ((Z * Z) * Z)) (k : Z * Z) : Z :=
  match dict_get pair_eqb k stats with
  | Some n => n
  | None => 0
  end.

(** The number of adjacent occurrences of a pair in a chunk. *)
Fixpoint occ (k : Z * Z) (ids : list Z) : Z :=
  match ids with
  | a :: r =>
    match r with
    | b :: _ => (if pair_eqb k (a, b) then 1 else 0) + occ k r
    | [] => 0
    end
  | [] => 0
  end.

Definition occ_all (k : Z * Z) (chunks : list (list Z)) : Z :=
  fold_right (fun c acc => occ k c + acc) 0 chunks.

(** A well-formed statistics table: every pair once, with a positive
    count. *)
Definition stats_ok (stats : list ((Z * Z) * Z)) : Prop :=
  NoDup (map fst stats) /\ Forall (fun e => 0 < snd e) stats.

(** The two file systems agree outside the paths [ps]: the same refused
    paths, and the same content at every other path. *)
Definition unchanged_except (ps : list string) (fs fs' : FS) : Prop :=
  denied fs' = denied fs
  /\ forall p, ~ In p ps ->
               dict_get String.eqb p (files fs') = dict_get String.eqb p (files fs).

(** A computation that writes at most the paths [ps]. *)
Definition writes_only {A} (ps : list string) (m : M A) : Prop :=
  forall fs, unchanged_except ps fs (snd (m fs)).

(** A computation that leaves the file system as it is. *)
Definition writes_nothing {A} (m : M A) : Prop :=
  forall fs, snd (m fs) = fs.

(** Whether [pat] occurs in [s]. *)
Fixpoint occurs (pat s : string) : bool :=
  String.prefix pat s
  || match s with
     | EmptyString => false
     | String _ r => occurs pat r
     end.

(** The command line with another [--text] argument. *)
Definition with_text (text : string) (args : Args) : Args :=
  mkArgs (command args) (a_type args) (a_vocab_size args) text (a_tokens args)
    (a_config args) (a_output args) (a_vocab args).

(** * Sample runtime, constants and inputs *)
Module Sample.

(** A small pretrained table: one merge and a permutation of the 256 byte
    values (each byte moved up by one, 255 wrapping to 0). *)
Definition shuffle : list (Z * Z) :=
  map (fun n => (Z.of_nat n, (Z.of_nat n + 1) mod 256)) (seq 0 256).

Definition shuffle_table : list (pyval * pyval) := int_table shuffle.

#[export] Instance pretrained : Engine.Pretrained := {|
  Engine.GPT4_SPLIT_PATTERN := "\S+|\s+";
  Engine.GPT4_SPECIAL_TOKENS := [];
  Engine.gpt4_merges := [((98, 99), 256)];
  Engine.gpt4_byte_shuffle := shuffle_table
|}.

(** The documents the sample [json.loads] knows. *)
Definition documents : list (string * pyval) :=
  [ ("[104, 105]", VList [VInt 104; VInt 105]);
    ("[104, 256]", VList [VInt 104; VInt 256]);
    ("{'type': 'basic'}", VDict [(VStr "type", VStr "basic")]) ].

(** A runtime for the examples: values are rendered by [py_repr], the
    known documents are parsed back, every pattern compiles and matches
    the whole text as one chunk. *)
#[export] Instance runtime : Runtime := {|
  json_dumps := fun v => Ok (py_repr v);
  json_loads := fun s => match dict_get String.eqb s documents with
                         | Some v => Ok v
                         | None => raise "JSONDecodeError" s
                         end;
  regex_ok := fun _ => true;
  regex_findall := fun _ s => [s]
|}.

Definition library : Library := Engine.minbpe.

Definition basic : Tokenizer :=
  mkTokenizer KBasic Engine.base_vocab (Some []) (Some (VDict [])) None None None None.

(** A file system holding one configuration, and command lines. *)
Definition fs : FS := mkFS [("cfg.json", "{'type': 'basic'}")] [].

Definition decode_args (tokens : string) : Args :=
  mkArgs (Some "decode") "" 0 "" tokens "cfg.json" "out.txt" false.

Definition train_args (type text : string) (vocab_size : Z) : Args :=
  mkArgs (Some "train") type vocab_size text "" "" "out.json" false.


(** A second file system, with other files around and an old output. *)
Definition fs2 : FS :=
  mkFS [("out.json", "stale"); ("notes.txt", "aaabdaaabac")] ["locked"].

(** The pretrained tokenizer of the sample constants with one special
    token registered, and a text with a special token and a two-byte
    character. *)
Definition gpt4 : Tokenizer :=
  mkTokenizer KGPT4 (Engine.base_vocab ++ [(256, [98; 99])]) (Some [((98, 99), 256)])
    (Some (VDict [(VStr "<|end|>", VInt 999)]))
    (Some (VStr "\S+|\s+")) (Some "\S+|\s+")
    (Some (VDict shuffle_table)) (Some (int_table (map swap shuffle))).

Definition text : string := "abc<|end|>ab " ++ string_of_bytes [195; 169].

(** Command lines for encode and export. *)
Definition encode_args (text : string) : Args :=
  mkArgs (Some "encode") "" 0 text "" "cfg.json" "tokens.json" false.

Definition export_args (output : string) (vocab : bool) : Args :=
  mkArgs (Some "export") "" 0 "" "" "cfg.json" output vocab.

End Sample.

(** * Properties *)

Lemma bind_ok {A B} (m : result A) (k : A -> result B) (b : B) :
  bind m k = Ok b -> exists a, m = Ok a /\ k a = Ok b.
Proof.
  destruct m as [a|e]; simpl; intros H; [eauto | discriminate].
Qed.

(** ** Exported fields *)

(** C8, as stated, fails: the record of a basic tokenizer has a sixth
    field, [metadata], which the format's field list does not contain. *)
Lemma export_fields_counterexample :
  exists c, export_tokenizer_config Sample.basic (VStr "basic") = Ok c
            /\ keys_of c <> format_fields Sample.basic (VStr "basic")
            /\ In "metadata" (keys_of c).
Proof.
  eexists. split; [reflexivity|]. split.
  - cbv. discriminate.
  - cbv. tauto.
Qed.

(** C8 (amended): whenever export returns a record, its fields are exactly
    [type], [vocab_size], [merges], [special_tokens], [pattern] and
    [metadata], followed by [byte_shuffle] if and only if the type is gpt4
    and the tokenizer has a [byte_shuffle] attribute; [merges] is the empty
    list, [special_tokens] the empty mapping and [pattern] the empty string
    when the tokenizer lacks the attribute. *)
Theorem export_fields (tokenizer : Tokenizer) (tokenizer_type c : pyval) :
  export_tokenizer_config tokenizer tokenizer_type = Ok c ->
  keys_of c = exported_fields tokenizer tokenizer_type
  /\ (In "byte_shuffle" (keys_of c) <->
      key_eqb tokenizer_type (VStr "gpt4") = true /\ byte_shuffle tokenizer <> None)
  /\ field "type" c = Some tokenizer_type
  /\ field "vocab_size" c = Some (VInt (Z.of_nat (List.length (vocab tokenizer))))
  /\ (merges tokenizer = None -> field "merges" c = Some (VList []))
  /\ (special_tokens tokenizer = None -> field "special_tokens" c = Some (VDict []))
  /\ (pattern tokenizer = None -> field "pattern" c = Some (VStr "")).
Proof.
  unfold export_tokenizer_config, exported_fields. intros H.
  apply bind_ok in H. destruct H as [st [Hst H]].
  assert (Hdef : forall st', Ok st' = Ok st ->
            (special_tokens tokenizer = None -> st = [])).
  { intros st' _ Hs. rewrite Hs in Hst. now injection Hst as <-. }
  specialize (Hdef st eq_refl).
  destruct (key_eqb tokenizer_type (VStr "gpt4")) eqn:Hty;
    [destruct (byte_shuffle tokenizer) as [b|] eqn:Hb|].
  - apply bind_ok in H. destruct H as [bs [Hbs H]]. injection H as <-.
    cbn. split; [reflexivity|]. split.
    { split; [intros _; split; [reflexivity|discriminate]|intros _; tauto]. }
    repeat split.
    + intros Hm. now rewrite Hm.
    + intros Hs. now rewrite (Hdef Hs).
    + intros Hp. now rewrite Hp.
  - injection H as <-. cbn. split; [reflexivity|]. split.
    { split; [intros Hin; repeat (destruct Hin as [Hin|Hin]; try discriminate Hin);
              destruct Hin | intros [_ Hn]; now destruct Hn]. }
    repeat split.
    + intros Hm. now rewrite Hm.
    + intros Hs. now rewrite (Hdef Hs).
    + intros Hp. now rewrite Hp.
  - injection H as <-. cbn. split; [reflexivity|]. split.
    { split; [intros Hin; repeat (destruct Hin as [Hin|Hin]; try discriminate Hin);
              destruct Hin | intros [Hn _]; discriminate Hn]. }
    repeat split.
    + intros Hm. now rewrite Hm.
    + intros Hs. now rewrite (Hdef Hs).
    + intros Hp. now rewrite Hp.
Qed.

Lemma export_fields_witness :
  exists c, export_tokenizer_config Sample.basic (VStr "basic") = Ok c
            /\ keys_of c = exported_fields Sample.basic (VStr "basic").
Proof.
  eexists. split; [reflexivity|].
  exact (proj1 (export_fields Sample.basic (VStr "basic") _ eq_refl)).
Defined.

(** ** Import keeps constructor defaults for empty fields *)

Lemma mapM_ok_cons {A B} (f : A -> result B) (x : A) (l : list A) (ys : list B) :
  mapM f (x :: l) = Ok ys -> exists y ys', ys = y :: ys'.
Proof.
  simpl. intros H. apply bind_ok in H. destruct H as [y [_ H]].
  apply bind_ok in H. destruct H as [ys' [_ H]]. injection H as <-. eauto.
Qed.

Lemma dict_set_nonempty {K V} (eqb : K -> K -> bool) k (v : V) d :
  dict_set eqb k v d <> [].
Proof.
  destruct d as [|[k' v'] r]; simpl; [discriminate|].
  destruct (eqb k k'); discriminate.
Qed.

Lemma dict_of_list_nonempty {K V} (eqb : K -> K -> bool) (l : list (K * V)) :
  l <> [] -> dict_of_list eqb l <> [].
Proof.
  unfold dict_of_list.
  assert (G : forall (l d : list (K * V)), (l <> [] \/ d <> []) ->
              fold_left (fun d kv => dict_set eqb (fst kv) (snd kv) d) l d <> []).
  { clear l. induction l as [|kv l IH]; simpl; intros d [H|H]; try tauto.
    - apply IH. right. apply dict_set_nonempty.
    - apply IH. right. apply dict_set_nonempty. }
  intros H. apply G. now left.
Qed.

Lemma truthy_item_empty_list k c :
  field k c = Some (VList []) -> truthy_item k c = None.
Proof.
  unfold field, truthy_item. destruct c; try discriminate.
  intros ->. reflexivity.
Qed.

Lemma truthy_item_empty_dict k c :
  field k c = Some (VDict []) -> truthy_item k c = None.
Proof.
  unfold field, truthy_item. destruct c; try discriminate.
  intros ->. reflexivity.
Qed.

Lemma truthy_item_empty_str k c :
  field k c = Some (VStr "") -> truthy_item k c = None.
Proof.
  unfold field, truthy_item. destruct c; try discriminate.
  intros ->. reflexivity.
Qed.

Lemma truthy_item_truthy k c v : truthy_item k c = Some v -> truthy v = true.
Proof.
  unfold truthy_item. destruct c; try discriminate.
  destruct (dict_get key_eqb (VStr k) d) as [w|]; try discriminate.
  destruct (truthy w) eqn:E; try discriminate. now intros [= <-].
Qed.

Lemma merges_of_config_nonempty v m :
  truthy v = true -> merges_of_config v = Ok m -> m <> [].
Proof.
  destruct v; try discriminate. simpl. intros Ht H.
  apply bind_ok in H. destruct H as [es [Hes H]]. injection H as <-.
  destruct l as [|x l]; [discriminate|].
  apply mapM_ok_cons in Hes. destruct Hes as [y [ys ->]].
  apply dict_of_list_nonempty. discriminate.
Qed.

Section ImportSteps.
Context {rt : Runtime} {lib : Library}.

Lemma load_merges_spec config t t' :
  load_merges config t = Ok t' ->
  special_tokens t' = special_tokens t /\ pattern t' = pattern t
  /\ compiled_pattern t' = compiled_pattern t
  /\ match truthy_item "merges" config with
     | None => t' = t
     | Some _ => exists m, merges t' = Some m /\ m <> []
     end.
Proof.
  unfold load_merges. destruct (truthy_item "merges" config) as [v|] eqn:E.
  - intros H. apply bind_ok in H. destruct H as [m [Hm H]].
    apply bind_ok in H. destruct H as [voc [_ H]]. injection H as <-.
    cbn. repeat split. exists m. split; [reflexivity|].
    eapply merges_of_config_nonempty; eauto using truthy_item_truthy.
  - intros [= <-]. auto.
Qed.

Lemma load_special_tokens_spec config t t' :
  register_frame lib ->
  load_special_tokens config t = Ok t' ->
  merges t' = merges t /\ pattern t' = pattern t
  /\ compiled_pattern t' = compiled_pattern t
  /\ (truthy_item "special_tokens" config = None -> t' = t).
Proof.
  intros F. unfold load_special_tokens.
  destruct (truthy_item "special_tokens" config) as [v|].
  - destruct (has_register_special_tokens t).
    + intros H. destruct (F _ _ _ H) as (? & ? & ?). repeat split; auto; discriminate.
    + intros [= <-]. cbn. repeat split; discriminate.
  - intros [= <-]. auto.
Qed.

Lemma load_pattern_spec config t t' :
  load_pattern config t = Ok t' ->
  merges t' = merges t /\ special_tokens t' = special_tokens t
  /\ match truthy_item "pattern" config with
     | None => t' = t
     | Some v => pattern t' = Some v
     end.
Proof.
  unfold load_pattern. destruct (truthy_item "pattern" config) as [v|].
  - cbn. destruct (compiled_pattern t).
    + intros H. apply bind_ok in H. destruct H as [c [_ H]]. injection H as <-.
      cbn. auto.
    + intros [= <-]. cbn. auto.
  - intros [= <-]. auto.
Qed.

Lemma load_byte_shuffle_spec ty config t t' :
  load_byte_shuffle ty config t = Ok t' ->
  merges t' = merges t /\ special_tokens t' = special_tokens t
  /\ pattern t' = pattern t /\ compiled_pattern t' = compiled_pattern t
  /\ vocab t' = vocab t.
Proof.
  unfold load_byte_shuffle. destruct (key_eqb ty (VStr "gpt4")).
  - destruct config; try (intros [= <-]; now auto).
    destruct (dict_get key_eqb (VStr "byte_shuffle") d) as [v|].
    + intros H. apply bind_ok in H. destruct H as [items [_ H]].
      apply bind_ok in H. destruct H as [inv [_ H]]. injection H as <-.
      cbn. auto.
    + intros [= <-]. auto.
  - intros [= <-]. auto.
Qed.

End ImportSteps.

Lemma engine_register_frame {rt : Runtime} {pre : Engine.Pretrained} :
  register_frame Engine.minbpe.
Proof.
  intros t v t' H. cbn in H. unfold Engine.register_special_tokens in H.
  apply bind_ok in H. destruct H as [items [_ H]].
  apply bind_ok in H. destruct H as [d [_ H]]. injection H as <-.
  cbn. auto.
Qed.

(** C9: when the configuration's [merges] is the empty list, its
    [special_tokens] the empty mapping or its [pattern] the empty string,
    the tokenizer that import returns has that attribute as the constructor
    left it; an empty merge table or an empty pattern in the result can
    only be the constructor's own. *)
Theorem import_keeps_defaults {rt : Runtime} {lib : Library}
  (config ty : pyval) (tk0 tk : Tokenizer) :
  register_frame lib ->
  getitem config "type" = Ok ty ->
  create_tokenizer ty = Ok tk0 ->
  load_tokenizer_from_config config = Ok tk ->
  (field "merges" config = Some (VList []) -> merges tk = merges tk0)
  /\ (field "special_tokens" config = Some (VDict []) ->
      special_tokens tk = special_tokens tk0)
  /\ (field "pattern" config = Some (VStr "") ->
      pattern tk = pattern tk0 /\ compiled_pattern tk = compiled_pattern tk0)
  /\ (merges tk = Some [] -> merges tk0 = Some [])
  /\ (pattern tk = Some (VStr "") -> pattern tk0 = Some (VStr "")).
Proof.
  intros F Hty Hc H. unfold load_tokenizer_from_config in H.
  rewrite Hty in H. cbn [bind] in H. rewrite Hc in H. cbn [bind] in H.
  apply bind_ok in H. destruct H as [t1 [H1 H]].
  apply bind_ok in H. destruct H as [t2 [H2 H]].
  apply bind_ok in H. destruct H as [t3 [H3 H4]].
  apply load_merges_spec in H1. destruct H1 as (S1 & P1 & C1 & M1).
  apply (load_special_tokens_spec _ _ _ F) in H2. destruct H2 as (M2 & P2 & C2 & S2).
  apply load_pattern_spec in H3. destruct H3 as (M3 & S3 & P3).
  apply load_byte_shuffle_spec in H4. destruct H4 as (M4 & S4 & P4 & C4 & _).
  repeat split.
  - intros E. apply truthy_item_empty_list in E. rewrite E in M1. subst t1.
    congruence.
  - intros E. apply truthy_item_empty_dict in E. rewrite (S2 E) in *.
    congruence.
  - apply truthy_item_empty_str in H. rewrite H in P3. subst t3. congruence.
  - apply truthy_item_empty_str in H. rewrite H in P3. subst t3. congruence.
  - intros E. destruct (truthy_item "merges" config).
    + destruct M1 as [m [Hm Hne]]. exfalso. apply Hne.
      assert (Some m = Some []) by congruence. congruence.
    + subst t1. congruence.
  - intros E. destruct (truthy_item "pattern" config) as [v|] eqn:Ev.
    + apply truthy_item_truthy in Ev.
      assert (v = VStr "") by congruence. subst v. discriminate.
    + subst t3. congruence.
Qed.

Lemma import_keeps_defaults_witness :
  let config := VDict [(VStr "type", VStr "gpt4"); (VStr "merges", VList []);
                       (VStr "pattern", VStr "")] in
  exists tk, @load_tokenizer_from_config Sample.runtime Sample.library config = Ok tk
             /\ merges tk = Some [((98, 99), 256)]
             /\ pattern tk = Some (VStr "\S+|\s+").
Proof.
  intros config.
  destruct (@load_tokenizer_from_config Sample.runtime Sample.library config)
    as [tk|e] eqn:E; [|vm_compute in E; discriminate E].
  exists tk. split; [reflexivity|].
  destruct (@Engine.GPT4Tokenizer Sample.pretrained) as [tk0|e0] eqn:E0;
    [|vm_compute in E0; discriminate E0].
  pose proof (@import_keeps_defaults Sample.runtime Sample.library config
                (VStr "gpt4") tk0 tk engine_register_frame eq_refl E0 E)
    as (Hm & _ & Hp & _).
  rewrite (Hm eq_refl), (proj1 (Hp eq_refl)).
  vm_compute in E0. injection E0 as <-. split; reflexivity.
Defined.

(** ** Handlers return tagged results *)

Lemma bindM_ok {A B} (m : M A) (k : A -> M B) fs (b : B) fs' :
  bindM m k fs = (Ok b, fs') ->
  exists a fs1, m fs = (Ok a, fs1) /\ k a fs1 = (Ok b, fs').
Proof.
  unfold bindM. destruct (m fs) as [[a|e] fs1]; intros H; [eauto | discriminate].
Qed.

Ltac bindM_inv H :=
  repeat (let a := fresh "a" in
          let fs1 := fresh "fs" in
          let Ha := fresh "Ha" in
          apply bindM_ok in H; destruct H as (a & fs1 & Ha & H)).

Section Handlers.
Context {rt : Runtime} {lib : Library}.

Lemma body_success c args fs r fs' :
  handler_body c args fs = (Ok r, fs') ->
  tagged r /\ field "status" r = Some (VStr "success").
Proof.
  unfold handler_body. intros H.
  assert (G : tagged r -> field "status" r = Some (VStr "success") ->
              tagged r /\ field "status" r = Some (VStr "success")) by auto.
  destruct (String.eqb c "train");
    [|destruct (String.eqb c "encode");
      [|destruct (String.eqb c "decode");
        [|destruct (String.eqb c "export")]]].
  - unfold train_body in H. bindM_inv H. unfold ret in H. injection H as <- <-.
    apply G; [split; [left|]|]; reflexivity.
  - unfold encode_body in H. bindM_inv H. unfold ret in H. injection H as <- <-.
    apply G; [split; [left|]|]; reflexivity.
  - unfold decode_body in H. bindM_inv H. unfold ret in H. injection H as <- <-.
    apply G; [split; [left|]|]; reflexivity.
  - unfold export_body in H. bindM_inv H. unfold ret in H. injection H as <- <-.
    apply G; [split; [left|]|]; reflexivity.
  - unfold load_body in H. bindM_inv H. unfold ret in H. injection H as <- <-.
    apply G; [split; [left|]|]; reflexivity.
Qed.

Lemma dispatch_handler c args :
  In c ["train"; "encode"; "decode"; "export"; "load"] ->
  dispatch c args = try_except c (handler_body c args).
Proof.
  intros [<-|[<-|[<-|[<-|[<-|[]]]]]]; reflexivity.
Qed.

Lemma error_result_tagged c e :
  tagged (error_result c e) /\ status_is_error (error_result c e) = true
  /\ field "error" (error_result c e) = Some (VStr (exn_msg e)).
Proof.
  repeat split; try reflexivity. right. reflexivity.
Qed.

Lemma status_is_error_iff r :
  tagged r -> (status_is_error r = true <-> field "status" r = Some (VStr "error")).
Proof.
  intros [[H|H] _]; unfold status_is_error, field in *;
    destruct r; try discriminate; rewrite H; cbn; split; congruence.
Qed.

End Handlers.

(** C10: for each of the five commands and every input, the handler
    returns (never raises) a result record with a [status] and with
    [implementation] set to python; when the handler's body raises, the
    record has status error and carries the exception's message; and the
    exit code of [main] is nonzero exactly when the status is error (when
    the result cannot be printed, [main] reports that error and exits
    with 1). *)
Theorem handlers_return_tagged_results {rt : Runtime} {lib : Library}
  (c : string) (args : Args) (fs : FS) :
  In c ["train"; "encode"; "decode"; "export"; "load"] ->
  command args = Some c ->
  exists r fs',
    dispatch c args fs = (Ok r, fs')
    /\ tagged r
    /\ (forall e fs0, handler_body c args fs = (Err e, fs0) ->
        field "status" r = Some (VStr "error")
        /\ field "error" r = Some (VStr (exn_msg e)))
    /\ (forall r0 fs0, handler_body c args fs = (Ok r0, fs0) ->
        r = r0 /\ field "status" r = Some (VStr "success"))
    /\ (forall s, json_dumps r = Ok s ->
        stdout (fst (main args fs)) = [s]
        /\ (exit_code (fst (main args fs)) <> 0 <->
            field "status" r = Some (VStr "error")))
    /\ (forall e, json_dumps r = Err e -> exit_code (fst (main args fs)) = 1).
Proof.
  intros Hc Hcmd. unfold main. rewrite Hcmd.
  rewrite (dispatch_handler c args Hc). unfold try_except.
  destruct (handler_body c args fs) as [[r0|e] fs0] eqn:Hb.
  - destruct (body_success _ _ _ _ _ Hb) as [Ht Hs].
    exists r0, fs0. split; [reflexivity|]. split; [exact Ht|].
    split; [intros e fs1 [=]|]. split; [intros r1 fs1 [= <- <-]; auto|].
    split.
    + intros s Hd. rewrite Hd. cbn [fst stdout exit_code]. split; [reflexivity|].
      pose proof (status_is_error_iff r0 Ht) as Hi.
      destruct (status_is_error r0); split; intros H.
      * now apply Hi.
      * discriminate.
      * now elim H.
      * apply Hi in H. discriminate.
    + intros e Hd. rewrite Hd. cbn [fst]. unfold main_except.
      clear Hd. destruct (json_dumps (VDict _)); reflexivity.
  - destruct (error_result_tagged c e) as (Ht & He & Hm).
    exists (error_result c e), fs0. split; [reflexivity|]. split; [exact Ht|].
    split; [intros e1 fs1 [= <- <-]; split; [reflexivity|exact Hm]|].
    split; [intros r1 fs1 [=]|]. split.
    + intros s Hd. rewrite Hd. cbn [fst stdout exit_code]. rewrite He.
      split; [reflexivity|]. split; [reflexivity|discriminate].
    + intros e1 Hd. rewrite Hd. cbn [fst]. unfold main_except.
      clear Hd. destruct (json_dumps (VDict _)); reflexivity.
Qed.

Lemma handlers_return_tagged_results_witness :
  exists r fs',
    @dispatch Sample.runtime Sample.library "decode" (Sample.decode_args "[104, 105]")
      Sample.fs = (Ok r, fs')
    /\ tagged r
    /\ field "text" r = Some (VStr "hi").
Proof.
  destruct (@handlers_return_tagged_results Sample.runtime Sample.library "decode"
              (Sample.decode_args "[104, 105]") Sample.fs
              (or_intror (or_intror (or_introl eq_refl))) eq_refl)
    as (r & fs' & Hd & Ht & _ & Hs & _ & _).
  exists r, fs'. split; [exact Hd|]. split; [exact Ht|].
  destruct (Hs _ _ eq_refl) as [-> _]. reflexivity.
Defined.

(** ** Training the pretrained variant *)

(** C2, as stated, fails: a train request for gpt4 completes with status
    success and writes a configuration. *)
Lemma train_gpt4_counterexample :
  exists r fs',
    @handle_train_command Sample.runtime Sample.library
      (Sample.train_args "gpt4" "hello" 300) Sample.fs = (Ok r, fs')
    /\ field "status" r = Some (VStr "success")
    /\ status_is_error r = false
    /\ isfile "out.json" fs' = true.
Proof.
  eexists. eexists. split; [vm_compute; reflexivity|].
  split; [reflexivity|]. split; reflexivity.
Qed.

(** C2 (amended): a train request for gpt4 whose text can be read, whose
    tokenizer can be constructed and exported and whose output can be
    written never trains: it returns status success, reports the
    vocabulary size of the pretrained tokenizer and writes that
    tokenizer's configuration, whatever the text and the vocabulary size
    requested. *)
Theorem train_gpt4_skips_training {rt : Runtime} {lib : Library}
  (args : Args) (fs : FS) (text s : string) (tk : Tokenizer) (config : pyval) :
  a_type args = "gpt4" ->
  text_or_file (a_text args) fs = (Ok text, fs) ->
  GPT4Tokenizer = Ok tk ->
  export_tokenizer_config tk (VStr "gpt4") = Ok config ->
  json_dumps config = Ok s ->
  is_denied (a_output args) fs = false ->
  handle_train_command args fs =
    (Ok (VDict [ (VStr "status", VStr "success");
                 (VStr "command", VStr "train");
                 (VStr "tokenizer_type", VStr "gpt4");
                 (VStr "vocab_size", VInt (Z.of_nat (List.length (vocab tk))));
                 (VStr "output_file", VStr (a_output args));
                 (VStr "implementation", VStr "python") ]),
     mkFS (dict_set String.eqb (a_output args) s (files fs)) (denied fs)).
Proof.
  intros Hty Htext Hnew Hexp Hdump Hden.
  unfold handle_train_command, try_except, train_body, bindM.
  rewrite Htext, Hty. cbn [lift create_tokenizer key_eqb String.eqb Ascii.eqb Bool.eqb].
  rewrite Hnew. cbn [lift]. rewrite Hexp.
  unfold json_dump_file, write_file. rewrite Hden, Hdump. reflexivity.
Qed.

Lemma train_gpt4_skips_training_witness :
  exists r fs',
    @handle_train_command Sample.runtime Sample.library
      (Sample.train_args "gpt4" "hello" 100) Sample.fs = (Ok r, fs')
    /\ field "vocab_size" r = Some (VInt 257).
Proof.
  destruct (@GPT4Tokenizer Sample.library) as [tk|e] eqn:Hnew;
    [|vm_compute in Hnew; discriminate Hnew].
  destruct (export_tokenizer_config tk (VStr "gpt4")) as [config|e] eqn:Hexp;
    [|vm_compute in Hnew; injection Hnew as <-; vm_compute in Hexp; discriminate Hexp].
  eexists. eexists. split.
  - exact (@train_gpt4_skips_training Sample.runtime Sample.library
             (Sample.train_args "gpt4" "hello" 100) Sample.fs "hello" _ tk config
             eq_refl eq_refl Hnew Hexp eq_refl eq_refl).
  - vm_compute in Hnew. injection Hnew as <-. reflexivity.
Defined.

(** ** Import does not validate result ids *)

Lemma merges_of_config_items (entries : list ((Z * Z) * Z)) :
  merges_of_config (merges_items entries) = Ok (dict_of_list pair_eqb entries).
Proof.
  unfold merges_of_config, merges_items.
  assert (E : mapM merge_entry
                (map (fun e => VList [VList [VInt (fst (fst e)); VInt (snd (fst e))];
                                      VInt (snd e)]) entries) = Ok entries).
  { induction entries as [|[[p0 p1] idx] r IH]; [reflexivity|].
    cbn. cbn in IH. rewrite IH. reflexivity. }
  rewrite E. reflexivity.
Qed.




(** ** The inverse byte permutation *)

Lemma existsb_eqb_In (x : Z) (l : list Z) : existsb (Z.eqb x) l = true <-> In x l.
Proof.
  rewrite existsb_exists. split.
  - intros [y [Hy E]]. apply Z.eqb_eq in E. now subst.
  - intros H. exists x. split; [exact H | apply Z.eqb_refl].
Qed.

Lemma nodupb_NoDup (l : list Z) : nodupb l = true -> NoDup l.
Proof.
  induction l as [|x r IH]; simpl; intros H; constructor.
  - apply andb_prop in H. destruct H as [H _]. apply negb_true_iff in H.
    intros Hin. apply existsb_eqb_In in Hin. congruence.
  - apply IH. now apply andb_prop in H.
Qed.

Lemma dict_get_int_table (b : Z) (l : list (Z * Z)) :
  dict_get key_eqb (VInt b) (int_table l) = option_map VInt (dict_get Z.eqb b l).
Proof.
  induction l as [|[k v] r IH]; simpl; [reflexivity|].
  destruct (b =? k); [reflexivity | exact IH].
Qed.


Lemma dict_get_In (b p : Z) (l : list (Z * Z)) :
  NoDup (map fst l) -> (dict_get Z.eqb b l = Some p <-> In (b, p) l).
Proof.
  induction l as [|[k v] r IH]; simpl; intros N.
  - split; [discriminate | tauto].
  - inversion N as [|? ? Hk Nr]; subst. destruct (b =? k) eqn:E.
    + apply Z.eqb_eq in E. subst k. split.
      * intros [= ->]. now left.
      * intros [[= ->]|Hin]; [reflexivity|].
        exfalso. apply Hk. change b with (fst (b, p)). now apply in_map.
    + apply Z.eqb_neq in E. rewrite (IH Nr). split; [tauto|].
      intros [[= -> ->]|Hin]; [congruence | exact Hin].
Qed.

Lemma dict_set_fresh {K V} (eqb : K -> K -> bool) (k : K) (v : V) d :
  dict_get eqb k d = None -> dict_set eqb k v d = d ++ [(k, v)].
Proof.
  induction d as [|[k' v'] r IH]; simpl; [reflexivity|].
  destruct (eqb k k'); [discriminate|]. intros H. now rewrite IH.
Qed.




Lemma inverse_exact (l : list (Z * Z)) (b p : Z) :
  NoDup (map fst l) -> NoDup (map snd l) ->
  (dict_get key_eqb (VInt b) (int_table l) = Some (VInt p) <->
   dict_get key_eqb (VInt p) (int_table (map swap l)) = Some (VInt b)).
Proof.
  intros Nk Nv. rewrite !dict_get_int_table.
  assert (Nv' : NoDup (map fst (map swap l))) by (rewrite map_map; exact Nv).
  pose proof (dict_get_In b p l Nk) as H1.
  pose proof (dict_get_In p b (map swap l) Nv') as H2.
  assert (H3 : In (b, p) l <-> In (p, b) (map swap l)).
  { rewrite in_map_iff. split.
    - intros H. exists (b, p). auto.
    - intros [[x y] [[= <- <-] H]]. exact H. }
  destruct (dict_get Z.eqb b l) as [p'|], (dict_get Z.eqb p (map swap l)) as [b'|];
    cbn; split; intros [= E]; subst.
  - f_equal. f_equal. assert (Some b' = Some b) as [= ->]; [|reflexivity].
    apply H2, H3, H1. reflexivity.
  - f_equal. f_equal. assert (Some p' = Some p) as [= ->]; [|reflexivity].
    apply H1, H3, H2. reflexivity.
  - assert (@None Z = Some b) by (apply H2, H3, H1; reflexivity). discriminate.
  - assert (@None Z = Some p) by (apply H1, H3, H2; reflexivity). discriminate.
Qed.

Lemma key_eqb_str (s : string) (x : pyval) : key_eqb (VStr s) x = true -> x = VStr s.
Proof.
  destruct x; simpl; try discriminate. intros H. apply String.eqb_eq in H. now subst.
Qed.

Lemma dict_get_set_other (d : list (pyval * pyval)) (k s : string) (x : pyval) :
  s <> k ->
  dict_get key_eqb (VStr k) (dict_set key_eqb (VStr s) x d)
  = dict_get key_eqb (VStr k) d.
Proof.
  intros Hne. assert (Hks : key_eqb (VStr k) (VStr s) = false).
  { apply String.eqb_neq. congruence. }
  induction d as [|[k' v'] r IH]; cbn [dict_set dict_get].
  - now rewrite Hks.
  - destruct (key_eqb (VStr s) k') eqn:E; cbn [dict_get].
    + apply key_eqb_str in E. subst k'. now rewrite Hks.
    + destruct (key_eqb (VStr k) k'); [reflexivity | exact IH].
Qed.


Lemma byte_bijection_total (l : list (Z * Z)) (b : Z) :
  byte_bijection l = true -> 0 <= b <= 255 ->
  (exists p, 0 <= p <= 255 /\ dict_get Z.eqb b l = Some p)
  /\ (exists a, 0 <= a <= 255 /\ dict_get Z.eqb a l = Some b).
Proof.
  unfold byte_bijection. intros H Hb.
  repeat (apply andb_prop in H; destruct H as [H ?]).
  rename H into Hr, H0 into Hvs, H1 into Hks, H2 into Nv, H3 into Nk.
  apply nodupb_NoDup in Nk. apply nodupb_NoDup in Nv.
  assert (Hin : In b bytes_all).
  { unfold bytes_all. apply in_map_iff. exists (Z.to_nat b). split; [lia|].
    apply in_seq. lia. }
  rewrite forallb_forall in Hr, Hks, Hvs.
  assert (R : forall x y, In (x, y) l -> 0 <= x <= 255 /\ 0 <= y <= 255).
  { intros x y Hxy. specialize (Hr _ Hxy). cbn in Hr. unfold in_range in Hr.
    apply andb_prop in Hr. destruct Hr as [H1 H2].
    apply andb_prop in H1. apply andb_prop in H2. lia. }
  split.
  - specialize (Hks _ Hin). apply existsb_eqb_In in Hks.
    apply in_map_iff in Hks. destruct Hks as [[x p] [Hx Hxp]]. cbn in Hx. subst x.
    exists p. split; [apply (R _ _ Hxp) | now apply dict_get_In].
  - specialize (Hvs _ Hin). apply existsb_eqb_In in Hvs.
    apply in_map_iff in Hvs. destruct Hvs as [[a y] [Hy Hay]]. cbn in Hy. subst y.
    exists a. split; [apply (R _ _ Hay) | now apply dict_get_In].
Qed.



(** ** Export followed by import *)

Lemma jsonify_dict (d : list (pyval * pyval)) :
  jsonify (VDict d) =
  (let* d' := jsonify_items d in Ok (VDict (dict_of_list key_eqb d'))).
Proof. reflexivity. Qed.

Lemma jsonify_items_int_table (l : list (Z * Z)) :
  jsonify_items (int_table l)
  = Ok (map (fun e => (VStr (str_of_Z (fst e)), VInt (snd e))) l).
Proof.
  induction l as [|[k v] r IH]; [reflexivity|].
  change (int_table ((k, v) :: r)) with ((VInt k, VInt v) :: int_table r).
  cbn [jsonify_items json_key jsonify bind]. rewrite IH. reflexivity.
Qed.

Lemma dict_set_keys {V} (P : pyval -> Prop) (k : pyval) (v : V) d :
  P k -> Forall (fun kv => P (fst kv)) d ->
  Forall (fun kv => P (fst kv)) (dict_set key_eqb k v d).
Proof.
  intros Hk. induction 1 as [|[k' v'] r Hh Hr IH]; cbn [dict_set].
  - constructor; [exact Hk | constructor].
  - destruct (key_eqb k k'); constructor; auto.
Qed.

Lemma dict_of_list_keys {V} (P : pyval -> Prop) (l : list (pyval * V)) :
  Forall (fun kv => P (fst kv)) l ->
  Forall (fun kv => P (fst kv)) (dict_of_list key_eqb l).
Proof.
  unfold dict_of_list.
  assert (G : forall (l acc : list (pyval * V)),
              Forall (fun kv => P (fst kv)) l -> Forall (fun kv => P (fst kv)) acc ->
              Forall (fun kv => P (fst kv))
                (fold_left (fun d kv => dict_set key_eqb (fst kv) (snd kv) d) l acc)).
  { clear l. induction l as [|kv r IH]; cbn [fold_left]; intros acc Hl Hacc.
    - exact Hacc.
    - inversion Hl; subst. apply IH; [assumption|]. now apply dict_set_keys. }
  intros H. apply G; [exact H | constructor].
Qed.

Lemma dict_get_int_in_str_keys {V} (b : Z) (d : list (pyval * V)) :
  Forall (fun kv => is_str (fst kv)) d -> dict_get key_eqb (VInt b) d = None.
Proof.
  induction 1 as [|[k v] r [s Hs] Hr IH]; [reflexivity|].
  cbn in Hs. subst k. cbn [dict_get key_eqb]. exact IH.
Qed.

Lemma json_table_no_int_key (l : list (Z * Z)) (b : Z) :
  dict_get key_eqb (VInt b) (json_table l) = None.
Proof.
  apply dict_get_int_in_str_keys. unfold json_table. apply dict_of_list_keys.
  induction l as [|e r IH]; constructor; [|exact IH].
  cbn. unfold is_str. eauto.
Qed.

Lemma load_sets_byte_shuffle {rt : Runtime} {lib : Library}
  (d : list (pyval * pyval)) (v : pyval) (tk : Tokenizer) :
  field "type" (VDict d) = Some (VStr "gpt4") ->
  field "byte_shuffle" (VDict d) = Some v ->
  load_tokenizer_from_config (VDict d) = Ok tk ->
  byte_shuffle tk = Some v.
Proof.
  intros Hty Hbs H. unfold load_tokenizer_from_config in H. cbn [field] in Hty, Hbs.
  unfold getitem in H. rewrite Hty in H. cbn [bind] in H.
  apply bind_ok in H. destruct H as [t0 [_ H]].
  apply bind_ok in H. destruct H as [t1 [_ H]].
  apply bind_ok in H. destruct H as [t2 [_ H]].
  apply bind_ok in H. destruct H as [t3 [_ H]].
  unfold load_byte_shuffle in H.
  cbn [key_eqb String.eqb Ascii.eqb Bool.eqb] in H. rewrite Hbs in H.
  apply bind_ok in H. destruct H as [items [_ H]].
  apply bind_ok in H. destruct H as [inv [_ H]]. injection H as <-.
  reflexivity.
Qed.

Ltac inv_bind H :=
  match type of H with
  | bind _ _ = Ok _ =>
    let y := fresh "y" in
    let Hy := fresh "Hy" in
    apply bind_ok in H; destruct H as [y [Hy H]]; inv_bind Hy; inv_bind H
  | Ok _ = Ok _ => injection H as H; try subst
  | _ => idtac
  end.

Lemma persisted_fields (tk : Tokenizer) (l : list (Z * Z)) (config' : pyval) :
  byte_shuffle tk = Some (VDict (int_table l)) ->
  persisted_config tk (VStr "gpt4") = Ok config' ->
  exists d, config' = VDict d
            /\ field "type" config' = Some (VStr "gpt4")
            /\ field "byte_shuffle" config' = Some (VDict (json_table l)).
Proof.
  intros Hbs H. unfold persisted_config in H.
  apply bind_ok in H. destruct H as [config [He Hj]].
  unfold export_tokenizer_config in He.
  apply bind_ok in He. destruct He as [st [_ He]].
  cbn [key_eqb String.eqb Ascii.eqb Bool.eqb] in He. rewrite Hbs in He.
  cbn [py_dict bind app] in He. injection He as <-.
  rewrite jsonify_dict in Hj. cbn [jsonify_items json_key bind] in Hj.
  rewrite (jsonify_dict (int_table l)), jsonify_items_int_table in Hj.
  change (jsonify (VStr "gpt4")) with (@Ok pyval (VStr "gpt4")) in Hj.
  cbn [bind] in Hj. inv_bind Hj.
  eexists. split; [reflexivity|]. split; reflexivity.
Qed.

(** After a gpt4 tokenizer's configuration went through a JSON file, the
    imported byte table has only string keys: no byte can be looked up in
    it, and the engine's permutation fails on every byte. *)
Lemma persisted_gpt4_no_byte_lookup {rt : Runtime} {lib : Library}
  (tk tk' : Tokenizer) (l : list (Z * Z)) (config' : pyval) :
  byte_shuffle tk = Some (VDict (int_table l)) ->
  persisted_config tk (VStr "gpt4") = Ok config' ->
  load_tokenizer_from_config config' = Ok tk' ->
  byte_shuffle tk' = Some (VDict (json_table l))
  /\ forall b, dict_get key_eqb (VInt b) (json_table l) = None
               /\ is_ok (Engine.permute tk' b) = false.
Proof.
  intros Hbs Hp Hl.
  destruct (persisted_fields tk l config' Hbs Hp) as (d & -> & Hty & Hf).
  pose proof (load_sets_byte_shuffle d _ tk' Hty Hf Hl) as Hb.
  split; [exact Hb|]. intros b. split; [apply json_table_no_int_key|].
  unfold Engine.permute. rewrite Hb, json_table_no_int_key. reflexivity.
Qed.

(** C4 at its failing input: the pretrained tokenizer encodes "hi", but
    the tokenizer imported from its exported configuration, once that
    configuration has been written to and read from a JSON file, fails on
    the same text with a KeyError, and fails to decode what the original
    decodes. *)
Theorem persisted_gpt4_breaks_encode :
  exists tk config' tk',
    @GPT4Tokenizer Sample.library = Ok tk
    /\ persisted_config tk (VStr "gpt4") = Ok config'
    /\ @load_tokenizer_from_config Sample.runtime Sample.library config' = Ok tk'
    /\ @encode Sample.library tk "hi" = Ok [105; 106]
    /\ @decode Sample.library tk (VList [VInt 105; VInt 106]) = Ok "hi"
    /\ (exists e, @encode Sample.library tk' "hi" = Err e /\ exn_class e = "KeyError")
    /\ is_ok (@decode Sample.library tk' (VList [VInt 105; VInt 106])) = false.
Proof.
  eexists. eexists. eexists.
  split; [vm_compute; reflexivity|].
  split; [vm_compute; reflexivity|].
  split; [vm_compute; reflexivity|].
  split; [vm_compute; reflexivity|].
  split; [vm_compute; reflexivity|].
  split; [eexists; split; vm_compute; reflexivity|].
  vm_compute. reflexivity.
Qed.

(** ** Decoding an id out of range *)

Lemma le_fold_max (x : Z) (l : list Z) : In x l -> x <= fold_right Z.max (-1) l.
Proof.
  induction l as [|y r IH]; simpl; [tauto|].
  intros [->|H]; [lia | specialize (IH H); lia].
Qed.

Lemma dict_get_some_in {V} (k : Z) (v : V) (d : list (Z * V)) :
  dict_get Z.eqb k d = Some v -> In k (map fst d).
Proof.
  induction d as [|[k' v'] r IH]; simpl; [discriminate|].
  destruct (k =? k') eqn:E.
  - apply Z.eqb_eq in E. now left.
  - intros H. right. now apply IH.
Qed.

Lemma special_literal_in (t : Tokenizer) (id : Z) (lit : list Z) :
  Engine.special_literal t id = Some lit -> In id (map snd (Engine.specials_of t)).
Proof.
  unfold Engine.special_literal.
  destruct (find (fun e => snd e =? id) (Engine.specials_of t)) as [[lit' i]|] eqn:E;
    [|discriminate].
  intros _. apply find_some in E. destruct E as [Hin Heq]. cbn in Heq.
  apply Z.eqb_eq in Heq. subst i. change id with (snd (lit', id)). now apply in_map.
Qed.

Lemma unknown_id_malformed (t : Tokenizer) (id : Z) :
  ~ In id (all_ids t) ->
  Engine.decode_id t id = raise "MalformedInput" (str_of_Z id).
Proof.
  intros Hn. unfold Engine.decode_id.
  destruct (Engine.special_literal t id) as [lit|] eqn:Es.
  - exfalso. apply Hn. apply in_or_app. right. eapply special_literal_in; eauto.
  - destruct (dict_get Z.eqb id (vocab t)) as [bs|] eqn:Ev; [|reflexivity].
    exfalso. apply Hn. apply in_or_app. left. eapply dict_get_some_in; eauto.
Qed.

Lemma out_of_range_unknown (t : Tokenizer) (id : Z) :
  ids_nonneg t -> id < 0 \/ max_id t < id -> ~ In id (all_ids t).
Proof.
  intros Hnn [H|H] Hin.
  - unfold ids_nonneg in Hnn. rewrite Forall_forall in Hnn.
    specialize (Hnn _ Hin). lia.
  - apply le_fold_max in Hin. unfold max_id in H. lia.
Qed.

Lemma mapM_as_int (ids : list Z) : mapM as_int (map VInt ids) = Ok ids.
Proof.
  induction ids as [|x r IH]; [reflexivity|]. cbn [map mapM as_int bind].
  rewrite IH. reflexivity.
Qed.

Lemma mapM_fails {A B} (f : A -> result B) (l : list A) (x : A) :
  In x l -> is_ok (f x) = false -> is_ok (mapM f l) = false.
Proof.
  induction l as [|y r IH]; simpl; [tauto|].
  intros [->|Hin] Hx.
  - destruct (f x); [discriminate | reflexivity].
  - destruct (f y); [|reflexivity]. cbn [bind].
    specialize (IH Hin Hx). destruct (mapM f r); [discriminate | reflexivity].
Qed.

Lemma mapM_first_error {A B} (f : A -> result B) (P : exn -> Prop) (l : list A) :
  is_ok (mapM f l) = false ->
  (forall x e, In x l -> f x = Err e -> P e) ->
  exists e, mapM f l = Err e /\ P e.
Proof.
  induction l as [|y r IH]; simpl; [discriminate|].
  intros Hf HP. destruct (f y) as [b|e] eqn:Ey.
  - cbn [bind] in *. destruct (mapM f r) as [bs|e] eqn:Er; [discriminate|].
    destruct IH as [e' [He' Pe']]; [reflexivity | intros; eapply HP; eauto|].
    injection He' as <-. exists e. auto.
  - exists e. split; [reflexivity|]. eapply HP; eauto.
Qed.

(** C5: when a token-id sequence contains an id outside
    [0, current maximum id], decode fails: no text is produced and the id
    is not dropped.  When every vocabulary entry can be inverse-permuted
    (nothing else can fail), the failure is MalformedInput. *)
Theorem decode_rejects_out_of_range (t : Tokenizer) (ids : list Z) (id : Z) :
  ids_nonneg t ->
  In id ids ->
  id < 0 \/ max_id t < id ->
  is_ok (Engine.decode t (VList (map VInt ids))) = false
  /\ (inverse_total t ->
      exists e, Engine.decode t (VList (map VInt ids)) = Err e
                /\ exn_class e = "MalformedInput").
Proof.
  intros Hnn Hin Hout.
  pose proof (out_of_range_unknown t id Hnn Hout) as Hunk.
  assert (Hbad : is_ok (mapM (Engine.decode_id t) ids) = false).
  { apply (mapM_fails _ ids id Hin). now rewrite unknown_id_malformed. }
  unfold Engine.decode. rewrite mapM_as_int. cbn [bind]. split.
  - destruct (mapM (Engine.decode_id t) ids); [discriminate | reflexivity].
  - intros Htot.
    destruct (mapM_first_error (Engine.decode_id t)
                (fun e => exn_class e = "MalformedInput") ids Hbad) as [e [He Pe]].
    + intros x e _ Hx. unfold Engine.decode_id in Hx.
      destruct (Engine.special_literal t x); [discriminate|].
      destruct (dict_get Z.eqb x (vocab t)) as [bs|] eqn:Ev.
      * specialize (Htot _ _ Ev). rewrite Hx in Htot. discriminate.
      * injection Hx as <-. reflexivity.
    + exists e. rewrite He. auto.
Qed.

Lemma decode_rejects_out_of_range_witness :
  max_id Sample.basic = 255
  /\ is_ok (Engine.decode Sample.basic (VList (map VInt [104; 256]))) = false
  /\ (exists r fs',
        @handle_decode_command Sample.runtime Sample.library
          (Sample.decode_args "[104, 256]") Sample.fs = (Ok r, fs')
        /\ field "status" r = Some (VStr "error")
        /\ field "error" r = Some (VStr "256")
        /\ isfile "out.txt" fs' = false).
Proof.
  assert (Hnn : ids_nonneg Sample.basic).
  { unfold ids_nonneg. apply Forall_forall. intros x Hx.
    cbn in Hx. repeat (destruct Hx as [<-|Hx]; [lia|]). destruct Hx. }
  split; [reflexivity|]. split.
  - exact (proj1 (decode_rejects_out_of_range Sample.basic [104; 256] 256 Hnn
                    (or_intror (or_introl eq_refl)) (or_intror eq_refl))).
  - eexists. eexists. split; [vm_compute; reflexivity|].
    split; [reflexivity|]. split; reflexivity.
Defined.

(** ** Training is a function of its inputs *)

Lemma dict_get_set_same {V} (p : string) (v : V) (d : list (string * V)) :
  dict_get String.eqb p (dict_set String.eqb p v d) = Some v.
Proof.
  induction d as [|[k w] r IH]; cbn [dict_set dict_get].
  - now rewrite String.eqb_refl.
  - destruct (String.eqb p k) eqn:E; cbn [dict_get]; rewrite E; [reflexivity | exact IH].
Qed.



(** ** Round trip *)

(** *** Well-formed UTF-8 is decoded unchanged *)

Ltac cases_cmp :=
  repeat match goal with
         | H : context [?a =? ?b] |- _ => destruct (Z.eqb_spec a b)
         | H : context [?a <=? ?b] |- _ => destruct (Z.leb_spec a b)
         | |- context [?a =? ?b] => destruct (Z.eqb_spec a b)
         | |- context [?a <=? ?b] => destruct (Z.leb_spec a b)
         end.

Lemma second3_not_two (b0 b1 : Z) : second3 b0 b1 = true -> in_range 194 223 b0 = false.
Proof.
  unfold second3, in_range, cont. intros H.
  cases_cmp; cbn in *; try discriminate; try reflexivity; lia.
Qed.

Lemma second4_not_two (b0 b1 : Z) : second4 b0 b1 = true -> in_range 194 223 b0 = false.
Proof.
  unfold second4, in_range, cont. intros H.
  cases_cmp; cbn in *; try discriminate; try reflexivity; lia.
Qed.

Lemma second4_not_three (b0 b1 : Z) : second4 b0 b1 = true -> second3 b0 b1 = false.
Proof.
  unfold second4, second3, in_range, cont. intros H.
  cases_cmp; cbn in *; try discriminate; try reflexivity; lia.
Qed.

Lemma utf8_replace_valid (l : list Z) : utf8_valid l = true -> utf8_replace l = l.
Proof.
  assert (G : forall n l, (List.length l <= n)%nat ->
                          utf8_valid l = true -> utf8_replace l = l).
  { clear l. induction n as [|n IH]; intros l Hn Hv.
    - destruct l; [reflexivity | simpl in Hn; lia].
    - destruct l as [|b0 r]; [reflexivity|].
      cbn [utf8_valid utf8_replace] in *. simpl in Hn.
      destruct (in_range 0 127 b0).
      { f_equal. apply IH; [lia | exact Hv]. }
      destruct r as [|b1 r1]; [discriminate|]. simpl in Hn.
      destruct (in_range 194 223 b0 && cont b1) eqn:E2.
      { apply andb_prop in E2. destruct E2 as [-> ->].
        do 2 f_equal. apply IH; [lia | exact Hv]. }
      destruct r1 as [|b2 r2]; [discriminate|]. simpl in Hn.
      destruct (second3 b0 b1 && cont b2) eqn:E3.
      { apply andb_prop in E3. destruct E3 as [E3 ->].
        rewrite (second3_not_two _ _ E3), E3.
        do 3 f_equal. apply IH; [lia | exact Hv]. }
      destruct r2 as [|b3 r3]; [discriminate|]. simpl in Hn.
      apply andb_prop in Hv. destruct Hv as [Hv Hr].
      apply andb_prop in Hv. destruct Hv as [Hv H3].
      apply andb_prop in Hv. destruct Hv as [H4 H2].
      rewrite (second4_not_two _ _ H4), (second4_not_three _ _ H4), H4, H2, H3.
      do 4 f_equal. apply IH; [lia | exact Hr]. }
  intros H. exact (G (List.length l) l (le_n _) H).
Qed.

Lemma string_of_bytes_of_string (s : string) : string_of_bytes (bytes_of_string s) = s.
Proof.
  unfold string_of_bytes, bytes_of_string. rewrite map_map.
  rewrite (map_ext _ (fun c => c)).
  - rewrite map_id. apply string_of_list_ascii_of_string.
  - intros c. unfold ascii_of_byte, byte_of_ascii.
    rewrite N2Z.id. apply ascii_N_embedding.
Qed.

Lemma bytes_in_range (s : string) :
  Forall (fun b => 0 <= b <= 255) (bytes_of_string s).
Proof.
  unfold bytes_of_string. apply Forall_forall. intros b Hb.
  apply in_map_iff in Hb. destruct Hb as [c [<- _]]. unfold byte_of_ascii.
  pose proof (N_ascii_bounded c). lia.
Qed.

(** *** The vocabulary agrees with the merge table *)

Lemma dict_get_set_eq {V} (k : Z) (v : V) (d : list (Z * V)) :
  dict_get Z.eqb k (dict_set Z.eqb k v d) = Some v.
Proof.
  induction d as [|[k' w] r IH]; cbn [dict_set dict_get].
  - now rewrite Z.eqb_refl.
  - destruct (k =? k') eqn:E; cbn [dict_get]; rewrite E; [reflexivity | exact IH].
Qed.

Lemma dict_get_set_neq {V} (k j : Z) (v : V) (d : list (Z * V)) :
  j <> k -> dict_get Z.eqb j (dict_set Z.eqb k v d) = dict_get Z.eqb j d.
Proof.
  intros Hne. induction d as [|[k' w] r IH]; cbn [dict_set dict_get].
  - destruct (Z.eqb_spec j k); [contradiction | reflexivity].
  - destruct (Z.eqb_spec k k') as [->|Hk]; cbn [dict_get].
    + destruct (Z.eqb_spec j k'); [contradiction | reflexivity].
    + destruct (j =? k'); [reflexivity | exact IH].
Qed.

Lemma dict_set_keys_bound {V} (k : Z) (v : V) (d : list (Z * V)) (n : Z) :
  k < n -> (forall j, In j (map fst d) -> j < n) ->
  forall j, In j (map fst (dict_set Z.eqb k v d)) -> j < n.
Proof.
  intros Hk. induction d as [|[k' w] r IH]; cbn [dict_set]; intros Hd j Hj.
  - cbn in Hj. destruct Hj as [<-|[]]. exact Hk.
  - destruct (k =? k'); cbn in Hj.
    + apply Hd. cbn. exact Hj.
    + destruct Hj as [<-|Hj]; [apply Hd; cbn; now left|].
      apply IH; [|exact Hj]. intros i Hi. apply Hd. cbn. now right.
Qed.

Lemma replay_agrees (m : list ((Z * Z) * Z)) :
  forall next voc0 voc,
    ids_from next m = true ->
    (forall j, In j (map fst voc0) -> j < next) ->
    Engine.replay m voc0 = Ok voc ->
    (forall j v, j < next -> dict_get Z.eqb j voc0 = Some v ->
                 dict_get Z.eqb j voc = Some v)
    /\ Forall (entry_ok voc) m.
Proof.
  induction m as [|[[p0 p1] idx] r IH]; intros next voc0 voc Hids Hkeys Hr.
  - cbn in Hr. injection Hr as <-. split; [auto | constructor].
  - cbn [ids_from] in Hids. apply andb_prop in Hids. destruct Hids as [Hidx Hrest].
    apply Z.eqb_eq in Hidx. subst idx. cbn [Engine.replay] in Hr.
    destruct (dict_get Z.eqb p0 voc0) as [b0|] eqn:E0; [|discriminate].
    destruct (dict_get Z.eqb p1 voc0) as [b1|] eqn:E1; [|discriminate].
    assert (L0 : p0 < next) by (apply Hkeys; eapply dict_get_some_in; eauto).
    assert (L1 : p1 < next) by (apply Hkeys; eapply dict_get_some_in; eauto).
    destruct (IH (next + 1) (dict_set Z.eqb next (b0 ++ b1) voc0) voc Hrest)
      as [Hpres Hall]; [|exact Hr|].
    { apply dict_set_keys_bound; [lia|]. intros j Hj. specialize (Hkeys j Hj). lia. }
    assert (Hold : forall j v, j < next -> dict_get Z.eqb j voc0 = Some v ->
                               dict_get Z.eqb j voc = Some v).
    { intros j v Hj Hv. apply Hpres; [lia|].
      rewrite dict_get_set_neq; [exact Hv | lia]. }
    split; [exact Hold|]. constructor; [|exact Hall].
    exists b0, b1. cbn [fst snd]. repeat split; auto.
    apply Hpres; [lia | apply dict_get_set_eq].
Qed.

Lemma base_vocab_get (i : Z) :
  0 <= i <= 255 -> dict_get Z.eqb i Engine.base_vocab = Some [i].
Proof.
  intros Hi. unfold Engine.base_vocab.
  assert (G : forall n start, (Z.of_nat start <= i < Z.of_nat (start + n)) ->
              dict_get Z.eqb i (map (fun n => (Z.of_nat n, [Z.of_nat n])) (seq start n))
              = Some [i]).
  { induction n as [|n IH]; intros start H; [lia|].
    cbn [seq map dict_get]. destruct (Z.eqb_spec i (Z.of_nat start)) as [->|Hne].
    - reflexivity.
    - apply IH. lia. }
  apply G. lia.
Qed.

Lemma base_vocab_keys (j : Z) : In j (map fst Engine.base_vocab) -> j < 256.
Proof.
  unfold Engine.base_vocab. rewrite map_map. cbn [fst]. intros H.
  apply in_map_iff in H. destruct H as [n [<- Hn]]. apply in_seq in Hn. lia.
Qed.

Lemma merges_ok_vocab (t : Tokenizer) :
  merges_ok t ->
  (forall i, 0 <= i <= 255 -> dict_get Z.eqb i (vocab t) = Some [i])
  /\ Forall (entry_ok (vocab t)) (Engine.merges_of t).
Proof.
  intros [Hc Hr].
  destruct (replay_agrees _ 256 _ _ Hc base_vocab_keys Hr) as [Hpres Hall].
  split; [|exact Hall]. intros i Hi. apply Hpres; [lia | now apply base_vocab_get].
Qed.

(** *** Merging keeps the bytes a sequence stands for *)

Lemma merge_cons2 (a b : Z) (r : list Z) (pr : Z * Z) (idx : Z) :
  Engine.merge (a :: b :: r) pr idx =
  if (a =? fst pr) && (b =? snd pr)
  then idx :: Engine.merge r pr idx
  else a :: Engine.merge (b :: r) pr idx.
Proof. reflexivity. Qed.

Lemma expand_cons voc (a : Z) (r : list Z) (bs : list Z) :
  expand voc (a :: r) = Some bs ->
  exists b e, dict_get Z.eqb a voc = Some b /\ expand voc r = Some e /\ bs = b ++ e.
Proof.
  cbn [expand]. destruct (dict_get Z.eqb a voc) as [b|]; [|discriminate].
  destruct (expand voc r) as [e|]; [|discriminate].
  intros [= <-]. eauto.
Qed.

Lemma expand_merge voc (pr : Z * Z) (idx : Z) (ids bs : list Z) :
  entry_ok voc (pr, idx) ->
  expand voc ids = Some bs -> expand voc (Engine.merge ids pr idx) = Some bs.
Proof.
  intros (b0 & b1 & H0 & H1 & Hi). cbn [fst snd] in H0, H1, Hi.
  assert (G : forall n ids bs, (List.length ids <= n)%nat ->
              expand voc ids = Some bs ->
              expand voc (Engine.merge ids pr idx) = Some bs).
  { clear ids bs. induction n as [|n IH]; intros ids bs Hn He.
    - destruct ids; [exact He | simpl in Hn; lia].
    - destruct ids as [|a [|b r]]; [exact He | exact He |].
      rewrite merge_cons2. simpl in Hn.
      destruct ((a =? fst pr) && (b =? snd pr)) eqn:E.
      + apply andb_prop in E. destruct E as [Ea Eb].
        apply Z.eqb_eq in Ea. apply Z.eqb_eq in Eb. subst a b.
        apply expand_cons in He. destruct He as (xa & e1 & Ha & He & ->).
        apply expand_cons in He. destruct He as (xb & e2 & Hb & He & ->).
        rewrite H0 in Ha. injection Ha as <-. rewrite H1 in Hb. injection Hb as <-.
        cbn [expand]. rewrite Hi, (IH r e2); [|lia|exact He].
        now rewrite app_assoc.
      + apply expand_cons in He. destruct He as (xa & e1 & Ha & He & ->).
        cbn [expand]. rewrite Ha, (IH (b :: r) e1); [reflexivity | simpl; lia | exact He]. }
  exact (G (List.length ids) ids bs (le_n _)).
Qed.

Lemma expand_apply_merges voc (m : list ((Z * Z) * Z)) (n : nat) :
  Forall (entry_ok voc) m ->
  forall ids bs, expand voc ids = Some bs ->
                 expand voc (Engine.apply_merges n m ids) = Some bs.
Proof.
  intros Hm. induction n as [|n IH]; intros ids bs He; [exact He|].
  cbn [Engine.apply_merges]. unfold Engine.lowest_rank.
  destruct (find (fun e => Engine.has_pair ids (fst e)) m) as [[pr idx]|] eqn:Ef;
    [|exact He].
  apply find_some in Ef. destruct Ef as [Hin _].
  rewrite Forall_forall in Hm. apply IH. apply expand_merge; auto.
Qed.

Lemma expand_bytes voc (ids : list Z) :
  (forall i, 0 <= i <= 255 -> dict_get Z.eqb i voc = Some [i]) ->
  Forall (fun b => 0 <= b <= 255) ids -> expand voc ids = Some ids.
Proof.
  intros Hb. induction 1 as [|a r Ha Hr IH]; [reflexivity|].
  cbn [expand]. rewrite (Hb a Ha), IH. reflexivity.
Qed.

Lemma expand_in_vocab voc (ids bs : list Z) :
  expand voc ids = Some bs -> forall id, In id ids -> In id (map fst voc).
Proof.
  revert bs. induction ids as [|a r IH]; intros bs He id Hin; [destruct Hin|].
  apply expand_cons in He. destruct He as (b & e & Ha & He & _).
  destruct Hin as [<-|Hin]; [eapply dict_get_some_in; eauto | eapply IH; eauto].
Qed.

(** *** Decoding what a chunk was encoded to *)

Lemma mapM_app {A B} (f : A -> result B) (l1 l2 : list A) (r1 r2 : list B) :
  mapM f l1 = Ok r1 -> mapM f l2 = Ok r2 -> mapM f (l1 ++ l2) = Ok (r1 ++ r2).
Proof.
  revert r1. induction l1 as [|x l IH]; intros r1 H1 H2.
  - cbn in H1. injection H1 as <-. exact H2.
  - cbn [mapM app] in *. apply bind_ok in H1. destruct H1 as [y [Hy H1]].
    apply bind_ok in H1. destruct H1 as [ys [Hys H1]]. injection H1 as <-.
    rewrite Hy. cbn [bind]. rewrite (IH ys Hys H2). reflexivity.
Qed.

Lemma decodes_nil (t : Tokenizer) : decodes t [] [].
Proof. exists []. split; reflexivity. Qed.

Lemma decodes_app (t : Tokenizer) (i1 i2 b1 b2 : list Z) :
  decodes t i1 b1 -> decodes t i2 b2 -> decodes t (i1 ++ i2) (b1 ++ b2).
Proof.
  intros (p1 & H1 & <-) (p2 & H2 & <-). exists (p1 ++ p2).
  split; [now apply mapM_app | apply concat_app].
Qed.

Lemma mapM_permute (t : Tokenizer) (chunk : list Z) :
  perm_ok t -> Forall is_byte chunk ->
  exists ps, mapM (Engine.permute t) chunk = Ok ps
             /\ Forall2 (permuted t) chunk ps /\ Forall is_byte ps.
Proof.
  intros Hp. induction 1 as [|b r Hb Hr IH].
  - exists []. repeat split; constructor.
  - destruct IH as (ps & Hm & Hf & Hs). destruct (Hp b Hb) as (p & Hpr & Hperm & Hun).
    exists (p :: ps). cbn [mapM]. rewrite Hperm. cbn [bind]. rewrite Hm.
    repeat split; constructor; auto. split; assumption.
Qed.

Lemma mapM_unpermute (t : Tokenizer) (c ps : list Z) :
  Forall2 (permuted t) c ps -> mapM (Engine.unpermute t) ps = Ok c.
Proof.
  induction 1 as [|b p c ps [_ Hun] _ IH]; [reflexivity|].
  cbn [mapM]. rewrite Hun. cbn [bind]. rewrite IH. reflexivity.
Qed.

Lemma not_special (t : Tokenizer) (id : Z) :
  specials_ok t -> In id (map fst (vocab t)) -> Engine.special_literal t id = None.
Proof.
  intros [_ Hd] Hin. destruct (Engine.special_literal t id) as [lit|] eqn:E;
    [|reflexivity].
  exfalso. apply special_literal_in in E. exact (Hd id E Hin).
Qed.

Lemma decodes_expand (t : Tokenizer) (ids : list Z) :
  specials_ok t ->
  forall ps chunk,
    expand (vocab t) ids = Some ps -> Forall2 (permuted t) chunk ps ->
    decodes t ids chunk.
Proof.
  intros Hs. induction ids as [|a r IH]; intros ps chunk He Hf.
  - cbn in He. injection He as <-. inversion Hf; subst. apply decodes_nil.
  - apply expand_cons in He. destruct He as (b & e & Ha & He & ->).
    apply Forall2_app_inv_r in Hf. destruct Hf as (c1 & c2 & H1 & H2 & ->).
    destruct (IH e c2 He H2) as (parts & Hm & Hc).
    exists (c1 :: parts). split; [|cbn [List.concat]; now rewrite Hc].
    cbn [mapM]. unfold Engine.decode_id at 1.
    rewrite (not_special t a Hs (dict_get_some_in _ _ _ Ha)), Ha.
    rewrite (mapM_unpermute t c1 b H1). cbn [bind]. rewrite Hm. reflexivity.
Qed.

Section RoundTrip.
Context {rt : Runtime}.

Lemma encode_chunk_decodes (t : Tokenizer) (chunk : list Z) :
  merges_ok t -> specials_ok t -> perm_ok t -> Forall is_byte chunk ->
  exists ids, Engine.encode_chunk t chunk = Ok ids /\ decodes t ids chunk.
Proof.
  intros Hm Hs Hp Hb.
  destruct (mapM_permute t chunk Hp Hb) as (ps & Hps & Hf & Hr).
  destruct (merges_ok_vocab t Hm) as [Hbase Hall].
  unfold Engine.encode_chunk. rewrite Hps. cbn [bind]. eexists. split; [reflexivity|].
  apply (decodes_expand t _ Hs ps chunk); [|exact Hf].
  apply expand_apply_merges; [exact Hall|]. now apply expand_bytes.
Qed.

Lemma encode_chunks_decode (t : Tokenizer) (chunks : list (list Z)) :
  merges_ok t -> specials_ok t -> perm_ok t -> Forall (Forall is_byte) chunks ->
  exists parts, mapM (Engine.encode_chunk t) chunks = Ok parts
                /\ decodes t (List.concat parts) (List.concat chunks).
Proof.
  intros Hm Hs Hp. induction 1 as [|c r Hc Hr IH].
  - exists []. split; [reflexivity | apply decodes_nil].
  - destruct IH as (parts & Hparts & Hd).
    destruct (encode_chunk_decodes t c Hm Hs Hp Hc) as (ids & Hids & Hdc).
    exists (ids :: parts). cbn [mapM]. rewrite Hids. cbn [bind]. rewrite Hparts.
    split; [reflexivity|]. cbn [List.concat]. now apply decodes_app.
Qed.

End RoundTrip.

(** *** Splitting on special tokens *)

Lemma is_prefix_skipn (p l : list Z) :
  Engine.is_prefix p l = true -> l = p ++ skipn (List.length p) l.
Proof.
  revert l. induction p as [|a p IH]; intros l H; [reflexivity|].
  destruct l as [|b l]; [discriminate|]. cbn [Engine.is_prefix] in H.
  apply andb_prop in H. destruct H as [Hab H]. apply Z.eqb_eq in Hab. subst b.
  cbn [List.length skipn app]. f_equal. now apply IH.
Qed.

Lemma longest_match_some (sp : list (list Z * Z)) (text lit : list Z) (id : Z) :
  Engine.longest_match sp text = Some (lit, id) ->
  In (lit, id) sp /\ lit <> [] /\ Engine.is_prefix lit text = true.
Proof.
  induction sp as [|[l i] r IH]; cbn [Engine.longest_match]; [discriminate|].
  destruct (match l with [] => false | _ => Engine.is_prefix l text end) eqn:E.
  - destruct (Engine.longest_match r text) as [[l' i']|] eqn:Er.
    + destruct (List.length l <? List.length l')%nat.
      * intros H. destruct (IH H) as (? & ? & ?). repeat split; auto. now right.
      * intros [= <- <-]. destruct l; [discriminate|].
        repeat split; [now left | discriminate | exact E].
    + intros [= <- <-]. destruct l; [discriminate|].
      repeat split; [now left | discriminate | exact E].
  - intros H. destruct (IH H) as (? & ? & ?). repeat split; auto. now right.
Qed.

Lemma cons_plain_bytes (b : Z) (segs : list Engine.segment) :
  List.concat (map seg_bytes (Engine.cons_plain b segs))
  = b :: List.concat (map seg_bytes segs).
Proof.
  destruct segs as [|[id lit|span] r]; reflexivity.
Qed.

Lemma split_from_bytes (sp : list (list Z * Z)) (text : list Z) :
  forall skip,
    List.concat (map seg_bytes (Engine.split_from sp skip text)) = skipn skip text.
Proof.
  induction text as [|b r IH]; intros skip.
  - destruct skip; reflexivity.
  - cbn [Engine.split_from]. destruct skip as [|k]; [|apply IH].
    destruct (Engine.longest_match sp (b :: r)) as [[lit id]|] eqn:E.
    + apply longest_match_some in E. destruct E as (_ & Hne & Hp).
      destruct lit as [|a lit]; [contradiction|].
      cbn [Engine.is_prefix] in Hp. apply andb_prop in Hp. destruct Hp as [Hab Hp].
      apply Z.eqb_eq in Hab. subst a.
      cbn [map List.concat seg_bytes List.length skipn app].
      rewrite IH. replace (S (List.length lit) - 1)%nat with (List.length lit) by lia.
      f_equal. symmetry. now apply is_prefix_skipn.
    + rewrite cons_plain_bytes, IH. reflexivity.
Qed.

Lemma split_from_known (sp : list (list Z * Z)) (text : list Z) :
  forall skip, Forall (seg_known sp) (Engine.split_from sp skip text).
Proof.
  induction text as [|b r IH]; intros skip; [constructor|].
  cbn [Engine.split_from]. destruct skip as [|k]; [|apply IH].
  destruct (Engine.longest_match sp (b :: r)) as [[lit id]|] eqn:E.
  - constructor; [|apply IH]. apply longest_match_some in E. apply E.
  - specialize (IH O). unfold Engine.cons_plain.
    destruct (Engine.split_from sp 0 r) as [|[id lit|span] segs].
    + constructor; [exact I | constructor].
    + constructor; [exact I | exact IH].
    + inversion IH; subst. constructor; [exact I | assumption].
Qed.

Lemma find_unique (l : list (list Z * Z)) (lit : list Z) (id : Z) :
  NoDup (map snd l) -> In (lit, id) l ->
  find (fun e => snd e =? id) l = Some (lit, id).
Proof.
  induction l as [|[l0 i0] r IH]; cbn [map find snd]; intros N Hin; [destruct Hin|].
  inversion N as [|? ? Hn Nr]; subst. destruct Hin as [[= -> ->]|Hin].
  - now rewrite Z.eqb_refl.
  - destruct (Z.eqb_spec i0 id) as [->|Hne]; [|now apply IH].
    exfalso. apply Hn. change id with (snd (lit, id)). now apply in_map.
Qed.

Lemma decodes_special (t : Tokenizer) (lit : list Z) (id : Z) :
  specials_ok t -> In (lit, id) (Engine.specials_of t) -> decodes t [id] lit.
Proof.
  intros [N _] Hin. exists [lit]. split; [|cbn; apply app_nil_r].
  cbn [mapM]. unfold Engine.decode_id, Engine.special_literal.
  rewrite (find_unique _ lit id N Hin). reflexivity.
Qed.

(** *** Encoder then decoder *)

Section RoundTripText.
Context {rt : Runtime}.

Lemma encode_segments_decode (t : Tokenizer) (segs : list Engine.segment) :
  valid_state t ->
  Forall (seg_known (Engine.specials_of t)) segs ->
  Forall is_byte (List.concat (map seg_bytes segs)) ->
  exists parts, mapM (Engine.encode_segment t) segs = Ok parts
                /\ decodes t (List.concat parts) (List.concat (map seg_bytes segs)).
Proof.
  intros (Hm & Hs & Hp & Hseg). induction 1 as [|s r Hk Hr IH]; intros Hb.
  - exists []. split; [reflexivity | apply decodes_nil].
  - cbn [map List.concat] in Hb. apply Forall_app in Hb. destruct Hb as [Hb1 Hb2].
    destruct (IH Hb2) as (parts & Hparts & Hd).
    assert (Hone : exists ids, Engine.encode_segment t s = Ok ids
                               /\ decodes t ids (seg_bytes s)).
    { destruct s as [id lit|span]; cbn [Engine.encode_segment seg_bytes] in *.
      - exists [id]. split; [reflexivity | now apply decodes_special].
      - assert (Hc : Forall (Forall is_byte) (Engine.chunks_of t span)).
        { apply Forall_concat. now rewrite Hseg. }
        destruct (encode_chunks_decode t _ Hm Hs Hp Hc) as (ps & Hps & Hdp).
        rewrite Hps. cbn [bind]. eexists. split; [reflexivity|].
        now rewrite Hseg in Hdp. }
    destruct Hone as (ids & Hids & Hdi).
    exists (ids :: parts). cbn [mapM]. rewrite Hids. cbn [bind]. rewrite Hparts.
    split; [reflexivity|]. cbn [map List.concat]. now apply decodes_app.
Qed.

(** C1: for every tokenizer state that satisfies the data model's
    invariants and every text that is well-formed UTF-8, encoding succeeds
    and decoding the ids gives the text back exactly. *)
Theorem decode_encode_roundtrip (t : Tokenizer) (text : string) :
  valid_state t ->
  str_valid text = true ->
  exists ids, Engine.encode t text = Ok ids
              /\ Engine.decode t (VList (map VInt ids)) = Ok text.
Proof.
  intros Hv Hu. unfold Engine.encode, Engine.split_special.
  pose proof (split_from_bytes (Engine.specials_of t) (bytes_of_string text) O) as Hb.
  cbn [skipn] in Hb.
  destruct (encode_segments_decode t _ Hv
              (split_from_known (Engine.specials_of t) (bytes_of_string text) O))
    as (parts & Hparts & Hd).
  { rewrite Hb. apply bytes_in_range. }
  rewrite Hparts. cbn [bind]. eexists. split; [reflexivity|].
  rewrite Hb in Hd. destruct Hd as (ps & Hps & Hc).
  unfold Engine.decode. rewrite mapM_as_int. cbn [bind]. rewrite Hps. cbn [bind].
  rewrite Hc, (utf8_replace_valid _ Hu), string_of_bytes_of_string. reflexivity.
Qed.

End RoundTripText.

Lemma identity_perm_ok (t : Tokenizer) : byte_shuffle t = None -> perm_ok t.
Proof.
  intros H b Hb. exists b. unfold Engine.permute, Engine.unpermute. rewrite H. auto.
Qed.

Lemma bijection_perm_ok (t : Tokenizer) (l : list (Z * Z)) :
  byte_shuffle t = Some (VDict (int_table l)) ->
  inverse_byte_shuffle t = Some (int_table (map swap l)) ->
  byte_bijection l = true ->
  perm_ok t.
Proof.
  intros Hf Hi Hbij b Hb.
  destruct (byte_bijection_total l b Hbij Hb) as [(p & Hp & Hg) _].
  assert (Hn := Hbij). unfold byte_bijection in Hn.
  repeat (apply andb_prop in Hn; destruct Hn as [Hn ?]).
  assert (Nk : NoDup (map fst l)) by now apply nodupb_NoDup.
  assert (Nv : NoDup (map snd l)) by now apply nodupb_NoDup.
  assert (E : dict_get key_eqb (VInt b) (int_table l) = Some (VInt p)).
  { rewrite dict_get_int_table, Hg. reflexivity. }
  exists p. split; [exact Hp|]. unfold Engine.permute, Engine.unpermute.
  rewrite Hf, Hi, E, (proj1 (inverse_exact l b p Nk Nv) E). auto.
Qed.

Lemma sample_gpt4_valid : @valid_state Sample.runtime Sample.gpt4.
Proof.
  split; [|split; [|split]].
  - split; [reflexivity | vm_compute; reflexivity].
  - split; [cbn; constructor; [tauto | constructor]|].
    intros id Hid Hin. cbn in Hid. destruct Hid as [<-|[]].
    apply existsb_eqb_In in Hin. vm_compute in Hin. discriminate Hin.
  - apply (bijection_perm_ok Sample.gpt4 Sample.shuffle); [reflexivity | reflexivity|].
    vm_compute. reflexivity.
  - intros span. cbn. apply app_nil_r.
Qed.

Lemma decode_encode_roundtrip_witness :
  str_valid Sample.text = true
  /\ exists ids, @Engine.encode Sample.runtime Sample.gpt4 Sample.text = Ok ids
                 /\ Engine.decode Sample.gpt4 (VList (map VInt ids)) = Ok Sample.text.
Proof.
  split; [reflexivity|].
  exact (@decode_encode_roundtrip Sample.runtime Sample.gpt4 Sample.text
           sample_gpt4_valid eq_refl).
Defined.

(** *** Trained states are valid *)

Lemma ids_from_app (m : list ((Z * Z) * Z)) (pr : Z * Z) :
  forall start, ids_from start m = true ->
                ids_from start (m ++ [(pr, start + Z.of_nat (List.length m))]) = true.
Proof.
  induction m as [|[q idx] r IH]; intros start H.
  - cbn. rewrite Z.add_0_r, Z.eqb_refl. reflexivity.
  - cbn [ids_from app] in *. apply andb_prop in H. destruct H as [-> H].
    cbn [andb]. specialize (IH (start + 1) H).
    replace (start + Z.of_nat (List.length ((q, idx) :: r)))
      with (start + 1 + Z.of_nat (List.length r)) by (cbn [List.length]; lia).
    exact IH.
Qed.

Lemma train_loop_contiguous (n : nat) :
  forall next chunks m,
    ids_from 256 m = true -> next = 256 + Z.of_nat (List.length m) ->
    ids_from 256 (Engine.train_loop n next chunks m) = true.
Proof.
  induction n as [|n IH]; intros next chunks m Hm Hn; [exact Hm|].
  cbn [Engine.train_loop].
  destruct (Engine.best_pair _) as [[pr c]|]; [|exact Hm].
  apply IH.
  - subst next. now apply ids_from_app.
  - rewrite length_app. cbn [List.length]. lia.
Qed.

Lemma train_valid {rt : Runtime} (t0 t : Tokenizer) (text : string) (vocab_size : Z) :
  Engine.train t0 text vocab_size = Ok t ->
  Engine.specials_of t0 = [] -> perm_ok t0 -> segmenter_ok t0 ->
  valid_state t.
Proof.
  unfold Engine.train. intros H Hs Hp Hseg.
  destruct (klass_of t0); try discriminate;
    (destruct (vocab_size <? 256); [discriminate|];
     apply bind_ok in H; destruct H as [chunks [_ H]];
     apply bind_ok in H; destruct H as [voc [Hr H]]; injection H as <-;
     split; [|split; [|split]];
     [ split; [now apply train_loop_contiguous | exact Hr]
     | unfold specials_ok; change (Engine.specials_of _) with (Engine.specials_of t0);
       rewrite Hs; split; [constructor | intros id []]
     | exact Hp
     | exact Hseg ]).
Qed.

(** ** The trainer's choice does not depend on counting order *)

Lemma better_spec (x y : (Z * Z) * Z) :
  Engine.better x y = true <->
  snd y < snd x
  \/ (snd x = snd y
      /\ (fst (fst x) < fst (fst y)
          \/ (fst (fst x) = fst (fst y) /\ snd (fst x) < snd (fst y)))).
Proof.
  unfold Engine.better, Engine.pair_ltb.
  repeat (rewrite orb_true_iff || rewrite andb_true_iff).
  rewrite !Z.ltb_lt, !Z.eqb_eq. tauto.
Qed.

Lemma better_false (x y : (Z * Z) * Z) :
  Engine.better x y = false <-> ~ Engine.better x y = true.
Proof. destruct (Engine.better x y); split; congruence. Qed.

Lemma better_trans (x y z : (Z * Z) * Z) :
  Engine.better x y = true -> Engine.better y z = true -> Engine.better x z = true.
Proof. rewrite !better_spec. lia. Qed.

Lemma better_total (x y : (Z * Z) * Z) :
  fst x <> fst y -> Engine.better x y = true \/ Engine.better y x = true.
Proof.
  rewrite !better_spec. destruct x as [[a b] c], y as [[a' b'] c']. cbn.
  intros H. assert (a <> a' \/ b <> b') by (destruct (Z.eq_dec a a'); [right|left]; congruence).
  lia.
Qed.

(** The fold of [best_pair] keeps an entry that nothing seen is better
    than. *)
Lemma best_fold_max (l : list ((Z * Z) * Z)) :
  forall a e,
    fold_left (fun acc e => match acc with
                            | None => Some e
                            | Some a => if Engine.better e a then Some e else Some a
                            end) l (Some a) = Some e ->
    (e = a \/ In e l) /\ Engine.better a e = false
    /\ (forall y, In y l -> Engine.better y e = false).
Proof.
  induction l as [|x r IH]; intros a e H.
  - cbn in H. injection H as <-. split; [now left|].
    split; [|intros y []]. apply better_false. rewrite better_spec. lia.
  - cbn [fold_left] in H. destruct (Engine.better x a) eqn:Exa.
    + destruct (IH x e H) as (Hin & Hx & Hall). split.
      { destruct Hin as [->|Hin]; right; [now left | now right]. }
      split.
      * apply better_false. intros Hae.
        pose proof (better_trans _ _ _ Exa Hae) as Hxe. congruence.
      * intros y [<-|Hy]; [exact Hx | now apply Hall].
    + destruct (IH a e H) as (Hin & Ha & Hall). split.
      { destruct Hin as [->|Hin]; [now left | right; now right]. }
      split; [exact Ha|]. intros y [<-|Hy]; [|now apply Hall].
      apply better_false. intros Hxe. destruct Hin as [->|Hin]; [congruence|].
      apply better_false in Exa, Ha. rewrite better_spec in *. lia.
Qed.

Lemma best_fold_some (l : list ((Z * Z) * Z)) :
  forall a, fold_left (fun acc e => match acc with
                                    | None => Some e
                                    | Some a => if Engine.better e a then Some e else Some a
                                    end) l (Some a) <> None.
Proof.
  induction l as [|x r IH]; intros a; cbn [fold_left]; [discriminate|].
  destruct (Engine.better x a); apply IH.
Qed.

Lemma best_pair_max (stats : list ((Z * Z) * Z)) (e : (Z * Z) * Z) :
  Engine.best_pair stats = Some e ->
  In e stats /\ forall y, In y stats -> Engine.better y e = false.
Proof.
  unfold Engine.best_pair. destruct stats as [|x r]; [discriminate|].
  cbn [fold_left]. intros H. destruct (best_fold_max r x e H) as (Hin & Hx & Hall).
  split; [destruct Hin as [->|Hin]; [now left | now right]|].
  intros y [<-|Hy]; [exact Hx | now apply Hall].
Qed.

Lemma best_pair_none (stats : list ((Z * Z) * Z)) :
  Engine.best_pair stats = None -> stats = [].
Proof.
  unfold Engine.best_pair. destruct stats as [|x r]; [reflexivity|].
  cbn [fold_left]. intros H. now apply best_fold_some in H.
Qed.

Lemma NoDup_fst_inj {K V} (l : list (K * V)) (x y : K * V) :
  NoDup (map fst l) -> In x l -> In y l -> fst x = fst y -> x = y.
Proof.
  induction l as [|z r IH]; intros N Hx Hy E; [destruct Hx|].
  cbn in N. inversion N as [|? ? Hz Nr]; subst.
  destruct Hx as [->|Hx], Hy as [->|Hy]; [reflexivity| | |now apply IH].
  - exfalso. apply Hz. rewrite E. now apply in_map.
  - exfalso. apply Hz. rewrite <- E. now apply in_map.
Qed.

Lemma pair_eq_dec_fst (e e' : (Z * Z) * Z) : {fst e = fst e'} + {fst e <> fst e'}.
Proof. decide equality; apply Z.eq_dec. Qed.

(** The tie-break makes the choice a function of the counts alone: the
    order in which the pairs were entered in the table does not matter. *)
Lemma best_pair_perm (s s' : list ((Z * Z) * Z)) :
  NoDup (map fst s) -> Permutation s s' ->
  Engine.best_pair s = Engine.best_pair s'.
Proof.
  intros N P.
  destruct (Engine.best_pair s) as [e|] eqn:E, (Engine.best_pair s') as [e'|] eqn:E'.
  - apply best_pair_max in E, E'. destruct E as [Hin Hmax], E' as [Hin' Hmax'].
    f_equal. apply (NoDup_fst_inj s); auto.
    + eapply Permutation_in; [symmetry; exact P | exact Hin'].
    + destruct (pair_eq_dec_fst e e') as [Heq|Hne]; [exact Heq|].
      exfalso. destruct (better_total e e' Hne) as [H|H].
      * rewrite Hmax' in H; [discriminate|]. eapply Permutation_in; eauto.
      * rewrite Hmax in H; [discriminate|].
        eapply Permutation_in; [symmetry; exact P | exact Hin'].
  - apply best_pair_none in E'. subst s'. apply Permutation_sym, Permutation_nil in P.
    subst s. discriminate.
  - apply best_pair_none in E. subst s. apply Permutation_nil in P.
    subst s'. discriminate.
  - reflexivity.
Qed.

Lemma pair_eqb_eq (a b : Z * Z) : pair_eqb a b = true <-> a = b.
Proof.
  unfold pair_eqb. destruct a as [a1 a2], b as [b1 b2]. cbn.
  rewrite andb_true_iff, !Z.eqb_eq. split; [intros [-> ->]; reflexivity|].
  intros [= -> ->]. auto.
Qed.

Lemma pair_eqb_refl (a : Z * Z) : pair_eqb a a = true.
Proof. now apply pair_eqb_eq. Qed.

Lemma pair_get_set_eq (k : Z * Z) (v : Z) (d : list ((Z * Z) * Z)) :
  dict_get pair_eqb k (dict_set pair_eqb k v d) = Some v.
Proof.
  induction d as [|[k' w] r IH]; cbn [dict_set dict_get].
  - now rewrite pair_eqb_refl.
  - destruct (pair_eqb k k') eqn:E; cbn [dict_get]; rewrite E; [reflexivity | exact IH].
Qed.

Lemma pair_get_set_neq (k j : Z * Z) (v : Z) (d : list ((Z * Z) * Z)) :
  pair_eqb j k = false ->
  dict_get pair_eqb j (dict_set pair_eqb k v d) = dict_get pair_eqb j d.
Proof.
  intros Hne. induction d as [|[k' w] r IH]; cbn [dict_set dict_get].
  - now rewrite Hne.
  - destruct (pair_eqb k k') eqn:E; cbn [dict_get].
    + apply pair_eqb_eq in E. subst k'. now rewrite Hne.
    + destruct (pair_eqb j k'); [reflexivity | exact IH].
Qed.

Lemma pair_get_none (k : Z * Z) (d : list ((Z * Z) * Z)) :
  dict_get pair_eqb k d = None <-> ~ In k (map fst d).
Proof.
  induction d as [|[k' w] r IH]; cbn [dict_get map fst In]; [tauto|].
  destruct (pair_eqb k k') eqn:E.
  - apply pair_eqb_eq in E. subst k'. split; [discriminate | tauto].
  - rewrite IH. split; [|tauto]. intros H [->|Hin]; [|tauto].
    rewrite pair_eqb_refl in E. discriminate.
Qed.

Lemma pair_get_in (k : Z * Z) (n : Z) (d : list ((Z * Z) * Z)) :
  NoDup (map fst d) -> (dict_get pair_eqb k d = Some n <-> In (k, n) d).
Proof.
  induction d as [|[k' w] r IH]; cbn [dict_get map fst In]; intros N.
  - split; [discriminate | tauto].
  - inversion N as [|? ? Hk Nr]; subst. destruct (pair_eqb k k') eqn:E.
    + apply pair_eqb_eq in E. subst k'. split.
      * intros [= ->]. now left.
      * intros [[= ->]|Hin]; [reflexivity|].
        exfalso. apply Hk. change k with (fst (k, n)). now apply in_map.
    + rewrite (IH Nr). split; [tauto|]. intros [[= -> ->]|Hin]; [|exact Hin].
      rewrite pair_eqb_refl in E. discriminate.
Qed.

Lemma dict_set_stats_ok (k : Z * Z) (v : Z) (d : list ((Z * Z) * Z)) :
  0 < v -> stats_ok d -> stats_ok (dict_set pair_eqb k v d).
Proof.
  intros Hv [N P]. induction d as [|[k' w] r IH]; cbn [dict_set].
  - split; [cbn; constructor; [tauto | constructor] | constructor; [exact Hv | constructor]].
  - inversion N as [|? ? Hk Nr]; subst. inversion P as [|? ? Hw Pr]; subst.
    destruct (pair_eqb k k') eqn:E.
    + split; [exact N | constructor; [exact Hv | exact Pr]].
    + destruct (IH Nr Pr) as [N' P']. split; [|constructor; assumption].
      cbn [map fst]. constructor; [|exact N'].
      intros Hin. apply Hk. apply pair_get_none in Hin; [contradiction|].
      rewrite pair_get_set_neq; [now apply pair_get_none|].
      destruct (pair_eqb k' k) eqn:E'; [|reflexivity].
      apply pair_eqb_eq in E'. subst k'. rewrite pair_eqb_refl in E. discriminate.
Qed.

Lemma incr_spec (p : Z * Z) (stats : list ((Z * Z) * Z)) :
  stats_ok stats ->
  stats_ok (Engine.incr p stats)
  /\ forall k, cnt (Engine.incr p stats) k
               = cnt stats k + (if pair_eqb k p then 1 else 0).
Proof.
  intros Hok. unfold Engine.incr.
  assert (Hpos : forall n, dict_get pair_eqb p stats = Some n -> 0 < n).
  { intros n Hn. destruct Hok as [N P]. apply (pair_get_in p n stats N) in Hn.
    rewrite Forall_forall in P. exact (P _ Hn). }
  destruct (dict_get pair_eqb p stats) as [n|] eqn:E.
  - specialize (Hpos n eq_refl). split; [apply dict_set_stats_ok; [lia | exact Hok]|].
    intros k. unfold cnt. destruct (pair_eqb k p) eqn:Ek.
    + apply pair_eqb_eq in Ek. subst k. rewrite pair_get_set_eq, E. reflexivity.
    + rewrite pair_get_set_neq by exact Ek. lia.
  - split; [apply dict_set_stats_ok; [lia | exact Hok]|].
    intros k. unfold cnt. destruct (pair_eqb k p) eqn:Ek.
    + apply pair_eqb_eq in Ek. subst k. rewrite pair_get_set_eq, E. reflexivity.
    + rewrite pair_get_set_neq by exact Ek. lia.
Qed.

Lemma count_pairs_spec (ids : list Z) :
  forall stats, stats_ok stats ->
                stats_ok (Engine.count_pairs ids stats)
                /\ forall k, cnt (Engine.count_pairs ids stats) k = cnt stats k + occ k ids.
Proof.
  induction ids as [|a r IH]; intros stats Hok.
  - split; [exact Hok | intros k; cbn; lia].
  - destruct r as [|b r'].
    + split; [exact Hok | intros k; cbn; lia].
    + change (Engine.count_pairs (a :: b :: r') stats)
        with (Engine.count_pairs (b :: r') (Engine.incr (a, b) stats)).
      destruct (incr_spec (a, b) stats Hok) as [Hok' Hc].
      destruct (IH _ Hok') as [Hok'' Hc'']. split; [exact Hok''|].
      intros k. rewrite Hc'', Hc.
      change (occ k (a :: b :: r'))
        with ((if pair_eqb k (a, b) then 1 else 0) + occ k (b :: r')).
      lia.
Qed.

Lemma pooled_spec (chunks : list (list Z)) :
  forall stats, stats_ok stats ->
                stats_ok (fold_left (fun st c => Engine.count_pairs c st) chunks stats)
                /\ forall k, cnt (fold_left (fun st c => Engine.count_pairs c st)
                                    chunks stats) k
                             = cnt stats k + occ_all k chunks.
Proof.
  induction chunks as [|c r IH]; intros stats Hok.
  - split; [exact Hok | intros k; cbn; lia].
  - cbn [fold_left]. destruct (count_pairs_spec c stats Hok) as [Hok' Hc].
    destruct (IH _ Hok') as [Hok'' Hc'']. split; [exact Hok''|].
    intros k. rewrite Hc'', Hc. cbn [occ_all fold_right]. fold (occ_all k r). lia.
Qed.

Lemma occ_all_perm (k : Z * Z) (c c' : list (list Z)) :
  Permutation c c' -> occ_all k c = occ_all k c'.
Proof.
  induction 1 as [|x l l' _ IH|x y l|l l' l'' _ IH1 _ IH2]; cbn [occ_all fold_right].
  - reflexivity.
  - fold (occ_all k l) (occ_all k l'). lia.
  - lia.
  - congruence.
Qed.

Lemma stats_perm (s s' : list ((Z * Z) * Z)) :
  stats_ok s -> stats_ok s' -> (forall k, cnt s k = cnt s' k) -> Permutation s s'.
Proof.
  assert (G : forall s s', stats_ok s -> stats_ok s' ->
                           (forall k, cnt s k = cnt s' k) ->
                           forall x, In x s -> In x s').
  { clear s s'. intros s s' [N P] [N' P'] Hc [k n] Hin.
    rewrite Forall_forall in P. pose proof (P _ Hin) as Hn. cbn in Hn.
    apply (pair_get_in k n s N) in Hin. apply (pair_get_in k n s' N').
    specialize (Hc k). unfold cnt in Hc. rewrite Hin in Hc.
    destruct (dict_get pair_eqb k s') as [m|]; [congruence | lia]. }
  intros Hs Hs' Hc. apply NoDup_Permutation.
  - destruct Hs as [N _]. now apply NoDup_map_inv in N.
  - destruct Hs' as [N _]. now apply NoDup_map_inv in N.
  - intros x. split; apply G; auto.
Qed.

(** The merge table the training loop produces does not depend on the
    order in which the chunks are counted and rewritten. *)
Lemma train_loop_chunk_order (n : nat) :
  forall next chunks chunks' m,
    Permutation chunks chunks' ->
    Engine.train_loop n next chunks m = Engine.train_loop n next chunks' m.
Proof.
  induction n as [|n IH]; intros next chunks chunks' m P; [reflexivity|].
  cbn [Engine.train_loop].
  assert (Hnil : stats_ok []) by (split; constructor).
  destruct (pooled_spec chunks [] Hnil) as [Hok Hc].
  destruct (pooled_spec chunks' [] Hnil) as [Hok' Hc'].
  rewrite (best_pair_perm _ (fold_left (fun st c => Engine.count_pairs c st) chunks' [])).
  - destruct (Engine.best_pair _) as [[pr c]|]; [|reflexivity].
    apply IH. now apply Permutation_map.
  - apply Hok.
  - apply stats_perm; auto. intros k. rewrite Hc, Hc'. f_equal. now apply occ_all_perm.
Qed.

(** ** Export followed by import, basic variant *)

Lemma jsonify_merges_items (m : list ((Z * Z) * Z)) :
  jsonify (merges_items m) = Ok (merges_items m).
Proof.
  unfold merges_items. induction m as [|[[p0 p1] idx] r IH]; [reflexivity|].
  cbn [map fst snd]. cbn [jsonify bind] in *.
  destruct ((fix go (l : list pyval) : result (list pyval) :=
               match l with
               | [] => Ok []
               | x :: r0 => let* y := jsonify x in let* ys := go r0 in Ok (y :: ys)
               end)
              (map (fun e => VList [VList [VInt (fst (fst e)); VInt (snd (fst e))];
                                    VInt (snd e)]) r)) as [l'|e];
    [|discriminate].
  cbn [bind] in *. injection IH as ->. reflexivity.
Qed.

Lemma dict_of_merges (m : list ((Z * Z) * Z)) :
  NoDup (map fst m) -> dict_of_list pair_eqb m = m.
Proof.
  unfold dict_of_list.
  assert (G : forall (l acc : list ((Z * Z) * Z)), NoDup (map fst (acc ++ l)) ->
              fold_left (fun d kv => dict_set pair_eqb (fst kv) (snd kv) d) l acc
              = acc ++ l).
  { induction l as [|[k v] r IH]; intros acc N; cbn [fold_left fst snd].
    - now rewrite app_nil_r.
    - rewrite dict_set_fresh.
      + rewrite IH; now rewrite <- app_assoc.
      + apply pair_get_none. rewrite map_app in N. apply NoDup_remove_2 in N.
        intros Hin. apply N. apply in_or_app. now left. }
  intros N. exact (G m [] N).
Qed.

(** For a basic tokenizer whose merge table has distinct pairs and whose
    vocabulary is the replay of the table, importing the configuration
    that export wrote to a JSON file gives the tokenizer back. *)
Lemma persisted_basic_roundtrip {rt : Runtime} {pre : Engine.Pretrained}
  (m : list ((Z * Z) * Z)) (voc : list (Z * list Z)) :
  NoDup (map fst m) ->
  Engine.replay m Engine.base_vocab = Ok voc ->
  let tk := mkTokenizer KBasic voc (Some m) (Some (VDict [])) None None None None in
  exists config', persisted_config tk (VStr "basic") = Ok config'
                  /\ @load_tokenizer_from_config rt Engine.minbpe config' = Ok tk.
Proof.
  intros N Hr tk. unfold persisted_config, export_tokenizer_config.
  cbn [special_tokens merges pattern vocab byte_shuffle tk py_dict bind key_eqb
       String.eqb Ascii.eqb Bool.eqb].
  rewrite jsonify_dict. cbn [jsonify_items json_key bind].
  rewrite jsonify_merges_items.
  change (jsonify (VStr "basic")) with (@Ok pyval (VStr "basic")).
  change (jsonify (VInt ?n)) with (@Ok pyval (VInt n)).
  change (jsonify (VDict [])) with (@Ok pyval (VDict [])).
  change (jsonify (VStr "")) with (@Ok pyval (VStr "")).
  change (jsonify metadata) with (@Ok pyval metadata).
  cbn [bind]. eexists. split; [reflexivity|].
  unfold load_tokenizer_from_config.
  cbn [dict_of_list fold_left fst snd dict_set key_eqb String.eqb Ascii.eqb Bool.eqb
       getitem dict_get bind create_tokenizer BasicTokenizer Engine.minbpe
       Engine.BasicTokenizer].
  unfold load_merges, load_special_tokens, load_pattern, load_byte_shuffle, truthy_item.
  cbn [dict_get key_eqb String.eqb Ascii.eqb Bool.eqb truthy bind].
  destruct m as [|e r].
  - cbn in Hr. injection Hr as <-. reflexivity.
  - change (truthy (merges_items (e :: r))) with true. cbn iota.
    rewrite merges_of_config_items, (dict_of_merges _ N). cbn [bind].
    cbn [_build_vocab Engine.minbpe]. unfold Engine.build_vocab.
    cbn [merges set_merges]. rewrite Hr. reflexivity.
Qed.

(** ** Outside the invariants *)

(** The round trip needs the merge-table invariant: on the tokenizer
    imported from a table whose result id 256 is used twice, "ab" is
    encoded to 256 and decoded to "bc". *)
Example roundtrip_needs_contiguous_ids :
  exists tk,
    @load_tokenizer_from_config Sample.runtime Sample.library
      (merges_config "basic" [((97, 98), 256); ((98, 99), 256)]) = Ok tk
    /\ @encode Sample.library tk "ab" = Ok [256]
    /\ @decode Sample.library tk (VList [VInt 256]) = Ok "bc".
Proof.
  eexists. split; [vm_compute; reflexivity|]. split; vm_compute; reflexivity.
Qed.

(** * Further properties of the wrapper *)

(** ** Tokenizer types and the type field *)



(** Import needs the type first: on a configuration without a [type]
    field it raises before any tokenizer is constructed, a KeyError naming
    the key for a dictionary and a TypeError for any other value. *)
Theorem import_requires_type {rt : Runtime} {lib : Library} (config : pyval) :
  field "type" config = None ->
  exists e, load_tokenizer_from_config config = Err e
            /\ ((exists d, config = VDict d) ->
                exn_class e = "KeyError" /\ exn_msg e = "'type'")
            /\ ((forall d, config <> VDict d) -> exn_class e = "TypeError").
Proof.
  intros H. unfold load_tokenizer_from_config, getitem.
  destruct config; try (eexists; split; [reflexivity|];
                        split; [intros [d' [=]] | reflexivity]).
  cbn [field] in H. rewrite H. eexists. split; [reflexivity|].
  split; [split; reflexivity|]. intros Hn. now elim (Hn d).
Qed.

Lemma import_requires_type_witness :
  exists e,
    @load_tokenizer_from_config Sample.runtime Sample.library
      (VDict [(VStr "merges", VList [])]) = Err e
    /\ exn_msg e = "'type'".
Proof.
  destruct (@import_requires_type Sample.runtime Sample.library
              (VDict [(VStr "merges", VList [])]) eq_refl) as (e & He & Hk & _).
  exists e. split; [exact He|]. exact (proj2 (Hk (ex_intro _ _ eq_refl))).
Defined.

(** ** Dictionaries built from lists *)

Section DictOfList.
Context {K V : Type} (eqb : K -> K -> bool).
Hypothesis eqb_eq : forall a b, eqb a b = true <-> a = b.

Lemma dict_get_set_any (k k' : K) (v : V) (d : list (K * V)) :
  dict_get eqb k (dict_set eqb k' v d)
  = if eqb k k' then Some v else dict_get eqb k d.
Proof.
  induction d as [|[j w] r IH]; cbn [dict_set dict_get]; [reflexivity|].
  destruct (eqb k' j) eqn:E; cbn [dict_get].
  - apply eqb_eq in E. subst j. destruct (eqb k k'); reflexivity.
  - rewrite IH. destruct (eqb k j) eqn:Ej; [|reflexivity].
    destruct (eqb k k') eqn:Ek; [|reflexivity].
    apply eqb_eq in Ej, Ek. subst j k'.
    assert (eqb k k = true) by now apply eqb_eq. congruence.
Qed.

Lemma dict_get_app (k : K) (a b : list (K * V)) :
  dict_get eqb k (a ++ b)
  = match dict_get eqb k a with Some v => Some v | None => dict_get eqb k b end.
Proof.
  induction a as [|[j w] r IH]; cbn [app dict_get]; [reflexivity|].
  destruct (eqb k j); [reflexivity | exact IH].
Qed.

(** In [{k: v for k, v in l}] a key holds the value of its last
    occurrence in [l]. *)
Lemma dict_of_list_last (k : K) (l : list (K * V)) :
  dict_get eqb k (dict_of_list eqb l) = dict_get eqb k (rev l).
Proof.
  unfold dict_of_list.
  assert (G : forall (l acc : list (K * V)),
              dict_get eqb k (fold_left (fun d kv => dict_set eqb (fst kv) (snd kv) d)
                                l acc)
              = match dict_get eqb k (rev l) with
                | Some v => Some v
                | None => dict_get eqb k acc
                end).
  { clear l. induction l as [|[j w] r IH]; intros acc; [reflexivity|].
    cbn [fold_left rev fst snd]. rewrite IH, dict_get_app, dict_get_set_any.
    cbn [dict_get]. destruct (dict_get eqb k (rev r)); [reflexivity|].
    destruct (eqb k j); reflexivity. }
  rewrite G. cbn [dict_get]. destruct (dict_get eqb k (rev l)); reflexivity.
Qed.

End DictOfList.

(** ** Merge lists with repeated pairs *)

Lemma load_merges_sets {rt : Runtime} {lib : Library} config v t t' :
  truthy_item "merges" config = Some v ->
  load_merges config t = Ok t' ->
  exists m voc, merges_of_config v = Ok m
                /\ _build_vocab (set_merges m t) = Ok voc
                /\ t' = set_vocab voc (set_merges m t).
Proof.
  unfold load_merges. intros -> H.
  apply bind_ok in H. destruct H as [m [Hm H]].
  apply bind_ok in H. destruct H as [voc [Hv H]]. injection H as <-. eauto.
Qed.

(** When the configuration's merge list names a pair more than once, the
    imported merge table maps the pair to the id of its last entry: a
    lookup in the table is a lookup in the reversed list. *)
Theorem import_merges_last_wins {rt : Runtime} {lib : Library}
  (d : list (pyval * pyval)) (l : list ((Z * Z) * Z)) (tk : Tokenizer) :
  register_frame lib ->
  l <> [] ->
  field "merges" (VDict d) = Some (merges_items l) ->
  load_tokenizer_from_config (VDict d) = Ok tk ->
  exists m, merges tk = Some m
            /\ forall p, dict_get pair_eqb p m = dict_get pair_eqb p (rev l).
Proof.
  intros F Hne Hf H. unfold load_tokenizer_from_config in H.
  apply bind_ok in H. destruct H as [ty [_ H]].
  apply bind_ok in H. destruct H as [t0 [_ H]].
  apply bind_ok in H. destruct H as [t1 [H1 H]].
  apply bind_ok in H. destruct H as [t2 [H2 H]].
  apply bind_ok in H. destruct H as [t3 [H3 H4]].
  assert (Ht : truthy_item "merges" (VDict d) = Some (merges_items l)).
  { unfold truthy_item. cbn [field] in Hf. rewrite Hf.
    destruct l; [contradiction | reflexivity]. }
  destruct (load_merges_sets _ _ _ _ Ht H1) as (m & voc & Hm & _ & ->).
  rewrite merges_of_config_items in Hm. injection Hm as <-.
  apply (load_special_tokens_spec _ _ _ F) in H2. destruct H2 as (M2 & _).
  apply load_pattern_spec in H3. destruct H3 as (M3 & _).
  apply load_byte_shuffle_spec in H4. destruct H4 as (M4 & _).
  exists (dict_of_list pair_eqb l). split; [rewrite M4, M3, M2; reflexivity|].
  intros p. apply dict_of_list_last. exact pair_eqb_eq.
Qed.

Lemma import_merges_last_wins_witness :
  exists tk m,
    @load_tokenizer_from_config Sample.runtime Sample.library
      (merges_config "basic" [((97, 98), 256); ((98, 99), 257); ((97, 98), 258)]) = Ok tk
    /\ merges tk = Some m
    /\ dict_get pair_eqb (97, 98) m = Some 258.
Proof.
  destruct (@load_tokenizer_from_config Sample.runtime Sample.library
              (merges_config "basic" [((97, 98), 256); ((98, 99), 257); ((97, 98), 258)]))
    as [tk|e] eqn:E; [|vm_compute in E; discriminate E].
  assert (Hne : [((97, 98), 256); ((98, 99), 257); ((97, 98), 258)] <> []) by discriminate.
  destruct (@import_merges_last_wins Sample.runtime Sample.library
              [(VStr "type", VStr "basic");
               (VStr "merges",
                merges_items [((97, 98), 256); ((98, 99), 257); ((97, 98), 258)])]
              [((97, 98), 256); ((98, 99), 257); ((97, 98), 258)] tk
              engine_register_frame Hne eq_refl E) as (m & Hm & Hl).
  exists tk, m. split; [reflexivity|]. split; [exact Hm|].
  rewrite Hl. reflexivity.
Defined.

(** ** The pattern and its compiled form *)

(** When the configuration carries a non-empty pattern, the imported
    tokenizer's pattern is that value; and if the tokenizer has a compiled
    pattern at all, the value is a string the regex compiler accepts and
    the compiled pattern is the one of that string.  So a pattern that
    does not compile makes import fail for such a tokenizer. *)
Theorem import_pattern_compiled {rt : Runtime} {lib : Library}
  (config v : pyval) (tk : Tokenizer) :
  truthy_item "pattern" config = Some v ->
  load_tokenizer_from_config config = Ok tk ->
  pattern tk = Some v
  /\ forall c, compiled_pattern tk = Some c -> v = VStr c /\ regex_ok c = true.
Proof.
  intros Hv H. unfold load_tokenizer_from_config in H.
  apply bind_ok in H. destruct H as [ty [_ H]].
  apply bind_ok in H. destruct H as [t0 [_ H]].
  apply bind_ok in H. destruct H as [t1 [_ H]].
  apply bind_ok in H. destruct H as [t2 [_ H]].
  apply bind_ok in H. destruct H as [t3 [H3 H4]].
  apply load_byte_shuffle_spec in H4. destruct H4 as (_ & _ & P4 & C4 & _).
  rewrite P4, C4. clear P4 C4. unfold load_pattern in H3. rewrite Hv in H3.
  cbn [compiled_pattern set_pattern] in H3.
  destruct (compiled_pattern t2) as [c0|] eqn:Ec.
  - apply bind_ok in H3. destruct H3 as [c [Hc H3]]. injection H3 as <-.
    cbn [pattern compiled_pattern set_compiled_pattern set_pattern].
    split; [reflexivity|]. intros c' [= <-].
    unfold re_compile in Hc. destruct v; try discriminate.
    destruct (regex_ok s) eqn:Eok; [|discriminate]. injection Hc as <-. auto.
  - injection H3 as <-. cbn [pattern compiled_pattern set_pattern].
    split; [reflexivity|]. rewrite Ec. discriminate.
Qed.

Lemma import_pattern_compiled_witness :
  exists tk,
    @load_tokenizer_from_config Sample.runtime Sample.library
      (VDict [(VStr "type", VStr "regex"); (VStr "pattern", VStr "\w+")]) = Ok tk
    /\ pattern tk = Some (VStr "\w+")
    /\ compiled_pattern tk = Some "\w+".
Proof.
  destruct (@load_tokenizer_from_config Sample.runtime Sample.library
              (VDict [(VStr "type", VStr "regex"); (VStr "pattern", VStr "\w+")]))
    as [tk|e] eqn:E; [|vm_compute in E; discriminate E].
  destruct (@import_pattern_compiled Sample.runtime Sample.library
              (VDict [(VStr "type", VStr "regex"); (VStr "pattern", VStr "\w+")])
              (VStr "\w+") tk eq_refl E) as [Hp Hc].
  exists tk. split; [reflexivity|]. split; [exact Hp|].
  destruct (compiled_pattern tk) as [c|] eqn:Ec.
  - destruct (Hc c eq_refl) as [[= <-] _]. reflexivity.
  - vm_compute in E. injection E as <-. discriminate Ec.
Defined.

(** ** The byte table on import *)

Lemma load_sets_inverse {rt : Runtime} {lib : Library}
  (d : list (pyval * pyval)) (v : pyval) (tk : Tokenizer) :
  field "type" (VDict d) = Some (VStr "gpt4") ->
  field "byte_shuffle" (VDict d) = Some v ->
  load_tokenizer_from_config (VDict d) = Ok tk ->
  exists items inv, py_items v = Ok items /\ invert_dict items = Ok inv
                    /\ inverse_byte_shuffle tk = Some inv.
Proof.
  intros Hty Hbs H. unfold load_tokenizer_from_config in H. cbn [field] in Hty, Hbs.
  unfold getitem in H. rewrite Hty in H. cbn [bind] in H.
  apply bind_ok in H. destruct H as [t0 [_ H]].
  apply bind_ok in H. destruct H as [t1 [_ H]].
  apply bind_ok in H. destruct H as [t2 [_ H]].
  apply bind_ok in H. destruct H as [t3 [_ H]].
  unfold load_byte_shuffle in H.
  cbn [key_eqb String.eqb Ascii.eqb Bool.eqb] in H. rewrite Hbs in H.
  apply bind_ok in H. destruct H as [items [Hi H]].
  apply bind_ok in H. destruct H as [inv [Hinv H]]. injection H as <-.
  exists items, inv. auto.
Qed.

(** A gpt4 configuration whose [byte_shuffle] is not a mapping, or is a
    mapping with a list or a mapping among its values, cannot be imported:
    building the inverse table raises. *)
Theorem byte_shuffle_must_invert {rt : Runtime} {lib : Library}
  (d : list (pyval * pyval)) (v : pyval) :
  field "type" (VDict d) = Some (VStr "gpt4") ->
  field "byte_shuffle" (VDict d) = Some v ->
  (forall items, v <> VDict items)
  \/ (exists items k x, v = VDict items /\ In (k, x) items /\ hashable x = false) ->
  is_ok (load_tokenizer_from_config (VDict d)) = false.
Proof.
  intros Hty Hbs Hbad.
  destruct (load_tokenizer_from_config (VDict d)) as [tk|e] eqn:E; [|reflexivity].
  exfalso. destruct (load_sets_inverse d v tk Hty Hbs E) as (items & inv & Hi & Hinv & _).
  destruct Hbad as [Hn|(items' & k & x & -> & Hin & Hh)].
  - destruct v; try discriminate. now elim (Hn d0).
  - cbn in Hi. injection Hi as <-. unfold invert_dict in Hinv.
    apply bind_ok in Hinv. destruct Hinv as [vks [Hm _]].
    assert (Hf : is_ok (mapM (fun kv : pyval * pyval =>
                               if hashable (snd kv) then Ok (snd kv, fst kv)
                               else raise "TypeError" "unhashable type") items')
                 = false).
    { apply (mapM_fails _ items' (k, x) Hin). cbn [snd]. rewrite Hh. reflexivity. }
    rewrite Hm in Hf. discriminate.
Qed.

Lemma byte_shuffle_must_invert_witness :
  is_ok (@load_tokenizer_from_config Sample.runtime Sample.library
           (VDict [(VStr "type", VStr "gpt4");
                   (VStr "byte_shuffle", VList [VInt 1; VInt 0])])) = false.
Proof.
  apply (@byte_shuffle_must_invert Sample.runtime Sample.library
           [(VStr "type", VStr "gpt4"); (VStr "byte_shuffle", VList [VInt 1; VInt 0])]
           (VList [VInt 1; VInt 0]) eq_refl eq_refl).
  left. intros items. discriminate.
Defined.

(** For a configuration whose type is not gpt4, a [byte_shuffle] field is
    never read: whatever it holds, import gives the same outcome as
    without it. *)
Theorem byte_shuffle_ignored {rt : Runtime} {lib : Library}
  (d : list (pyval * pyval)) (ty v : pyval) :
  field "type" (VDict d) = Some ty ->
  key_eqb ty (VStr "gpt4") = false ->
  load_tokenizer_from_config (VDict (dict_set key_eqb (VStr "byte_shuffle") v d))
  = load_tokenizer_from_config (VDict d).
Proof.
  intros Hty Hg. cbn [field] in Hty.
  unfold load_tokenizer_from_config, getitem, load_merges, load_special_tokens,
    load_pattern, load_byte_shuffle, truthy_item.
  rewrite !(dict_get_set_other d "type"), !(dict_get_set_other d "merges"),
    !(dict_get_set_other d "special_tokens"), !(dict_get_set_other d "pattern")
    by discriminate.
  rewrite Hty. cbn [bind]. rewrite Hg. reflexivity.
Qed.

Lemma byte_shuffle_ignored_witness :
  @load_tokenizer_from_config Sample.runtime Sample.library
    (VDict [(VStr "type", VStr "basic"); (VStr "byte_shuffle", VInt 7)])
  = @load_tokenizer_from_config Sample.runtime Sample.library
      (VDict [(VStr "type", VStr "basic")]).
Proof.
  exact (@byte_shuffle_ignored Sample.runtime Sample.library
           [(VStr "type", VStr "basic")] (VStr "basic") (VInt 7) eq_refl eq_refl).
Defined.

Lemma invert_items_int_table (l : list (Z * Z)) :
  mapM (fun kv : pyval * pyval =>
          if hashable (snd kv) then Ok (snd kv, fst kv)
          else raise "TypeError" "unhashable type") (int_table l)
  = Ok (int_table (map swap l)).
Proof.
  induction l as [|[k v] r IH]; [reflexivity|].
  change (int_table ((k, v) :: r)) with ((VInt k, VInt v) :: int_table r).
  cbn [mapM]. rewrite IH. reflexivity.
Qed.

Lemma dict_set_int_table (k v : Z) (d : list (Z * Z)) :
  dict_set key_eqb (VInt k) (VInt v) (int_table d) = int_table (dict_set Z.eqb k v d).
Proof.
  induction d as [|[j w] r IH]; [reflexivity|].
  change (int_table ((j, w) :: r)) with ((VInt j, VInt w) :: int_table r).
  cbn [dict_set key_eqb]. destruct (k =? j); [reflexivity|].
  rewrite IH. reflexivity.
Qed.

Lemma dict_of_list_int_table (l : list (Z * Z)) :
  dict_of_list key_eqb (int_table l) = int_table (dict_of_list Z.eqb l).
Proof.
  unfold dict_of_list.
  assert (G : forall (l acc : list (Z * Z)),
              fold_left (fun d kv => dict_set key_eqb (fst kv) (snd kv) d)
                (int_table l) (int_table acc)
              = int_table (fold_left (fun d kv => dict_set Z.eqb (fst kv) (snd kv) d)
                             l acc)).
  { clear l. induction l as [|[k v] r IH]; intros acc; [reflexivity|].
    change (int_table ((k, v) :: r)) with ((VInt k, VInt v) :: int_table r).
    cbn [fold_left fst snd]. rewrite dict_set_int_table. apply IH. }
  exact (G l []).
Qed.

(** For any integer byte table in a gpt4 configuration, injective or not,
    the imported inverse table maps a value to the last key that holds it
    in the table. *)
Theorem inverse_keeps_last_key {rt : Runtime} {lib : Library}
  (d : list (pyval * pyval)) (l : list (Z * Z)) (tk : Tokenizer) :
  field "type" (VDict d) = Some (VStr "gpt4") ->
  field "byte_shuffle" (VDict d) = Some (VDict (int_table l)) ->
  load_tokenizer_from_config (VDict d) = Ok tk ->
  exists inv, inverse_byte_shuffle tk = Some inv
              /\ forall p, dict_get key_eqb (VInt p) inv
                           = option_map VInt (dict_get Z.eqb p (rev (map swap l))).
Proof.
  intros Hty Hbs H.
  destruct (load_sets_inverse d _ tk Hty Hbs H) as (items & inv & Hi & Hinv & Htk).
  cbn in Hi. injection Hi as <-. unfold invert_dict in Hinv.
  rewrite invert_items_int_table in Hinv. cbn [bind] in Hinv. injection Hinv as <-.
  exists (dict_of_list key_eqb (int_table (map swap l))). split; [exact Htk|].
  intros p. rewrite dict_of_list_int_table, dict_get_int_table.
  f_equal. apply dict_of_list_last. exact Z.eqb_eq.
Qed.

Lemma inverse_keeps_last_key_witness :
  exists tk inv,
    @load_tokenizer_from_config Sample.runtime Sample.library
      (VDict [(VStr "type", VStr "gpt4");
              (VStr "byte_shuffle", VDict (int_table [(0, 5); (1, 5)]))]) = Ok tk
    /\ inverse_byte_shuffle tk = Some inv
    /\ dict_get key_eqb (VInt 5) inv = Some (VInt 1).
Proof.
  destruct (@load_tokenizer_from_config Sample.runtime Sample.library
              (VDict [(VStr "type", VStr "gpt4");
                      (VStr "byte_shuffle", VDict (int_table [(0, 5); (1, 5)]))]))
    as [tk|e] eqn:E; [|vm_compute in E; discriminate E].
  destruct (@inverse_keeps_last_key Sample.runtime Sample.library
              [(VStr "type", VStr "gpt4");
               (VStr "byte_shuffle", VDict (int_table [(0, 5); (1, 5)]))]
              [(0, 5); (1, 5)] tk eq_refl eq_refl E) as (inv & Hi & Hl).
  exists tk, inv. split; [reflexivity|]. split; [exact Hi|].
  rewrite Hl. reflexivity.
Defined.

(** ** What export writes *)

Lemma export_values (tokenizer : Tokenizer) (tokenizer_type c : pyval) :
  export_tokenizer_config tokenizer tokenizer_type = Ok c ->
  field "type" c = Some tokenizer_type
  /\ field "vocab_size" c = Some (VInt (Z.of_nat (List.length (vocab tokenizer))))
  /\ field "merges" c = Some (match merges tokenizer with
                              | Some m => merges_items m
                              | None => VList []
                              end)
  /\ field "pattern" c = Some (match pattern tokenizer with
                               | Some p => p
                               | None => VStr ""
                               end)
  /\ field "metadata" c = Some metadata.
Proof.
  unfold export_tokenizer_config. intros H.
  apply bind_ok in H. destruct H as [st [_ H]].
  destruct (key_eqb tokenizer_type (VStr "gpt4"));
    [destruct (byte_shuffle tokenizer) as [b|]|].
  - apply bind_ok in H. destruct H as [bs [_ H]]. injection H as <-.
    cbn. repeat split.
  - injection H as <-. cbn. repeat split.
  - injection H as <-. cbn. repeat split.
Qed.

(** Export raises only when [dict()] does: on the tokenizer's
    [special_tokens], or, for type gpt4, on its [byte_shuffle]; the
    exception is the one [dict()] raised. *)
Theorem export_fails_only_in_dict (tokenizer : Tokenizer) (tokenizer_type : pyval)
  (e : exn) :
  export_tokenizer_config tokenizer tokenizer_type = Err e ->
  (exists v, special_tokens tokenizer = Some v /\ py_dict v = Err e)
  \/ (key_eqb tokenizer_type (VStr "gpt4") = true
      /\ exists b, byte_shuffle tokenizer = Some b /\ py_dict b = Err e).
Proof.
  unfold export_tokenizer_config. intros H.
  destruct (special_tokens tokenizer) as [v|] eqn:Es.
  - destruct (py_dict v) as [st|e'] eqn:Ep.
    + cbn [bind] in H. right.
      destruct (key_eqb tokenizer_type (VStr "gpt4")); [|discriminate].
      split; [reflexivity|].
      destruct (byte_shuffle tokenizer) as [b|]; [|discriminate].
      exists b. split; [reflexivity|].
      destruct (py_dict b) as [bs|e'']; [discriminate|].
      cbn [bind] in H. injection H as <-. reflexivity.
    + cbn [bind] in H. injection H as <-. left. eauto.
  - cbn [bind] in H. right.
    destruct (key_eqb tokenizer_type (VStr "gpt4")); [|discriminate].
    split; [reflexivity|].
    destruct (byte_shuffle tokenizer) as [b|]; [|discriminate].
    exists b. split; [reflexivity|].
    destruct (py_dict b) as [bs|e'']; [discriminate|].
    cbn [bind] in H. injection H as <-. reflexivity.
Qed.

Lemma export_fails_only_in_dict_witness :
  let tk := mkTokenizer KBasic Engine.base_vocab (Some []) (Some (VInt 3))
              None None None None in
  exists e, export_tokenizer_config tk (VStr "basic") = Err e
            /\ py_dict (VInt 3) = Err e.
Proof.
  intros tk.
  destruct (export_tokenizer_config tk (VStr "basic")) as [c|e] eqn:E;
    [vm_compute in E; discriminate E|].
  exists e. split; [reflexivity|].
  destruct (export_fails_only_in_dict tk (VStr "basic") e E)
    as [(v & Hv & Hp)|(Hg & _)]; [|discriminate Hg].
  cbn in Hv. injection Hv as <-. exact Hp.
Defined.

(** The merge table survives export, a JSON file and the parsing that
    import does: for a table with distinct pairs, parsing the exported
    [merges] field, as written or as read back from JSON, gives the table
    again, in the same order. *)
Theorem exported_merges_parse_back (tokenizer : Tokenizer) (tokenizer_type c : pyval)
  (m : list ((Z * Z) * Z)) :
  export_tokenizer_config tokenizer tokenizer_type = Ok c ->
  merges tokenizer = Some m ->
  NoDup (map fst m) ->
  exists v, field "merges" c = Some v
            /\ merges_of_config v = Ok m
            /\ jsonify v = Ok v.
Proof.
  intros He Hm N. apply export_values in He. destruct He as (_ & _ & Hf & _).
  rewrite Hm in Hf. exists (merges_items m). split; [exact Hf|].
  split; [|apply jsonify_merges_items].
  rewrite merges_of_config_items, (dict_of_merges m N). reflexivity.
Qed.

Lemma exported_merges_parse_back_witness :
  let m := [((97, 97), 256); ((256, 98), 257)] in
  let tk := mkTokenizer KBasic Engine.base_vocab (Some m) (Some (VDict []))
              None None None None in
  exists c v, export_tokenizer_config tk (VStr "basic") = Ok c
              /\ field "merges" c = Some v
              /\ merges_of_config v = Ok m.
Proof.
  intros m tk.
  assert (N : NoDup (map fst m)).
  { cbn. constructor; [intros [H|[]]; discriminate H|].
    constructor; [intros [] | constructor]. }
  destruct (export_tokenizer_config tk (VStr "basic")) as [c|e] eqn:E;
    [|vm_compute in E; discriminate E].
  destruct (exported_merges_parse_back tk (VStr "basic") c m E eq_refl N)
    as (v & Hf & Hp & _).
  exists c, v. split; [reflexivity|]. split; assumption.
Defined.

(** ** What the handlers write *)

Lemma unchanged_refl (ps : list string) (fs : FS) : unchanged_except ps fs fs.
Proof. split; auto. Qed.

Lemma unchanged_trans (ps : list string) (a b c : FS) :
  unchanged_except ps a b -> unchanged_except ps b c -> unchanged_except ps a c.
Proof.
  intros [D1 F1] [D2 F2]. split; [congruence|].
  intros p Hp. rewrite (F2 p Hp). now apply F1.
Qed.

Lemma nothing_only {A} (ps : list string) (m : M A) :
  writes_nothing m -> writes_only ps m.
Proof. intros H fs. rewrite H. apply unchanged_refl. Qed.

Lemma nothing_ret {A} (a : A) : writes_nothing (ret a).
Proof. intros fs. reflexivity. Qed.

Lemma nothing_lift {A} (r : result A) : writes_nothing (lift r).
Proof. intros fs. reflexivity. Qed.

Lemma nothing_read (p : string) : writes_nothing (read_file p).
Proof.
  intros fs. unfold read_file. destruct (is_denied p fs); [reflexivity|].
  destruct (dict_get String.eqb p (files fs)); [|reflexivity].
  destruct (str_valid s); reflexivity.
Qed.

Lemma nothing_text_or_file (p : string) : writes_nothing (text_or_file p).
Proof.
  intros fs. unfold text_or_file. destruct (isfile p fs); [apply nothing_read|reflexivity].
Qed.

Lemma nothing_bind {A B} (m : M A) (k : A -> M B) :
  writes_nothing m -> (forall a, writes_nothing (k a)) -> writes_nothing (bindM m k).
Proof.
  intros Hm Hk fs. unfold bindM. specialize (Hm fs).
  destruct (m fs) as [[a|e] fs1]; cbn [snd] in *; subst fs1; [apply Hk | reflexivity].
Qed.

Lemma nothing_json_load {rt : Runtime} (p : string) : writes_nothing (json_load_file p).
Proof.
  unfold json_load_file. apply nothing_bind; [apply nothing_read|].
  intros s. apply nothing_lift.
Qed.

Lemma only_bind {A B} (ps : list string) (m : M A) (k : A -> M B) :
  writes_only ps m -> (forall a, writes_only ps (k a)) -> writes_only ps (bindM m k).
Proof.
  intros Hm Hk fs. unfold bindM. specialize (Hm fs).
  destruct (m fs) as [[a|e] fs1]; cbn [snd] in *; [|exact Hm].
  eapply unchanged_trans; [exact Hm | apply Hk].
Qed.

Lemma only_write (ps : list string) (p : string) (content : result string) :
  In p ps -> writes_only ps (write_file p content).
Proof.
  intros Hin fs. unfold write_file. destruct (is_denied p fs); [apply unchanged_refl|].
  assert (G : forall s, unchanged_except ps fs
                          (mkFS (dict_set String.eqb p s (files fs)) (denied fs))).
  { intros s. split; [reflexivity|]. intros q Hq. cbn [files].
    rewrite (dict_get_set_any String.eqb String.eqb_eq).
    destruct (String.eqb q p) eqn:E; [|reflexivity].
    apply String.eqb_eq in E. subst q. contradiction. }
  destruct content; apply G.
Qed.

Lemma only_try (ps : list string) (c : string) (body : M pyval) :
  writes_only ps body -> writes_only ps (try_except c body).
Proof.
  intros H fs. unfold try_except. specialize (H fs).
  destruct (body fs) as [[r|e] fs1]; exact H.
Qed.

Lemma nothing_try (c : string) (body : M pyval) :
  writes_nothing body -> writes_nothing (try_except c body).
Proof.
  intros H fs. unfold try_except. specialize (H fs).
  destruct (body fs) as [[r|e] fs1]; exact H.
Qed.

Section HandlerFrames.
Context {rt : Runtime} {lib : Library}.

(** Whatever happens, the train, encode and decode handlers change no
    file other than the output file of the command line, and the export
    handler none other than the output file and the vocabulary file named
    after it; the refused paths stay the same.  So a run of [main],
    whatever the command and however it ends, changes no file other than
    these two. *)
Theorem handlers_write_only_output (args : Args) :
  writes_only [a_output args] (handle_train_command args)
  /\ writes_only [a_output args] (handle_encode_command args)
  /\ writes_only [a_output args] (handle_decode_command args)
  /\ writes_only [a_output args; str_replace ".json" "_vocab.json" (a_output args)]
       (handle_export_command args)
  /\ forall fs,
       unchanged_except
         [a_output args; str_replace ".json" "_vocab.json" (a_output args)]
         fs (snd (main args fs)).
Proof.
  assert (Hout : In (a_output args) [a_output args]) by now left.
  assert (H4 : writes_only [a_output args] (handle_train_command args)
               /\ writes_only [a_output args] (handle_encode_command args)
               /\ writes_only [a_output args] (handle_decode_command args)
               /\ writes_only [a_output args;
                               str_replace ".json" "_vocab.json" (a_output args)]
                    (handle_export_command args));
    [split; [|split; [|split]] |].
  - apply only_try. unfold train_body.
    apply only_bind; [apply nothing_only, nothing_text_or_file|]. intros text.
    apply only_bind; [apply nothing_only, nothing_lift|]. intros t0.
    apply only_bind; [apply nothing_only, nothing_lift|]. intros t1.
    apply only_bind; [apply nothing_only, nothing_lift|]. intros config.
    apply only_bind; [now apply only_write|]. intros _.
    apply nothing_only, nothing_ret.
  - apply only_try. unfold encode_body.
    apply only_bind; [apply nothing_only, nothing_json_load|]. intros config.
    apply only_bind; [apply nothing_only, nothing_lift|]. intros t0.
    apply only_bind; [apply nothing_only, nothing_text_or_file|]. intros text.
    apply only_bind; [apply nothing_only, nothing_lift|]. intros tokens.
    apply only_bind; [now apply only_write|]. intros _.
    apply nothing_only, nothing_ret.
  - apply only_try. unfold decode_body.
    apply only_bind; [apply nothing_only, nothing_json_load|]. intros config.
    apply only_bind; [apply nothing_only, nothing_lift|]. intros t0.
    apply only_bind.
    { apply nothing_only. intros fs. destruct (isfile (a_tokens args) fs);
        [apply nothing_json_load | reflexivity]. }
    intros tokens.
    apply only_bind; [apply nothing_only, nothing_lift|]. intros text.
    apply only_bind; [now apply only_write|]. intros _.
    apply only_bind; [apply nothing_only, nothing_lift|]. intros n.
    apply nothing_only, nothing_ret.
  - apply only_try. unfold export_body.
    apply only_bind; [apply nothing_only, nothing_json_load|]. intros config.
    apply only_bind; [apply nothing_only, nothing_lift|]. intros t0.
    apply only_bind.
    { destruct (a_vocab args); [|apply nothing_only, nothing_ret].
      apply only_write. right. now left. }
    intros _.
    apply only_bind; [apply nothing_only, nothing_lift|]. intros ty.
    apply only_bind; [apply nothing_only, nothing_lift|]. intros config'.
    apply only_bind; [apply only_write; now left|]. intros _.
    apply nothing_only, nothing_ret.
  - destruct H4 as (Ht & He & Hd & Hx).
    split; [exact Ht|]. split; [exact He|]. split; [exact Hd|]. split; [exact Hx|].
    intros fs.
    assert (Hw : forall fs', unchanged_except [a_output args] fs fs' ->
                 unchanged_except
                   [a_output args; str_replace ".json" "_vocab.json" (a_output args)]
                   fs fs').
    { intros fs' [Hden Hf]. split; [exact Hden|]. intros p Hp. apply Hf.
      intros [<-|[]]. apply Hp. now left. }
    assert (Hm : forall c, command args = Some c ->
                 snd (main args fs) = snd (dispatch c args fs)).
    { intros c Hc. unfold main. rewrite Hc.
      destruct (dispatch c args fs) as [[r|e] fs1]; [|reflexivity].
      destruct (json_dumps r); reflexivity. }
    destruct (command args) as [c|] eqn:Hc.
    + rewrite (Hm c eq_refl). unfold dispatch.
      destruct (String.eqb c "health"); [apply unchanged_refl|].
      destruct (String.eqb c "train"); [apply Hw, Ht|].
      destruct (String.eqb c "encode"); [apply Hw, He|].
      destruct (String.eqb c "decode"); [apply Hw, Hd|].
      destruct (String.eqb c "export"); [apply Hx|].
      destruct (String.eqb c "load"); [|apply unchanged_refl].
      unfold handle_load_command.
      rewrite (nothing_try "load" (load_body args)); [apply unchanged_refl|].
      unfold load_body.
      apply nothing_bind; [apply nothing_json_load|]. intros config.
      apply nothing_bind; [apply nothing_lift|]. intros t0.
      apply nothing_bind; [apply nothing_lift|]. intros tokens.
      apply nothing_bind; [apply nothing_lift|]. intros text.
      apply nothing_bind; [apply nothing_lift|]. intros ty.
      apply nothing_ret.
    + unfold main. rewrite Hc. apply unchanged_refl.
Qed.

(** The load command only reads: whatever the configuration file and the
    tokenizer do, the file system after the handler is the one before. *)
Theorem load_writes_nothing (args : Args) :
  writes_nothing (handle_load_command args).
Proof.
  apply nothing_try. unfold load_body.
  apply nothing_bind; [apply nothing_json_load|]. intros config.
  apply nothing_bind; [apply nothing_lift|]. intros t0.
  apply nothing_bind; [apply nothing_lift|]. intros tokens.
  apply nothing_bind; [apply nothing_lift|]. intros text.
  apply nothing_bind; [apply nothing_lift|]. intros ty.
  apply nothing_ret.
Qed.

End HandlerFrames.

Lemma bind_nothing {A B} (m : M A) (k : A -> M B) (fs : FS) :
  writes_nothing m ->
  bindM m k fs = match fst (m fs) with
                 | Ok a => k a fs
                 | Err e => (Err e, fs)
                 end.
Proof.
  intros H. unfold bindM. specialize (H fs).
  destruct (m fs) as [[a|e] fs1]; cbn [fst snd] in *; now subst fs1.
Qed.

Section HandlerResults.
Context {rt : Runtime} {lib : Library}.

Ltac failed H :=
  cbn [fst snd] in H; injection H as <- <-;
  split; [left; reflexivity | intros ? [= <-] Hs; discriminate Hs].

(** The decode handler writes the decoded text or nothing: afterwards the
    file system is the one before, or the one before with the output file
    holding a text the tokenizer's [decode] returned.  When the result is
    a success, the output file holds exactly the [text] of the result
    and [output_length] is the length of that text. *)
Theorem decode_writes_text_or_nothing (args : Args) (fs fs' : FS) (r : result pyval) :
  handle_decode_command args fs = (r, fs') ->
  (fs' = fs
   \/ exists tk tokens text,
        decode tk tokens = Ok text
        /\ fs' = mkFS (dict_set String.eqb (a_output args) text (files fs)) (denied fs))
  /\ (forall d, r = Ok d -> field "status" d = Some (VStr "success") ->
      exists text,
        field "text" d = Some (VStr text)
        /\ field "output_length" d = Some (VInt (py_len text))
        /\ dict_get String.eqb (a_output args) (files fs') = Some text).
Proof.
  intros H. unfold handle_decode_command, try_except, decode_body in H.
  rewrite bind_nothing in H by apply nothing_json_load.
  destruct (fst (json_load_file (a_config args) fs)) as [config|e]; [|failed H].
  rewrite bind_nothing in H by apply nothing_lift. cbn [lift fst] in H.
  destruct (load_tokenizer_from_config config) as [tk|e]; [|failed H].
  rewrite bind_nothing in H.
  2:{ intros fs0. destruct (isfile (a_tokens args) fs0);
        [apply nothing_json_load | reflexivity]. }
  destruct (fst (if isfile (a_tokens args) fs
                 then json_load_file (a_tokens args) fs
                 else (json_loads (a_tokens args), fs))) as [tokens|e]; [|failed H].
  rewrite bind_nothing in H by apply nothing_lift. cbn [lift fst] in H.
  destruct (decode tk tokens) as [text|e] eqn:Ed; [|failed H].
  unfold bindM, write_file in H.
  destruct (is_denied (a_output args) fs); [failed H|].
  unfold lift, ret in H.
  destruct (py_len_val tokens) as [n|e].
  - injection H as <- <-. split; [right; eauto|].
    intros d [= <-] _. exists text. cbn [files].
    split; [reflexivity|]. split; [reflexivity | apply dict_get_set_same].
  - injection H as <- <-. split; [right; eauto|].
    intros d [= <-] Hs. discriminate Hs.
Qed.

Ltac not_success H :=
  cbn [fst snd] in H; injection H as <- <-; intros Hs; discriminate Hs.


(** A successful train leaves in the output file the serialisation of an
    exported configuration that agrees with the result it reports: the
    same vocabulary size and the same tokenizer type. *)
Theorem train_result_matches_file (args : Args) (fs fs' : FS) (d : pyval) :
  handle_train_command args fs = (Ok d, fs') ->
  field "status" d = Some (VStr "success") ->
  exists tk config s,
    export_tokenizer_config tk (VStr (a_type args)) = Ok config
    /\ json_dumps config = Ok s
    /\ dict_get String.eqb (a_output args) (files fs') = Some s
    /\ field "vocab_size" d = field "vocab_size" config
    /\ field "tokenizer_type" d = field "type" config
    /\ field "output_file" d = Some (VStr (a_output args)).
Proof.
  intros H. unfold handle_train_command, try_except, train_body in H.
  rewrite bind_nothing in H by apply nothing_text_or_file.
  destruct (fst (text_or_file (a_text args) fs)) as [text|e]; [|not_success H].
  rewrite bind_nothing in H by apply nothing_lift. cbn [lift fst] in H.
  destruct (create_tokenizer (VStr (a_type args))) as [tk0|e]; [|not_success H].
  rewrite bind_nothing in H by apply nothing_lift. cbn [lift fst] in H.
  destruct (if String.eqb (a_type args) "gpt4" then Ok tk0
            else train tk0 text (a_vocab_size args)) as [tk|e]; [|not_success H].
  rewrite bind_nothing in H by apply nothing_lift. cbn [lift fst] in H.
  destruct (export_tokenizer_config tk (VStr (a_type args))) as [config|e] eqn:Ee;
    [|not_success H].
  unfold bindM, json_dump_file, write_file in H.
  destruct (is_denied (a_output args) fs); [not_success H|].
  destruct (json_dumps config) as [s|e] eqn:Ed; [|not_success H].
  unfold ret in H. injection H as <- <-. intros _.
  destruct (export_values _ _ _ Ee) as (Hty & Hvs & _).
  exists tk, config, s. cbn [files]. rewrite Hty, Hvs.
  repeat split; auto using dict_get_set_same.
Qed.

End HandlerResults.

Lemma decode_writes_text_or_nothing_witness :
  exists d fs',
    @handle_decode_command Sample.runtime Sample.library
      (Sample.decode_args "[104, 105]") Sample.fs = (Ok d, fs')
    /\ dict_get String.eqb "out.txt" (files fs') = Some "hi".
Proof.
  destruct (@handle_decode_command Sample.runtime Sample.library
              (Sample.decode_args "[104, 105]") Sample.fs) as [[d|e] fs'] eqn:E;
    [|vm_compute in E; discriminate E].
  destruct (@decode_writes_text_or_nothing Sample.runtime Sample.library _ _ _ _ E)
    as [_ Hs].
  assert (Hd : field "status" d = Some (VStr "success")
               /\ field "text" d = Some (VStr "hi")).
  { vm_compute in E. injection E as <- _. split; reflexivity. }
  destruct (Hs d eq_refl (proj1 Hd)) as (text & Ht & _ & Hf).
  exists d, fs'. split; [reflexivity|].
  rewrite (proj2 Hd) in Ht. injection Ht as <-. exact Hf.
Defined.


Lemma train_result_matches_file_witness :
  exists d fs',
    @handle_train_command Sample.runtime Sample.library
      (Sample.train_args "basic" "aaabdaaabac" 259) Sample.fs = (Ok d, fs')
    /\ field "vocab_size" d = Some (VInt 259)
    /\ isfile "out.json" fs' = true.
Proof.
  destruct (@handle_train_command Sample.runtime Sample.library
              (Sample.train_args "basic" "aaabdaaabac" 259) Sample.fs)
    as [[d|e] fs'] eqn:E; [|vm_compute in E; discriminate E].
  assert (Hd : field "status" d = Some (VStr "success")
               /\ field "vocab_size" d = Some (VInt 259)).
  { vm_compute in E. injection E as <- _. split; reflexivity. }
  destruct (@train_result_matches_file Sample.runtime Sample.library _ _ _ _ E
              (proj1 Hd)) as (tk & config & s & _ & _ & Hf & _).
  exists d, fs'. split; [reflexivity|]. split; [exact (proj2 Hd)|].
  unfold isfile, dict_mem. cbn [Sample.train_args a_output] in Hf. now rewrite Hf.
Defined.

(** ** The vocabulary file of export *)

Lemma occurs_cons (pat : string) (c : ascii) (r : string) :
  occurs pat (String c r) = String.prefix pat (String c r) || occurs pat r.
Proof. reflexivity. Qed.

Lemma replace_absent (pat rep s : string) :
  occurs pat s = false -> str_replace pat rep s = s.
Proof.
  unfold str_replace. induction s as [|c r IH]; intros H; [reflexivity|].
  rewrite occurs_cons in H. apply orb_false_iff in H. destruct H as [Hp Hr].
  cbn [replace_from]. rewrite Hp. f_equal. now apply IH.
Qed.

Lemma prefix_length (pat s : string) :
  String.prefix pat s = true -> (String.length pat <= String.length s)%nat.
Proof.
  revert s. induction pat as [|a p IH]; intros s H; cbn [String.length]; [lia|].
  destruct s as [|b r]; [discriminate|]. cbn [String.prefix] in H.
  destruct (ascii_dec a b); [|discriminate].
  cbn [String.length]. specialize (IH r H). lia.
Qed.

Lemma length_append (a b : string) :
  String.length (a ++ b)%string = (String.length a + String.length b)%nat.
Proof. induction a as [|c a IH]; cbn; [reflexivity | now rewrite IH]. Qed.

Lemma replace_length_ge (pat rep : string) :
  (String.length pat <= String.length rep)%nat -> (1 <= String.length rep)%nat ->
  forall s k, (String.length s
               <= String.length (replace_from pat rep k s) + Nat.min k (String.length s))%nat.
Proof.
  intros Hl H1. induction s as [|c r IH]; intros k; [cbn; lia|].
  cbn [replace_from String.length]. destruct k as [|k].
  - destruct (String.prefix pat (String c r)) eqn:Ep.
    + apply prefix_length in Ep. cbn [String.length] in Ep.
      rewrite length_append. specialize (IH (String.length pat - 1)%nat). lia.
    + cbn [String.length]. specialize (IH O). lia.
  - specialize (IH k). lia.
Qed.

Lemma replace_length_gt (pat rep : string) :
  (1 <= String.length pat)%nat ->
  (String.length pat < String.length rep)%nat ->
  forall s, occurs pat s = true ->
            (String.length s < String.length (str_replace pat rep s))%nat.
Proof.
  intros Hp Hl. unfold str_replace. induction s as [|c r IH]; intros H.
  - cbn [occurs] in H. rewrite orb_false_r in H. apply prefix_length in H.
    cbn [String.length] in H. lia.
  - rewrite occurs_cons in H. cbn [replace_from].
    destruct (String.prefix pat (String c r)) eqn:Ep.
    + apply prefix_length in Ep. cbn [String.length] in *.
      rewrite length_append.
      assert (H1 : (1 <= String.length rep)%nat) by lia.
      pose proof (replace_length_ge pat rep (Nat.lt_le_incl _ _ Hl) H1 r
                    (String.length pat - 1)%nat). lia.
    + cbn [orb] in H. cbn [String.length]. specialize (IH H). lia.
Qed.

Lemma replace_present_differs (pat rep s : string) :
  (1 <= String.length pat)%nat ->
  (String.length pat < String.length rep)%nat ->
  occurs pat s = true -> str_replace pat rep s <> s.
Proof.
  intros Hp Hl Ho E. pose proof (replace_length_gt pat rep Hp Hl s Ho) as H.
  rewrite E in H. lia.
Qed.

Section ExportVocab.
Context {rt : Runtime} {lib : Library}.

Ltac no_success H :=
  cbn [fst snd] in H; injection H as <- <-; intros Hs; discriminate Hs.

(** Export with the vocabulary option writes the vocabulary to the output
    path with [.json] replaced by [_vocab.json], then the configuration to
    the output path.  After a success the output file holds the
    configuration; when the output path contains [.json] the vocabulary
    file is another file and holds the vocabulary; when it does not, the
    two paths are the same and the configuration has replaced the
    vocabulary. *)
Theorem export_vocab_file (args : Args) (fs fs' : FS) (d : pyval) :
  a_vocab args = true ->
  handle_export_command args fs = (Ok d, fs') ->
  field "status" d = Some (VStr "success") ->
  exists tk ty config s sv,
    export_tokenizer_config tk ty = Ok config
    /\ json_dumps config = Ok s
    /\ json_dumps (vocab_data (vocab tk)) = Ok sv
    /\ dict_get String.eqb (a_output args) (files fs') = Some s
    /\ (occurs ".json" (a_output args) = false ->
        str_replace ".json" "_vocab.json" (a_output args) = a_output args)
    /\ (occurs ".json" (a_output args) = true ->
        str_replace ".json" "_vocab.json" (a_output args) <> a_output args
        /\ dict_get String.eqb (str_replace ".json" "_vocab.json" (a_output args))
             (files fs') = Some sv).
Proof.
  intros Hv H. unfold handle_export_command, try_except, export_body in H.
  rewrite Hv in H.
  rewrite bind_nothing in H by apply nothing_json_load.
  destruct (fst (json_load_file (a_config args) fs)) as [config|e]; [|no_success H].
  rewrite bind_nothing in H by apply nothing_lift. cbn [lift fst] in H.
  destruct (load_tokenizer_from_config config) as [tk|e]; [|no_success H].
  unfold bindM at 1 in H. unfold json_dump_file at 1, write_file at 1 in H.
  destruct (is_denied (str_replace ".json" "_vocab.json" (a_output args)) fs);
    [no_success H|].
  destruct (json_dumps (vocab_data (vocab tk))) as [sv|e] eqn:Esv; [|no_success H].
  rewrite bind_nothing in H by apply nothing_lift. cbn [lift fst] in H.
  destruct (getitem config "type") as [ty|e]; [|no_success H].
  rewrite bind_nothing in H by apply nothing_lift. cbn [lift fst] in H.
  destruct (export_tokenizer_config tk ty) as [config'|e] eqn:Ee; [|no_success H].
  unfold bindM, json_dump_file, write_file in H.
  destruct (is_denied (a_output args) _); [no_success H|].
  destruct (json_dumps config') as [s|e] eqn:Es; [|no_success H].
  unfold ret in H. injection H as <- <-. intros _.
  exists tk, ty, config', s, sv. cbn [files].
  split; [exact Ee|]. split; [exact Es|]. split; [exact Esv|].
  split; [apply dict_get_set_same|]. split; [apply replace_absent|].
  intros Ho.
  assert (Hne : str_replace ".json" "_vocab.json" (a_output args) <> a_output args).
  { apply replace_present_differs; [cbn; lia | cbn; lia | exact Ho]. }
  split; [exact Hne|].
  rewrite (dict_get_set_any String.eqb String.eqb_eq).
  destruct (String.eqb _ (a_output args)) eqn:E.
  - apply String.eqb_eq in E. contradiction.
  - apply dict_get_set_same.
Qed.

End ExportVocab.

Lemma export_vocab_file_witness :
  exists d fs' s,
    @handle_export_command Sample.runtime Sample.library
      (Sample.export_args "out" true) Sample.fs = (Ok d, fs')
    /\ dict_get String.eqb "out" (files fs') = Some s
    /\ isfile "out_vocab.json" fs' = false
    /\ String.prefix "{'type': 'basic'" s = true.
Proof.
  destruct (@handle_export_command Sample.runtime Sample.library
              (Sample.export_args "out" true) Sample.fs) as [[d|e] fs'] eqn:E;
    [|vm_compute in E; discriminate E].
  assert (Hd : field "status" d = Some (VStr "success")
               /\ isfile "out_vocab.json" fs' = false
               /\ exists s, dict_get String.eqb "out" (files fs') = Some s
                            /\ String.prefix "{'type': 'basic'" s = true).
  { vm_compute in E. injection E as <- <-. split; [reflexivity|].
    split; [reflexivity|]. eexists. split; reflexivity. }
  destruct Hd as (Hs & Hn & s & Hf & Hp).
  destruct (@export_vocab_file Sample.runtime Sample.library
              (Sample.export_args "out" true) Sample.fs fs' d eq_refl E Hs)
    as (tk & ty & config & s' & sv & _ & _ & _ & Hf' & _).
  exists d, fs', s. repeat split; assumption.
Defined.

(** ** Rendering vocabulary entries *)

Lemma valid_after_replacement (l : list Z) :
  utf8_valid (replacement ++ l) = utf8_valid l.
Proof. reflexivity. Qed.

Lemma utf8_replace_well_formed (l : list Z) : utf8_valid (utf8_replace l) = true.
Proof.
  assert (G : forall n l, (List.length l <= n)%nat -> utf8_valid (utf8_replace l) = true).
  { clear l. induction n as [|n IH]; intros l Hn.
    - destruct l; [reflexivity | simpl in Hn; lia].
    - destruct l as [|b0 r]; [reflexivity|]. simpl in Hn.
      cbn [utf8_replace].
      destruct (in_range 0 127 b0) eqn:E1.
      { cbn [utf8_valid]. rewrite E1. apply IH. lia. }
      destruct r as [|b1 r1]; [reflexivity|]. simpl in Hn.
      destruct (in_range 194 223 b0) eqn:E2.
      { destruct (cont b1) eqn:Ec1.
        - cbn [utf8_valid]. rewrite E1, E2, Ec1. cbn [andb]. apply IH. lia.
        - rewrite valid_after_replacement. apply IH. simpl. lia. }
      destruct (second3 b0 b1) eqn:E3.
      { destruct r1 as [|b2 r2]; [reflexivity|]. simpl in Hn.
        destruct (cont b2) eqn:Ec2.
        - cbn [utf8_valid]. rewrite E1, E2, E3, Ec2. cbn [andb]. apply IH. lia.
        - rewrite valid_after_replacement. apply IH. simpl. lia. }
      destruct (second4 b0 b1) eqn:E4.
      { destruct r1 as [|b2 r2]; [reflexivity|]. simpl in Hn.
        destruct (cont b2) eqn:Ec2.
        - destruct r2 as [|b3 r3]; [reflexivity|]. simpl in Hn.
          destruct (cont b3) eqn:Ec3.
          + cbn [utf8_valid]. rewrite E1, E2, E3, E4, Ec2, Ec3. cbn [andb].
            apply IH. lia.
          + rewrite valid_after_replacement. apply IH. simpl. lia.
        - rewrite valid_after_replacement. apply IH. simpl. lia. }
      rewrite valid_after_replacement. apply IH. simpl. lia. }
  exact (G (List.length l) l (le_n _)).
Qed.

Lemma in_range_bounds (lo hi b : Z) : in_range lo hi b = true -> lo <= b <= hi.
Proof. unfold in_range. intros H. apply andb_prop in H. lia. Qed.

Lemma second3_byte (b0 b1 : Z) : second3 b0 b1 = true -> is_byte b0 /\ is_byte b1.
Proof.
  unfold second3, cont, is_byte. intros H.
  destruct (b0 =? 224) eqn:Ea; [apply Z.eqb_eq in Ea; apply in_range_bounds in H; lia|].
  destruct (b0 =? 237) eqn:Eb; [apply Z.eqb_eq in Eb; apply in_range_bounds in H; lia|].
  apply andb_prop in H. destruct H as [H0 H1].
  apply in_range_bounds in H0, H1. lia.
Qed.

Lemma second4_byte (b0 b1 : Z) : second4 b0 b1 = true -> is_byte b0 /\ is_byte b1.
Proof.
  unfold second4, cont, is_byte. intros H.
  destruct (b0 =? 240) eqn:Ea; [apply Z.eqb_eq in Ea; apply in_range_bounds in H; lia|].
  destruct (b0 =? 244) eqn:Eb; [apply Z.eqb_eq in Eb; apply in_range_bounds in H; lia|].
  apply andb_prop in H. destruct H as [H0 H1].
  apply in_range_bounds in H0, H1. lia.
Qed.

Lemma cont_byte (b : Z) : cont b = true -> is_byte b.
Proof. unfold cont, is_byte. intros H. apply in_range_bounds in H. lia. Qed.

Lemma utf8_valid_bytes (l : list Z) : utf8_valid l = true -> Forall is_byte l.
Proof.
  assert (G : forall n l, (List.length l <= n)%nat ->
                          utf8_valid l = true -> Forall is_byte l).
  { clear l. induction n as [|n IH]; intros l Hn Hv.
    - destruct l; [constructor | simpl in Hn; lia].
    - destruct l as [|b0 r]; [constructor|]. simpl in Hn. cbn [utf8_valid] in Hv.
      destruct (in_range 0 127 b0) eqn:E1.
      { constructor; [apply in_range_bounds in E1; unfold is_byte; lia|].
        apply IH; [lia | exact Hv]. }
      destruct r as [|b1 r1]; [discriminate|]. simpl in Hn.
      destruct (in_range 194 223 b0 && cont b1) eqn:E2.
      { apply andb_prop in E2. destruct E2 as [Ea Eb].
        apply in_range_bounds in Ea. apply cont_byte in Eb.
        constructor; [unfold is_byte; lia|]. constructor; [exact Eb|].
        apply IH; [lia | exact Hv]. }
      destruct r1 as [|b2 r2]; [discriminate|]. simpl in Hn.
      destruct (second3 b0 b1 && cont b2) eqn:E3.
      { apply andb_prop in E3. destruct E3 as [Ea Eb].
        apply second3_byte in Ea. apply cont_byte in Eb.
        constructor; [apply Ea|]. constructor; [apply Ea|]. constructor; [exact Eb|].
        apply IH; [lia | exact Hv]. }
      destruct r2 as [|b3 r3]; [discriminate|]. simpl in Hn.
      apply andb_prop in Hv. destruct Hv as [Hv Hr].
      apply andb_prop in Hv. destruct Hv as [Hv H3].
      apply andb_prop in Hv. destruct Hv as [H4 H2].
      apply second4_byte in H4. apply cont_byte in H2, H3.
      constructor; [apply H4|]. constructor; [apply H4|].
      constructor; [exact H2|]. constructor; [exact H3|].
      apply IH; [lia | exact Hr]. }
  exact (G (List.length l) l (le_n _)).
Qed.

Lemma bytes_of_string_of_bytes (l : list Z) :
  Forall is_byte l -> bytes_of_string (string_of_bytes l) = l.
Proof.
  unfold bytes_of_string, string_of_bytes. intros H.
  rewrite list_ascii_of_string_of_list_ascii, map_map.
  induction H as [|b r Hb Hr IH]; [reflexivity|].
  cbn [map]. rewrite IH. f_equal. unfold byte_of_ascii, ascii_of_byte.
  unfold is_byte in Hb. rewrite N_ascii_embedding; [apply Z2N.id; lia|].
  change 256%N with (Z.to_N 256). apply Z2N.inj_lt; lia.
Qed.

(** Every entry of the exported vocabulary is rendered as well-formed
    text, whatever bytes the token has (malformed parts become the
    replacement character), and a token whose bytes are well-formed UTF-8
    is rendered as exactly those bytes. *)
Theorem vocab_data_well_formed (voc : list (Z * list Z)) (k v : pyval)
  (d : list (pyval * pyval)) :
  vocab_data voc = VDict d ->
  In (k, v) d ->
  exists idx bs s,
    In (idx, bs) voc /\ k = VInt idx /\ v = VStr s
    /\ str_valid s = true
    /\ (utf8_valid bs = true -> bytes_of_string s = bs).
Proof.
  unfold vocab_data. intros [= <-] Hin. apply in_map_iff in Hin.
  destruct Hin as [[idx bs] [[= <- <-] Hin]]. cbn [fst snd].
  exists idx, bs, (string_of_bytes (utf8_replace bs)).
  split; [exact Hin|]. split; [reflexivity|]. split; [reflexivity|].
  pose proof (utf8_replace_well_formed bs) as Hw.
  assert (Hb : bytes_of_string (string_of_bytes (utf8_replace bs)) = utf8_replace bs).
  { apply bytes_of_string_of_bytes. now apply utf8_valid_bytes. }
  split.
  - unfold str_valid. now rewrite Hb.
  - intros Hv. rewrite Hb. now apply utf8_replace_valid.
Qed.

Lemma vocab_data_well_formed_witness :
  exists s, In (VInt 7, VStr s) (match vocab_data [(7, [104; 255; 105])] with
                                 | VDict d => d
                                 | _ => []
                                 end)
            /\ str_valid s = true
            /\ bytes_of_string s = [104; 239; 191; 189; 105].
Proof.
  destruct (vocab_data_well_formed [(7, [104; 255; 105])] (VInt 7)
              (VStr (string_of_bytes (utf8_replace [104; 255; 105])))
              _ eq_refl (or_introl eq_refl))
    as (idx & bs & s & _ & _ & Hs & Hv & _).
  injection Hs as <-. eexists. split; [left; reflexivity|].
  split; [exact Hv | reflexivity].
Defined.

(** ** A missing configuration file *)



(** ** Fields that are present but falsy *)

Lemma dict_get_set_str (d : list (pyval * pyval)) (k : string) (x : pyval) :
  dict_get key_eqb (VStr k) (dict_set key_eqb (VStr k) x d) = Some x.
Proof.
  induction d as [|[k' v'] r IH]; cbn [dict_set dict_get].
  - cbn [key_eqb]. now rewrite String.eqb_refl.
  - destruct (key_eqb (VStr k) k') eqn:E; cbn [dict_get]; rewrite E;
      [reflexivity | exact IH].
Qed.

(** Import tests the [merges], [special_tokens] and [pattern] fields for
    truth, not for presence: a field holding null, false, 0 or any other
    falsy value gives the same outcome as the field holding any other
    falsy value, the empty ones included. *)
Theorem falsy_fields_skipped {rt : Runtime} {lib : Library}
  (d : list (pyval * pyval)) (k : string) (v v' : pyval) :
  In k ["merges"; "special_tokens"; "pattern"] ->
  truthy v = false -> truthy v' = false ->
  load_tokenizer_from_config (VDict (dict_set key_eqb (VStr k) v d))
  = load_tokenizer_from_config (VDict (dict_set key_eqb (VStr k) v' d)).
Proof.
  intros Hk Hv Hv'.
  unfold load_tokenizer_from_config, getitem, load_merges, load_special_tokens,
    load_pattern, load_byte_shuffle, truthy_item.
  destruct Hk as [<-|[<-|[<-|[]]]].
  - rewrite !dict_get_set_str, Hv, Hv'.
    rewrite !(dict_get_set_other d "type"), !(dict_get_set_other d "special_tokens"),
      !(dict_get_set_other d "pattern"), !(dict_get_set_other d "byte_shuffle")
      by discriminate.
    reflexivity.
  - rewrite !dict_get_set_str, Hv, Hv'.
    rewrite !(dict_get_set_other d "type"), !(dict_get_set_other d "merges"),
      !(dict_get_set_other d "pattern"), !(dict_get_set_other d "byte_shuffle")
      by discriminate.
    reflexivity.
  - rewrite !dict_get_set_str, Hv, Hv'.
    rewrite !(dict_get_set_other d "type"), !(dict_get_set_other d "merges"),
      !(dict_get_set_other d "special_tokens"), !(dict_get_set_other d "byte_shuffle")
      by discriminate.
    reflexivity.
Qed.

Lemma falsy_fields_skipped_witness :
  @load_tokenizer_from_config Sample.runtime Sample.library
    (VDict [(VStr "type", VStr "gpt4"); (VStr "merges", VNone)])
  = @load_tokenizer_from_config Sample.runtime Sample.library
      (VDict [(VStr "type", VStr "gpt4"); (VStr "merges", VList [])]).
Proof.
  exact (@falsy_fields_skipped Sample.runtime Sample.library
           [(VStr "type", VStr "gpt4")] "merges" VNone (VList [])
           (or_introl eq_refl) eq_refl eq_refl).
Defined.

(** ** Text given as a file or as a literal *)

(** A [--text] argument that names an existing file stands for the file's
    content: train and encode do exactly what they do when given that
    content as a literal (a literal that is not itself the name of a
    file). *)
Theorem text_file_or_literal {rt : Runtime} {lib : Library}
  (args : Args) (fs : FS) (path content : string) :
  isfile path fs = true ->
  read_file path fs = (Ok content, fs) ->
  isfile content fs = false ->
  handle_train_command (with_text path args) fs
  = handle_train_command (with_text content args) fs
  /\ handle_encode_command (with_text path args) fs
     = handle_encode_command (with_text content args) fs.
Proof.
  intros Hp Hr Hc.
  assert (T1 : text_or_file path fs = (Ok content, fs)).
  { unfold text_or_file. now rewrite Hp. }
  assert (T2 : text_or_file content fs = (Ok content, fs)).
  { unfold text_or_file. now rewrite Hc. }
  split.
  - unfold handle_train_command, try_except, train_body.
    cbn [with_text a_text a_type a_vocab_size a_output].
    rewrite (bind_nothing (text_or_file path)), (bind_nothing (text_or_file content))
      by apply nothing_text_or_file.
    rewrite T1, T2. reflexivity.
  - unfold handle_encode_command, try_except, encode_body.
    cbn [with_text a_text a_config a_output].
    rewrite !(bind_nothing (json_load_file (a_config args))) by apply nothing_json_load.
    destruct (fst (json_load_file (a_config args) fs)); [|reflexivity].
    rewrite !(bind_nothing (lift (load_tokenizer_from_config a)))
      by apply nothing_lift.
    destruct (fst (lift (load_tokenizer_from_config a) fs)); [|reflexivity].
    rewrite (bind_nothing (text_or_file path)), (bind_nothing (text_or_file content))
      by apply nothing_text_or_file.
    rewrite T1, T2. reflexivity.
Qed.

Lemma text_file_or_literal_witness :
  @handle_train_command Sample.runtime Sample.library
    (Sample.train_args "basic" "notes.txt" 259) Sample.fs2
  = @handle_train_command Sample.runtime Sample.library
      (Sample.train_args "basic" "aaabdaaabac" 259) Sample.fs2.
Proof.
  exact (proj1 (@text_file_or_literal Sample.runtime Sample.library
                  (Sample.train_args "basic" "" 259) Sample.fs2
                  "notes.txt" "aaabdaaabac" eq_refl eq_refl eq_refl)).
Defined.

(** ** Encode, then decode the token file *)

Lemma map_VInt_inj (a b : list Z) : map VInt a = map VInt b -> a = b.
Proof.
  revert b. induction a as [|x a IH]; intros [|y b]; cbn; try discriminate.
  - reflexivity.
  - intros [= -> H]. f_equal. now apply IH.
Qed.

Lemma read_file_frame (p : string) (fs fs' : FS) :
  denied fs' = denied fs ->
  dict_get String.eqb p (files fs') = dict_get String.eqb p (files fs) ->
  read_file p fs' = (fst (read_file p fs), fs').
Proof.
  intros Hd Hf. unfold read_file, is_denied. rewrite Hd, Hf.
  destruct (existsb (String.eqb p) (denied fs)); [reflexivity|].
  destruct (dict_get String.eqb p (files fs)) as [s|]; [|reflexivity].
  destruct (str_valid s); reflexivity.
Qed.

Lemma dict_get_set_diff {V} (p q : string) (v : V) (d : list (string * V)) :
  p <> q ->
  dict_get String.eqb p (dict_set String.eqb q v d) = dict_get String.eqb p d.
Proof.
  intros Hne. rewrite (dict_get_set_any String.eqb String.eqb_eq).
  destruct (String.eqb p q) eqn:E; [|reflexivity].
  apply String.eqb_eq in E. contradiction.
Qed.

(** After a successful encode, a decode that is given the token file and
    the same configuration file runs the tokenizer of that configuration
    on exactly the tokens encode produced, provided the token file reads
    back as the list that was written: a failure of the decoder comes
    back as an error result with nothing written, and a decoded text as a
    success, with the text in the output file and the same token
    count. *)
Theorem decode_reads_encoded_tokens {rt : Runtime} {lib : Library}
  (eargs dargs : Args) (fs fs' : FS) (d : pyval) (tokens : list Z) (s : string) :
  handle_encode_command eargs fs = (Ok d, fs') ->
  field "tokens" d = Some (VList (map VInt tokens)) ->
  json_dumps (VList (map VInt tokens)) = Ok s ->
  str_valid s = true ->
  json_loads s = Ok (VList (map VInt tokens)) ->
  a_config dargs = a_config eargs ->
  a_tokens dargs = a_output eargs ->
  a_output eargs <> a_config eargs ->
  exists config tk text,
    fst (json_load_file (a_config eargs) fs) = Ok config
    /\ load_tokenizer_from_config config = Ok tk
    /\ fst (text_or_file (a_text eargs) fs) = Ok text
    /\ encode tk text = Ok tokens
    /\ (forall e, decode tk (VList (map VInt tokens)) = Err e ->
        handle_decode_command dargs fs' = (Ok (error_result "decode" e), fs'))
    /\ (forall text', decode tk (VList (map VInt tokens)) = Ok text' ->
        is_denied (a_output dargs) fs' = false ->
        exists d',
          handle_decode_command dargs fs'
          = (Ok d', mkFS (dict_set String.eqb (a_output dargs) text' (files fs'))
                      (denied fs'))
          /\ field "status" d' = Some (VStr "success")
          /\ field "text" d' = Some (VStr text')
          /\ field "token_count" d' = Some (VInt (Z.of_nat (List.length tokens)))).
Proof.
  intros H Htok Hs Hv Hl Hcfg Hin Hne.
  unfold handle_encode_command, try_except, encode_body in H.
  rewrite bind_nothing in H by apply nothing_json_load.
  destruct (fst (json_load_file (a_config eargs) fs)) as [config|e] eqn:Ec;
    [|injection H as <- <-; discriminate Htok].
  rewrite bind_nothing in H by apply nothing_lift. cbn [lift fst] in H.
  destruct (load_tokenizer_from_config config) as [tk|e] eqn:Et;
    [|injection H as <- <-; discriminate Htok].
  rewrite bind_nothing in H by apply nothing_text_or_file.
  destruct (fst (text_or_file (a_text eargs) fs)) as [text|e] eqn:Etx;
    [|injection H as <- <-; discriminate Htok].
  rewrite bind_nothing in H by apply nothing_lift. cbn [lift fst] in H.
  destruct (encode tk text) as [tokens0|e] eqn:Ee;
    [|injection H as <- <-; discriminate Htok].
  unfold bindM, json_dump_file, write_file in H.
  destruct (is_denied (a_output eargs) fs) eqn:Eden;
    [injection H as <- <-; discriminate Htok|].
  destruct (json_dumps (VList (map VInt tokens0))) as [s0|e] eqn:Ed;
    [|injection H as <- <-; discriminate Htok].
  unfold ret in H. injection H as <- <-.
  cbn in Htok. injection Htok as Htok. apply map_VInt_inj in Htok. subst tokens0.
  rewrite Hs in Ed. injection Ed as <-.
  exists config, tk, text.
  split; [reflexivity|]. split; [exact Et|]. split; [reflexivity|]. split; [exact Ee|].
  set (fs' := mkFS (dict_set String.eqb (a_output eargs) s (files fs)) (denied fs)).
  assert (Hcfg' : json_load_file (a_config dargs) fs' = (Ok config, fs')).
  { unfold json_load_file in *. rewrite bind_nothing in Ec |- * by apply nothing_read.
    rewrite Hcfg.
    rewrite (read_file_frame (a_config eargs) fs fs'); [|reflexivity|].
    - cbn [fst]. destruct (fst (read_file (a_config eargs) fs)) as [c|e];
        [|discriminate Ec].
      cbn [fst lift] in Ec |- *. now rewrite Ec.
    - cbn [fs' files]. apply dict_get_set_diff. congruence. }
  assert (Htk : json_load_file (a_tokens dargs) fs'
                = (Ok (VList (map VInt tokens)), fs')).
  { unfold json_load_file, bindM, read_file, is_denied. rewrite Hin.
    cbn [fs' denied files]. unfold is_denied in Eden. rewrite Eden.
    rewrite dict_get_set_same, Hv. cbn [lift]. now rewrite Hl. }
  assert (Hfile : isfile (a_tokens dargs) fs' = true).
  { unfold isfile, dict_mem. rewrite Hin. cbn [fs' files].
    now rewrite dict_get_set_same. }
  split.
  - intros e He. unfold handle_decode_command, try_except, decode_body, bindM.
    rewrite Hcfg'. cbn [lift]. rewrite Et, Hfile, Htk, He. reflexivity.
  - intros text' Hd Hden. eexists. split; [|split; [|split]].
    + unfold handle_decode_command, try_except, decode_body, bindM.
      rewrite Hcfg'. cbn [lift]. rewrite Et, Hfile, Htk, Hd.
      unfold write_file. rewrite Hden. cbn [py_len_val ret]. reflexivity.
    + reflexivity.
    + reflexivity.
    + cbn. now rewrite length_map.
Qed.

Lemma decode_reads_encoded_tokens_witness :
  exists d',
    fst (@handle_decode_command Sample.runtime Sample.library
           (Sample.decode_args "tokens.json")
           (snd (@handle_encode_command Sample.runtime Sample.library
                   (Sample.encode_args "hi") Sample.fs))) = Ok d'
    /\ field "text" d' = Some (VStr "hi").
Proof.
  destruct (@decode_reads_encoded_tokens Sample.runtime Sample.library
              (Sample.encode_args "hi") (Sample.decode_args "tokens.json")
              Sample.fs _ _ [104; 105] "[104, 105]"
              eq_refl eq_refl eq_refl eq_refl eq_refl eq_refl eq_refl)
    as (config & tk & text & Hc & Ht & _ & _ & _ & Hok); [discriminate|].
  vm_compute in Hc. injection Hc as <-.
  vm_compute in Ht. injection Ht as <-.
  destruct (Hok "hi" eq_refl eq_refl) as (d' & Hd & _ & Htext & _).
  exists d'. split; [exact (f_equal fst Hd) | exact Htext].
Defined.
